(** * Micro-loan approval: statement analysis and eligibility scoring

    A shallow embedding of the statement pipeline of [src/server/server.js]:
    [parsePDF] (the text part), [analyzeTransactions], [calculateMean],
    [calculateStandardDeviation], [detectRecurringPayments] and
    [checkEligibility], followed by the properties the specification states
    about them; then of the rest of the server: [parseImage] (the text
    part), [parseCSV] and [parseExcel] (from the rows of the reader on),
    the file filter and the route [/api/upload], the accounts
    ([/api/register], [/api/login]), [authenticateToken], and the
    applications ([/api/check-eligibility], [/api/history],
    [/api/history/:id]), with further properties of the whole.

    Conventions of the embedding.
    - What a library reads in a file (rows, sheets, text), what [bcrypt]
      and [jwt] return, and the clock are inputs of the handlers; the array
      [users] and the array [applications] are passed in and returned.
      The removal of the uploaded file and the answers with status 500 are
      not part of the model.
    - A JavaScript string is a [string] of 8-bit characters; case folding and
      white space are those of ASCII.
    - A JavaScript number is a [number]: an exact rational kept in lowest
      terms, or one of [+Infinity], [-Infinity], [NaN].  Rounding of binary
      floating point, overflow and the sign of zero are not part of this
      model; the statements proved on it are those that do not depend on
      them.  Where a property does depend on rounding, the loop over the
      rows is embedded a second time, in binary64, as the module [F64].
    - A row (a JavaScript object with string values) is an association list in
      the enumeration order of its keys.
    - [Date] parsing, the clock, the local calendar and [Math.sqrt] are
      parameters of the development. *)

From Stdlib Require Import List Bool Arith ZArith QArith Qround Qabs Qreduction.
From Stdlib Require Import Qcanon.
From Stdlib Require Import Ascii String DecimalString Lia Permutation.
From Stdlib Require Import Sorted.
From Stdlib Require PrimFloat FloatOps SpecFloat.
Import ListNotations.

Local Open Scope string_scope.
Local Open Scope Z_scope.

(* ================================================================== *)
(** * Strings *)

Module Str.

Definition isSpace (c : ascii) : bool :=
  let n := nat_of_ascii c in
  ((9 <=? n) && (n <=? 13) || (n =? 32))%nat.

Definition isDigit (c : ascii) : bool :=
  let n := nat_of_ascii c in ((48 <=? n) && (n <=? 57))%nat.

Definition lowerChar (c : ascii) : ascii :=
  let n := nat_of_ascii c in
  if ((65 <=? n) && (n <=? 90))%nat then ascii_of_nat (n + 32) else c.

(** [s.toLowerCase()] *)
Fixpoint toLowerCase (s : string) : string :=
  match s with
  | EmptyString => EmptyString
  | String c s' => String (lowerChar c) (toLowerCase s')
  end.

Fixpoint trimStart (s : string) : string :=
  match s with
  | EmptyString => EmptyString
  | String c s' => if isSpace c then trimStart s' else s
  end.

(** White space at the end of [s] is removed from the right: a character
    is kept when it is not white space or something is kept after it. *)
Fixpoint trimEnd (s : string) : string :=
  match s with
  | EmptyString => EmptyString
  | String c s' =>
      match trimEnd s' with
      | EmptyString => if isSpace c then EmptyString else String c EmptyString
      | r => String c r
      end
  end.

(** [s.trim()] *)
Definition trim (s : string) : string := trimEnd (trimStart s).

(** [s.includes(t)] *)
Fixpoint includes (s t : string) : bool :=
  prefix t s ||
  match s with
  | EmptyString => false
  | String _ s' => includes s' t
  end.

Fixpoint drop (n : nat) (s : string) : string :=
  match n, s with
  | O, _ => s
  | S n', String _ s' => drop n' s'
  | S _, EmptyString => EmptyString
  end.

(** [s.replace(t, '')] with a string pattern: the first occurrence of [t]
    is removed. *)
Fixpoint removeFirst (s t : string) : string :=
  if prefix t s then drop (String.length t) s
  else match s with
       | EmptyString => EmptyString
       | String c s' => String c (removeFirst s' t)
       end.

(** [s.replace(/,/g, '')] *)
Fixpoint stripCommas (s : string) : string :=
  match s with
  | EmptyString => EmptyString
  | String c s' =>
      if Ascii.eqb c "," then stripCommas s' else String c (stripCommas s')
  end.

(** [s.replace(/\s+/g, ' ')]: [inRun] records that the previous character
    was white space, already replaced by one blank. *)
Fixpoint collapseFrom (inRun : bool) (s : string) : string :=
  match s with
  | EmptyString => EmptyString
  | String c s' =>
      if isSpace c
      then if inRun then collapseFrom true s'
           else String " " (collapseFrom true s')
      else String c (collapseFrom false s')
  end.

Definition collapseSpaces (s : string) : string := collapseFrom false s.

(** [a || b] on strings: the empty string is falsy. *)
Definition orElse (a b : string) : string :=
  match a with EmptyString => b | _ => a end.

Definition nonEmpty (s : string) : bool :=
  match s with EmptyString => false | _ => true end.

End Str.

(* ================================================================== *)
(** * Numbers *)

Module Num.

Inductive number : Type :=
| Fin (q : Q)
| PInf
| NInf
| NaN.

(** A rational in lowest terms. *)
Definition fin (q : Q) : number := Fin (Qred q).

Definition ofZ (z : Z) : number := Fin (z # 1).

Definition zero : number := ofZ 0.

Definition Qltb (a b : Q) : bool :=
  match Qcompare a b with Lt => true | _ => false end.

Definition Qleb (a b : Q) : bool :=
  match Qcompare a b with Gt => false | _ => true end.

Definition Qeqb (a b : Q) : bool :=
  match Qcompare a b with Eq => true | _ => false end.

Definition isNaN (x : number) : bool :=
  match x with NaN => true | _ => false end.

(** [x < y] *)
Definition lt (x y : number) : bool :=
  match x, y with
  | NaN, _ | _, NaN => false
  | Fin a, Fin b => Qltb a b
  | NInf, NInf => false
  | NInf, _ => true
  | _, PInf => match x with PInf => false | _ => true end
  | _, _ => false
  end.

(** [x <= y] *)
Definition le (x y : number) : bool :=
  match x, y with
  | NaN, _ | _, NaN => false
  | Fin a, Fin b => Qleb a b
  | NInf, _ => true
  | _, PInf => true
  | _, _ => false
  end.

(** [x > y] and [x >= y] *)
Definition gt (x y : number) : bool := lt y x.
Definition ge (x y : number) : bool := le y x.

(** [x === y] on numbers *)
Definition eqb (x y : number) : bool :=
  match x, y with
  | Fin a, Fin b => Qeqb a b
  | PInf, PInf | NInf, NInf => true
  | _, _ => false
  end.

Definition neg (x : number) : number :=
  match x with
  | Fin q => fin (- q)
  | PInf => NInf
  | NInf => PInf
  | NaN => NaN
  end.

(** [x + y] *)
Definition add (x y : number) : number :=
  match x, y with
  | NaN, _ | _, NaN => NaN
  | Fin a, Fin b => fin (a + b)
  | PInf, NInf | NInf, PInf => NaN
  | PInf, _ | _, PInf => PInf
  | NInf, _ | _, NInf => NInf
  end.

(** [x - y] *)
Definition sub (x y : number) : number :=
  match x, y with
  | NaN, _ | _, NaN => NaN
  | Fin a, Fin b => fin (a - b)
  | PInf, PInf | NInf, NInf => NaN
  | PInf, _ | _, NInf => PInf
  | NInf, _ | _, PInf => NInf
  end.

(** The infinity whose sign is that of [q]; [NaN] when [q] is zero. *)
Definition infOfSign (q : Q) : number :=
  match Qcompare q 0 with
  | Gt => PInf
  | Lt => NInf
  | Eq => NaN
  end.

(** [x * y] *)
Definition mul (x y : number) : number :=
  match x, y with
  | NaN, _ | _, NaN => NaN
  | Fin a, Fin b => fin (a * b)
  | PInf, Fin b | Fin b, PInf => infOfSign b
  | NInf, Fin b | Fin b, NInf => infOfSign (- b)
  | PInf, PInf | NInf, NInf => PInf
  | PInf, NInf | NInf, PInf => NInf
  end.

(** [x / y]: a finite non-zero number over zero is an infinity, zero over
    zero is [NaN]. *)
Definition div (x y : number) : number :=
  match x, y with
  | NaN, _ | _, NaN => NaN
  | Fin a, Fin b =>
      if Qeqb b 0 then infOfSign a else fin (a / b)
  | Fin _, _ => zero
  | PInf, Fin b => if Qltb b 0 then NInf else PInf
  | NInf, Fin b => if Qltb b 0 then PInf else NInf
  | _, _ => NaN
  end.

(** [Math.abs(x)] *)
Definition Math_abs (x : number) : number :=
  match x with
  | Fin q => fin (Qabs q)
  | PInf | NInf => PInf
  | NaN => NaN
  end.

(** [Math.min(x, y)] and [Math.max(x, y)] *)
Definition Math_min (x y : number) : number :=
  match x, y with
  | NaN, _ | _, NaN => NaN
  | _, _ => if lt y x then y else x
  end.

Definition Math_max (x y : number) : number :=
  match x, y with
  | NaN, _ | _, NaN => NaN
  | _, _ => if lt x y then y else x
  end.

(** [Math.round(x)]: the integer nearest to [x], halves upwards. *)
Definition Math_round (x : number) : number :=
  match x with
  | Fin q => ofZ (Qfloor (q + (1 # 2)))
  | _ => x
  end.

(** [Math.ceil(x)] *)
Definition Math_ceil (x : number) : number :=
  match x with
  | Fin q => ofZ (Qceiling q)
  | _ => x
  end.

(** [Math.pow(x, 2)] *)
Definition square (x : number) : number :=
  match x with
  | Fin q => fin (q * q)
  | PInf | NInf => PInf
  | NaN => NaN
  end.

(** Truthiness of a number: zero and [NaN] are falsy. *)
Definition truthy (x : number) : bool :=
  match x with
  | Fin q => negb (Qeqb q 0)
  | PInf | NInf => true
  | NaN => false
  end.

(** [x || d] *)
Definition orElse (x d : number) : number := if truthy x then x else d.

(** [x !== 0] *)
Definition nonZero (x : number) : bool := negb (eqb x zero).

(** [String(n)] for a value of [Math.round]: the decimal digits of the
    integer (JavaScript prints an exponent from 1e21 on). *)
Definition toString (x : number) : string :=
  match x with
  | Fin q => NilZero.string_of_int (Z.to_int (Qfloor q))
  | PInf => "Infinity"
  | NInf => "-Infinity"
  | NaN => "NaN"
  end.

End Num.

Export Num.

(* ================================================================== *)
(** * [parseFloat] *)

Module Parse.
Import Str.

Definition digitVal (c : ascii) : Z := Z.of_nat (nat_of_ascii c - 48).

(** The longest run of decimal digits at the head of [s], and the rest. *)
Fixpoint spanDigits (s : string) : list Z * string :=
  match s with
  | EmptyString => ([], EmptyString)
  | String c s' =>
      if isDigit c
      then let (ds, r) := spanDigits s' in (digitVal c :: ds, r)
      else ([], s)
  end.

Definition numOf (ds : list Z) : Z :=
  fold_left (fun acc d => 10 * acc + d) ds 0.

(** The exponent part [e], [e+] or [e-] followed by digits, when there is
    one at the head of [s]; otherwise the exponent is 0. *)
Definition exponentOf (s : string) : Z :=
  match s with
  | String c s' =>
      if Ascii.eqb c "e" || Ascii.eqb c "E" then
        let '(sg, s2) :=
          match s' with
          | String "+" r => (1, r)
          | String "-" r => (-1, r)
          | _ => (1, s')
          end in
        let (ds, _) := spanDigits s2 in
        match ds with
        | [] => 0
        | _ => sg * numOf ds
        end
      else 0
  | EmptyString => 0
  end.

(** The longest prefix of [s] that is an unsigned decimal literal. *)
Definition unsignedLiteral (s : string) : number :=
  if prefix "Infinity" s then PInf else
  let (d1, r1) := spanDigits s in
  let (d2, r2) :=
    match r1 with
    | String "." r => spanDigits r
    | _ => ([], r1)
    end in
  match d1, d2 with
  | [], [] => NaN
  | _, _ =>
      let e := exponentOf r2 - Z.of_nat (List.length d2) in
      let n := numOf (d1 ++ d2) in
      if 0 <=? e then fin (n * 10 ^ e # 1)
      else fin (n # Z.to_pos (10 ^ (- e)))
  end.

(** [parseFloat(s)] *)
Definition parseFloat (s : string) : number :=
  let s1 := trimStart s in
  match s1 with
  | String "-" r => neg (unsignedLiteral r)
  | String "+" r => unsignedLiteral r
  | _ => unsignedLiteral s1
  end.

(** [parseFloat(String(v).replace(/,/g, ''))] *)
Definition parseAmount (v : string) : number := parseFloat (stripCommas v).

End Parse.

Export Parse.

(* ================================================================== *)
(** * Document text: the patterns of [parsePDF] *)

Module Pdf.
Import Str.

Definition isSign (c : ascii) : bool := Ascii.eqb c "+" || Ascii.eqb c "-".
Definition isDigitOrComma (c : ascii) : bool := isDigit c || Ascii.eqb c ",".
Definition isDateSep (c : ascii) : bool := Ascii.eqb c "/" || Ascii.eqb c "-".

Definition revString (l : list ascii) : string :=
  string_of_list_ascii (rev l).

(** State of the scanner for [amountPattern] (an optional sign, one or
    more digits or commas, an optional point, digits): nothing pending, a
    sign that still needs a digit or comma, inside the digits and commas,
    or inside the digits after the point.  The characters of the pending
    match are kept in reverse. *)
Inductive scanState : Type :=
| Idle
| Sign (c : ascii)
| IntPart (acc : list ascii)
| FracPart (acc : list ascii).

Definition startAt (c : ascii) : scanState :=
  if isSign c then Sign c
  else if isDigitOrComma c then IntPart [c]
  else Idle.

(** The matches of the amount pattern in [s], left to right, together
    with the characters of [s] outside every match. *)
Fixpoint scanAmounts (st : scanState) (s : string) : list string * string :=
  match s with
  | EmptyString =>
      match st with
      | Idle => ([], EmptyString)
      | Sign c => ([], String c EmptyString)
      | IntPart acc | FracPart acc => ([revString acc], EmptyString)
      end
  | String c s' =>
      match st with
      | Idle =>
          let (ms, out) := scanAmounts (startAt c) s' in
          (ms, match startAt c with Idle => String c out | _ => out end)
      | Sign c0 =>
          if isDigitOrComma c then scanAmounts (IntPart [c; c0]) s'
          else
            let (ms, out) := scanAmounts (startAt c) s' in
            (ms, String c0 (match startAt c with
                            | Idle => String c out
                            | _ => out
                            end))
      | IntPart acc =>
          if isDigitOrComma c then scanAmounts (IntPart (c :: acc)) s'
          else if Ascii.eqb c "." then scanAmounts (FracPart (c :: acc)) s'
          else
            let (ms, out) := scanAmounts (startAt c) s' in
            (revString acc :: ms,
             match startAt c with Idle => String c out | _ => out end)
      | FracPart acc =>
          if isDigit c then scanAmounts (FracPart (c :: acc)) s'
          else
            let (ms, out) := scanAmounts (startAt c) s' in
            (revString acc :: ms,
             match startAt c with Idle => String c out | _ => out end)
      end
  end.

(** [line.match(amountPattern)]: the list of matches ([null] is the empty
    list). *)
Definition matchAmounts (line : string) : list string :=
  fst (scanAmounts Idle line).

(** [line.replace(amountPattern, '')] *)
Definition removeAmounts (line : string) : string :=
  snd (scanAmounts Idle line).

Fixpoint countDigits (s : string) : nat :=
  match s with
  | String c s' => if isDigit c then S (countDigits s') else O
  | EmptyString => O
  end.

Definition sepAt (k : nat) (s : string) : bool :=
  match String.get k s with
  | Some c => isDateSep c
  | None => false
  end.

(** [\d{2,4}] at the head of [s]: the number of digits taken. *)
Definition yearAt (s : string) : option nat :=
  let n := countDigits s in
  if (2 <=? n)%nat then Some (Nat.min n 4) else None.

(** [\d{1,2}] followed by a separator and [rest], two digits tried before
    one. *)
Definition shortFieldThen (rest : string -> option nat) (s : string)
  : option nat :=
  let n := countDigits s in
  let try k :=
    if ((k <=? n)%nat && sepAt k s)%bool
    then option_map (fun m => (k + 1 + m)%nat) (rest (drop (k + 1) s))
    else None in
  match try 2%nat with
  | Some m => Some m
  | None => try 1%nat
  end.

(** The length of the match of
    [/(\d{1,2}[\/\-]\d{1,2}[\/\-]\d{2,4})/] at the head of [s]. *)
Definition matchDateAt (s : string) : option nat :=
  shortFieldThen (shortFieldThen yearAt) s.

(** [line.match(datePattern)]: the text of the leftmost match. *)
Fixpoint findDate (s : string) : option string :=
  match matchDateAt s with
  | Some n => Some (substring 0 n s)
  | None =>
      match s with
      | EmptyString => None
      | String _ s' => findDate s'
      end
  end.

(** [line.replace(datePattern, '')] *)
Fixpoint removeDate (s : string) : string :=
  match matchDateAt s with
  | Some n => drop n s
  | None =>
      match s with
      | EmptyString => EmptyString
      | String c s' => String c (removeDate s')
      end
  end.

(** [text.split('\n')] *)
Fixpoint splitLines (s : string) : list string :=
  match s with
  | EmptyString => [EmptyString]
  | String c s' =>
      if Ascii.eqb c "010"
      then EmptyString :: splitLines s'
      else match splitLines s' with
           | l :: ls => String c l :: ls
           | [] => [String c EmptyString]
           end
  end.

(** The objects pushed on [transactions] by [parsePDF].  The function's
    last step, which renders [amount] with [toString], is left out. *)
Record pdfTransaction : Type := mkPdfTransaction {
  pdf_date : string;
  pdf_description : string;
  pdf_amount : number;
  pdf_type : string
}.

Definition typeOfAmount (amount : number) : string :=
  if gt amount zero then "credit" else "debit".

Definition isHeaderLine (line : string) : bool :=
  includes (toLowerCase line) "date" ||
  includes (toLowerCase line) "description" ||
  includes (toLowerCase line) "amount" ||
  includes (toLowerCase line) "balance" ||
  (String.length line <? 5)%nat.

(** The description of the first pass: the line without the date and
    without the first occurrence of each amount token. *)
Definition describe (line : string) (dateMatch : option string)
    (amounts : list string) : string :=
  let d0 := match dateMatch with
            | Some m => trim (removeFirst line m)
            | None => line
            end in
  let d1 := fold_left (fun d amt => trim (removeFirst d amt)) amounts d0 in
  trim (collapseSpaces d1).

(** The body of the first loop of [parsePDF] for one element of [lines]:
    the transaction pushed, if any. *)
Definition firstPassLine (raw : string) : option pdfTransaction :=
  let line := trim raw in
  if isHeaderLine line then None else
  let dateMatch := findDate line in
  let date := match dateMatch with Some m => m | None => "" end in
  match matchAmounts line with
  | [] => None
  | a0 :: rest =>
      let amounts := a0 :: rest in
      let amount := parseFloat (stripCommas (last amounts "")) in
      if negb (isNaN amount) && gt (Math_abs amount) zero
         && lt (Math_abs amount) (ofZ 10000000)
      then
        let description := describe line dateMatch amounts in
        if (0 <? String.length description)%nat
        then Some (mkPdfTransaction (orElse date "N/A")
                     (orElse description "Transaction")
                     amount (typeOfAmount amount))
        else None
      else None
  end.

(** The body of the second loop of [parsePDF]. *)
Definition secondPassLine (line : string) : option pdfTransaction :=
  match findDate line with
  | None => None
  | Some d =>
      match matchAmounts line with
      | [] => None
      | a0 :: rest =>
          let amounts := a0 :: rest in
          let amount := parseFloat (stripCommas (last amounts "")) in
          if negb (isNaN amount) && gt (Math_abs amount) zero
          then Some (mkPdfTransaction d
                       (orElse (trim (removeAmounts (removeDate line)))
                               "Transaction")
                       amount (typeOfAmount amount))
          else None
      end
  end.

Fixpoint collect {A B : Type} (f : A -> option B) (l : list A) : list B :=
  match l with
  | [] => []
  | x :: l' =>
      match f x with
      | Some y => y :: collect f l'
      | None => collect f l'
      end
  end.

(** [parsePDF] from the extracted text on. *)
Definition parsePDF (text : string) : list pdfTransaction :=
  let lines :=
    filter (fun line => (0 <? String.length (trim line))%nat)
           (splitLines text) in
  match collect firstPassLine lines with
  | [] => collect secondPassLine lines
  | ts => ts
  end.

End Pdf.

Export Pdf.

(* ================================================================== *)
(** * Rows, transactions and results *)

(** A row of [data]: the keys of the object in enumeration order, each with
    its value. *)
Definition row : Type := list (string * string).

(** [row[key]] *)
Fixpoint lookup (key : string) (r : row) : option string :=
  match r with
  | [] => None
  | (k, v) :: r' => if String.eqb k key then Some v else lookup key r'
  end.

(** [Object.keys(row)] *)
Definition keys (r : row) : list string := map fst r.

(** The two values of the [type] field of a transaction. *)
Inductive kind : Type := income | expense.

Definition kind_eqb (a b : kind) : bool :=
  match a, b with
  | income, income | expense, expense => true
  | _, _ => false
  end.

Record transaction : Type := mkTransaction {
  amount : number;
  type : kind;
  description : string;
  date : string
}.

(** The variables [totalIncome], [totalExpenses] and [transactions] that the
    loop over [data] updates. *)
Record accum : Type := mkAccum {
  acc_income : number;
  acc_expenses : number;
  acc_transactions : list transaction
}.

(** A value of [monthlyData]. *)
Record bucket : Type := mkBucket {
  b_income : number;
  b_expenses : number;
  b_count : nat
}.

(** A value of [patterns] in [detectRecurringPayments]. *)
Record pattern : Type := mkPattern {
  p_description : string;
  p_amount : number;
  p_count : nat;
  p_dates : list string
}.

(** An element of [monthlyBreakdown]. *)
Record breakdown : Type := mkBreakdown {
  month : string;
  m_income : number;
  m_expenses : number;
  m_savings : number
}.

(** [dateRange]: the two instants in milliseconds, which [toISOString]
    renders, and the number of days. *)
Record range : Type := mkRange {
  r_start : Z;
  r_end : Z;
  r_days : number
}.

Record AnalysisResult : Type := mkAnalysis {
  totalIncome : number;
  totalExpenses : number;
  savings : number;
  averageMonthlyIncome : number;
  averageMonthlyExpenses : number;
  savingsPerMonth : number;
  savingsRate : number;
  transactionCount : nat;
  transactions : list transaction;
  incomeConsistency : number;
  spendingVolatility : number;
  emergencySavingsBuffer : number;
  billPaymentRegularity : number;
  accountAgeMonths : number;
  monthlyDebtObligations : number;
  totalDebtObligations : number;
  monthlyBreakdown : list breakdown;
  dateRange : range
}.

(** The texts pushed on [strengths] and [warnings]; a number that the text
    prints is kept as it is. *)
Inductive message : Type :=
| IncomeExceedsExpenses
| LowExpenseRatio
| HighExpenseRatio
| ExpensesExceedIncome
| SavingsExceedThreshold (x : number)
| SavingsBelowThreshold (x : number)
| NegativeMonthlySavings
| HighSavingsRate (x : number)
| ModerateSavingsRate (x : number)
| LowSavingsRate (x : number)
| VeryConsistentIncome
| ModeratelyConsistentIncome
| IrregularIncome
| HighlyIrregularIncome
| StableSpending
| ModeratelyStableSpending
| HighSpendingVolatility
| StrongEmergencyBuffer (x : number)
| AdequateEmergencyBuffer (x : number)
| LowEmergencyBuffer (x : number)
| NoEmergencyBuffer
| RegularBillPayments
| LongAccountHistory (x : number)
| ModerateAccountHistory (x : number)
| ShortAccountHistory (x : number)
| HighDebt (x : number)
| ModerateDebt (x : number)
| LowDebt (x : number)
| InsufficientCriteria.

Inductive risk : Type := risk_high | risk_medium | risk_low | risk_very_low.

Record metricsSnapshot : Type := mkMetrics {
  metrics_savingsRate : number;
  metrics_incomeConsistency : number;
  metrics_spendingVolatility : number;
  metrics_emergencySavingsBuffer : number;
  metrics_billPaymentRegularity : number;
  metrics_accountAgeMonths : number;
  metrics_monthlyDebtObligations : number
}.

Record EligibilityResult : Type := mkEligibility {
  eligible : bool;
  score : number;
  riskLevel : risk;
  reasons : list message;
  strengths : list message;
  warnings : list message;
  recommendedLoanAmount : number;
  maxLoanAmount : number;
  metrics : metricsSnapshot
}.

(** What the analysis takes from the JavaScript run time: [Date_parse s] is
    the time value of [new Date(s)], [None] for an invalid date;
    [clock_first] and [clock_second] are the two readings of [new Date()];
    [getFullYear] and [getMonth] are the local calendar; [sqrtQ] is the
    square root on non-negative rationals. *)
Class Host : Type := mkHost {
  Date_parse : string -> option Z;
  clock_first : Z;
  clock_second : Z;
  getFullYear : Z -> Z;
  getMonth : Z -> Z;
  sqrtQ : Q -> Q
}.

(* ================================================================== *)
(** * [analyzeTransactions]: one row *)

Module Columns.

Definition amountColumns : list string :=
  ["amount"; "transaction_amount"; "amount_inr"; "value"; "balance";
   "credit"; "debit"; "deposit"; "withdrawal"; "transaction value";
   "amt"; "amount (inr)"; "transaction amount"; "balance amount"].

Definition typeColumns : list string :=
  ["type"; "transaction_type"; "category"; "description"; "narration";
   "particulars"; "details"; "transaction description"; "remarks"].

Definition dateColumns : list string :=
  ["date"; "transaction_date"; "date_time"; "value date";
   "transaction date"; "date of transaction"; "posting date"].

Definition debtKeywords : list string :=
  ["loan"; "emi"; "credit card"; "debt"; "repayment"; "installment"].

End Columns.

Export Columns.

(** [keys.find(k => k.toLowerCase().trim() === col.toLowerCase().trim())] *)
Definition matchingKey (col : string) (r : row) : option string :=
  find (fun k => String.eqb (Str.trim (Str.toLowerCase k))
                            (Str.trim (Str.toLowerCase col)))
       (keys r).

(** The value of the column [col] when the test
    [matchingKey && row[matchingKey] !== undefined && ... !== ''] passes. *)
Definition columnValue (col : string) (r : row) : option string :=
  match matchingKey col r with
  | Some k =>
      if Str.nonEmpty k then
        match lookup k r with
        | Some v => if Str.nonEmpty v then Some v else None
        | None => None
        end
      else None
  | None => None
  end.

(** The loop over [amountColumns]: [amount] is assigned at every column
    that has a value, and the loop stops at the first non-zero one. *)
Fixpoint amountFromColumns (cols : list string) (r : row) (amount : number)
  : number :=
  match cols with
  | [] => amount
  | col :: cols' =>
      match columnValue col r with
      | Some v =>
          let amount' := Num.orElse (parseAmount v) zero in
          if nonZero amount' then amount'
          else amountFromColumns cols' r amount'
      | None => amountFromColumns cols' r amount
      end
  end.

(** The loops over [typeColumns] and [dateColumns]: the value of the first
    column that has one. *)
Fixpoint firstColumn (cols : list string) (r : row) : option string :=
  match cols with
  | [] => None
  | col :: cols' =>
      match columnValue col r with
      | Some v => Some v
      | None => firstColumn cols' r
      end
  end.

Definition isDescriptionKey (k : string) : bool :=
  Str.includes (Str.toLowerCase k) "description" ||
  Str.includes (Str.toLowerCase k) "narration" ||
  Str.includes (Str.toLowerCase k) "particulars".

(** [description] after the type loop and the [if (!description)] block. *)
Definition resolveDescription (r : row) : string :=
  match firstColumn typeColumns r with
  | Some v => v
  | None =>
      match filter isDescriptionKey (keys r) with
      | k :: _ =>
          match lookup k r with
          | Some v => v
          | None => EmptyString
          end
      | [] => EmptyString
      end
  end.

(** [type] after the type loop. *)
Definition resolveType (r : row) : string :=
  match firstColumn typeColumns r with
  | Some v => Str.toLowerCase v
  | None => EmptyString
  end.

Definition resolveDate (r : row) : string :=
  match firstColumn dateColumns r with
  | Some v => v
  | None => EmptyString
  end.

Definition isSkippedKey (k : string) : bool :=
  Str.includes (Str.toLowerCase k) "date" ||
  Str.includes (Str.toLowerCase k) "id" ||
  Str.includes (Str.toLowerCase k) "no".

Definition plausible (value : number) : bool :=
  negb (isNaN value) && gt (Math_abs value) zero
  && lt (Math_abs value) (ofZ 100000000).

(** The [for (const key in row)] loop: the first plausible value of a field
    whose name is not skipped; [None] when the loop ends without a [break]. *)
Fixpoint scanFields (r : row) : option number :=
  match r with
  | [] => None
  | (key, v) :: r' =>
      if isSkippedKey key then scanFields r'
      else
        let value := parseAmount v in
        if plausible value then Some value else scanFields r'
  end.

(** [amount] when the classification starts. *)
Definition resolveAmount (r : row) : number :=
  let amount := amountFromColumns amountColumns r zero in
  if eqb amount zero then
    match scanFields r with
    | Some value => value
    | None => amount
    end
  else amount.

Definition expenseWords : list string :=
  ["purchase"; "check"; "withdrawal"; "charge"; "debit"; "payment"; "fee"].

Definition incomeWords : list string :=
  ["credit"; "deposit"; "interest"; "salary"; "income"; "preauthorized"].

Definition includesAny (s : string) (words : list string) : bool :=
  existsb (fun w => Str.includes s w) words.

(** [(type || description || '').toLowerCase()] *)
Definition descLowerOf (r : row) : string :=
  Str.toLowerCase
    (Str.orElse (resolveType r) (Str.orElse (resolveDescription r) "")).

Definition isExpense (r : row) : bool := includesAny (descLowerOf r) expenseWords.
Definition isIncome (r : row) : bool := includesAny (descLowerOf r) incomeWords.

(** The object pushed for the row [r] with the type [k]. *)
Definition pushed (r : row) (k : kind) : transaction :=
  mkTransaction (Math_abs (resolveAmount r)) k
    (Str.orElse (resolveType r)
       (Str.orElse (resolveDescription r) "Transaction"))
    (Str.orElse (resolveDate r) "N/A").

Definition addIncome (by_ : number) (t : transaction) (a : accum) : accum :=
  mkAccum (add (acc_income a) by_) (acc_expenses a)
          (acc_transactions a ++ [t]).

Definition addExpense (by_ : number) (t : transaction) (a : accum) : accum :=
  mkAccum (acc_income a) (add (acc_expenses a) by_)
          (acc_transactions a ++ [t]).

(** The test [row.type === 'credit' || row.type === 'debit'] and what the
    block under it decides. *)
Definition declaredType (r : row) : option kind :=
  match lookup "type" r with
  | Some ty =>
      if String.eqb ty "credit" then Some income
      else if String.eqb ty "debit" then Some expense
      else None
  | None => None
  end.

(** The callback of [data.forEach]. *)
Definition rowStep (a : accum) (r : row) : accum :=
  let amount := resolveAmount r in
  match declaredType r with
  | Some income => addIncome (Math_abs amount) (pushed r income) a
  | Some expense => addExpense (Math_abs amount) (pushed r expense) a
  | None =>
      if isExpense r then
        addExpense (Math_abs amount) (pushed r expense) a
      else if isIncome r || gt amount zero then
        addIncome (Math_abs amount) (pushed r income) a
      else if lt amount zero then
        addExpense (Math_abs amount) (pushed r expense) a
      else
        addIncome amount (pushed r income) a
  end.

Definition processRows (data : list row) : accum :=
  fold_left rowStep data (mkAccum zero zero []).

(* ================================================================== *)
(** * [calculateMean], [calculateStandardDeviation] *)

Definition sum (values : list number) : number :=
  fold_left add values zero.

Definition calculateMean (values : list number) : number :=
  match values with
  | [] => zero
  | _ => div (sum values) (ofZ (Z.of_nat (List.length values)))
  end.

Section WithHost.

Context {host : Host}.

(** [Math.sqrt(x)] *)
Definition Math_sqrt (x : number) : number :=
  match x with
  | Fin q => if Qltb q 0 then NaN else fin (sqrtQ q)
  | PInf => PInf
  | NInf | NaN => NaN
  end.

Definition calculateStandardDeviation (values : list number) : number :=
  match values with
  | [] => zero
  | _ =>
      let mean := calculateMean values in
      let squaredDiffs := map (fun val => square (sub val mean)) values in
      let avgSquaredDiff := calculateMean squaredDiffs in
      Math_sqrt avgSquaredDiff
  end.

End WithHost.

(* ================================================================== *)
(** * [detectRecurringPayments] *)

(** The template [`${desc}_${Math.round(amount)}`]. *)
Definition patternKey (t : transaction) : string :=
  Str.toLowerCase (description t) ++ "_" ++ toString (Math_round (amount t)).

Definition recordDate (t : transaction) (dates : list string) : list string :=
  if Str.nonEmpty (date t) then dates ++ [date t] else dates.

Definition countIn (t : transaction) (p : pattern) : pattern :=
  mkPattern (p_description p) (p_amount p) (S (p_count p))
            (recordDate t (p_dates p)).

(** One iteration on [patterns]: the entry of the key is created when it is
    missing, then counted. *)
Fixpoint notePattern (key : string) (t : transaction)
    (patterns : list (string * pattern)) : list (string * pattern) :=
  match patterns with
  | [] => [(key, countIn t (mkPattern (description t) (amount t) 0 []))]
  | (k, p) :: rest =>
      if String.eqb k key then (k, countIn t p) :: rest
      else (k, p) :: notePattern key t rest
  end.

Definition detectRecurringPayments (txs : list transaction) : list pattern :=
  let patterns :=
    fold_left (fun ps t => notePattern (patternKey t) t ps) txs [] in
  filter (fun p => (2 <=? p_count p)%nat) (map snd patterns).

(* ================================================================== *)
(** * [analyzeTransactions]: the aggregates *)

Definition decimal (z : Z) : string := NilZero.string_of_int (Z.to_int z).

(** [s.padStart(2, '0')] *)
Definition padStart2 (s : string) : string :=
  match String.length s with
  | O => "00"
  | S O => "0" ++ s
  | _ => s
  end.

Definition emptyBucket : bucket := mkBucket zero zero 0.

Definition addToBucket (t : transaction) (b : bucket) : bucket :=
  match type t with
  | income => mkBucket (add (b_income b) (amount t)) (b_expenses b)
                       (S (b_count b))
  | expense => mkBucket (b_income b) (add (b_expenses b) (amount t))
                        (S (b_count b))
  end.

(** One update of [monthlyData] at [key]. *)
Fixpoint bump (key : string) (t : transaction) (m : list (string * bucket))
  : list (string * bucket) :=
  match m with
  | [] => [(key, addToBucket t emptyBucket)]
  | (k, b) :: rest =>
      if String.eqb k key then (k, addToBucket t b) :: rest
      else (k, b) :: bump key t rest
  end.

(** [monthlyData[month]] *)
Fixpoint bucketAt (key : string) (m : list (string * bucket)) : bucket :=
  match m with
  | [] => emptyBucket
  | (k, b) :: rest => if String.eqb k key then b else bucketAt key rest
  end.

Fixpoint insertSorted (s : string) (l : list string) : list string :=
  match l with
  | [] => [s]
  | x :: l' => if String.leb s x then s :: l else x :: insertSorted s l'
  end.

(** [Object.keys(monthlyData).sort()] *)
Definition sortStrings (l : list string) : list string :=
  fold_right insertSorted [] l.

Definition minimum (d : Z) (l : list Z) : Z := fold_left Z.min l d.
Definition maximum (d : Z) (l : list Z) : Z := fold_left Z.max l d.

Definition clamp100 (x : number) : number :=
  Math_max zero (Math_min (ofZ 100) x).

Definition isDebt (t : transaction) : bool :=
  existsb (fun keyword => Str.includes (Str.toLowerCase (description t)) keyword)
          debtKeywords.

Section Analysis.

Context {host : Host}.

(** The valid time values of the dates of [txs]. *)
Definition validTimes (txs : list transaction) : list Z :=
  collect (fun t => Date_parse (date t)) txs.

Definition minDate (txs : list transaction) : Z :=
  match validTimes txs with
  | [] => clock_first
  | d :: ds => minimum d ds
  end.

Definition maxDate (txs : list transaction) : Z :=
  match validTimes txs with
  | [] => clock_second
  | d :: ds => maximum d ds
  end.

Definition daysDiff (txs : list transaction) : number :=
  Math_max (ofZ 1)
    (Math_ceil (div (ofZ (maxDate txs - minDate txs))
                    (ofZ (1000 * 60 * 60 * 24)))).

Definition monthsDiff (txs : list transaction) : number :=
  Math_max (ofZ 1) (div (daysDiff txs) (ofZ 30)).

Definition monthKey (d : Z) : string :=
  decimal (getFullYear d) ++ "-" ++ padStart2 (decimal (getMonth d + 1)).

Definition monthStep (m : list (string * bucket)) (t : transaction)
  : list (string * bucket) :=
  match Date_parse (date t) with
  | Some d => bump (monthKey d) t m
  | None => m
  end.

Definition monthlyData (txs : list transaction) : list (string * bucket) :=
  fold_left monthStep txs [].

Definition incomeMonths (txs : list transaction) : list number :=
  filter (fun i => gt i zero) (map b_income (map snd (monthlyData txs))).

Definition expenseMonths (txs : list transaction) : list number :=
  filter (fun e => gt e zero) (map b_expenses (map snd (monthlyData txs))).

(** [incomeConsistency] before it is clamped. *)
Definition incomeConsistencyRaw (txs : list transaction) : number :=
  match incomeMonths txs with
  | [] => zero
  | ms =>
      mul (sub (ofZ 1)
             (div (calculateStandardDeviation ms)
                  (Num.orElse (calculateMean ms) (ofZ 1))))
          (ofZ 100)
  end.

Definition spendingVolatilityRaw (txs : list transaction) : number :=
  match expenseMonths txs with
  | [] => zero
  | ms =>
      mul (div (calculateStandardDeviation ms)
               (Num.orElse (calculateMean ms) (ofZ 1)))
          (ofZ 100)
  end.

Definition breakdownOf (m : list (string * bucket)) (mo : string)
  : breakdown :=
  mkBreakdown mo (b_income (bucketAt mo m)) (b_expenses (bucketAt mo m))
    (sub (b_income (bucketAt mo m)) (b_expenses (bucketAt mo m))).

(** The part of [analyzeTransactions] after the loop over [data]. *)
Definition summarize (a : accum) : AnalysisResult :=
  let totalIncome := acc_income a in
  let totalExpenses := acc_expenses a in
  let transactions := acc_transactions a in
  let savings := sub totalIncome totalExpenses in
  let monthsDiff := monthsDiff transactions in
  let averageMonthlyIncome := div totalIncome monthsDiff in
  let averageMonthlyExpenses := div totalExpenses monthsDiff in
  let savingsPerMonth := sub averageMonthlyIncome averageMonthlyExpenses in
  let savingsRate :=
    if gt averageMonthlyIncome zero
    then mul (div savingsPerMonth averageMonthlyIncome) (ofZ 100)
    else zero in
  let monthlyData := monthlyData transactions in
  let incomeConsistencyScore :=
    clamp100 (incomeConsistencyRaw transactions) in
  let spendingVolatilityScore :=
    clamp100 (sub (ofZ 100) (spendingVolatilityRaw transactions)) in
  let emergencySavingsBuffer :=
    if gt averageMonthlyExpenses zero
    then div savings averageMonthlyExpenses
    else zero in
  let recurringPatterns := detectRecurringPayments transactions in
  let billPaymentRegularity :=
    if (0 <? List.length recurringPatterns)%nat then ofZ 100 else ofZ 50 in
  let debtTransactions := filter isDebt transactions in
  let totalDebtObligations :=
    fold_left (fun sum t => add sum (amount t)) debtTransactions zero in
  let monthlyDebtObligations := div totalDebtObligations monthsDiff in
  let monthlyBreakdown :=
    map (breakdownOf monthlyData) (sortStrings (map fst monthlyData)) in
  mkAnalysis totalIncome totalExpenses savings
    averageMonthlyIncome averageMonthlyExpenses savingsPerMonth savingsRate
    (List.length transactions) (firstn 50 transactions)
    incomeConsistencyScore spendingVolatilityScore emergencySavingsBuffer
    billPaymentRegularity monthsDiff
    monthlyDebtObligations totalDebtObligations
    monthlyBreakdown
    (mkRange (minDate transactions) (maxDate transactions)
             (daysDiff transactions)).

Definition analyzeTransactions (data : list row) : AnalysisResult :=
  summarize (processRows data).

End Analysis.

(* ================================================================== *)
(** * [checkEligibility] *)

(** The running [score] with the two lists of texts. *)
Record tally : Type := mkTally {
  t_score : number;
  t_strengths : list message;
  t_warnings : list message
}.

Definition points (n : Z) (t : tally) : tally :=
  mkTally (add (t_score t) (ofZ n)) (t_strengths t) (t_warnings t).

Definition strength (m : message) (t : tally) : tally :=
  mkTally (t_score t) (t_strengths t ++ [m]) (t_warnings t).

Definition warning (m : message) (t : tally) : tally :=
  mkTally (t_score t) (t_strengths t) (t_warnings t ++ [m]).

Definition threshold : number := ofZ 10000.

Definition rule1 (a : AnalysisResult) (t : tally) : tally :=
  if gt (totalIncome a) (totalExpenses a) then
    let t1 := strength IncomeExceedsExpenses (points 30 t) in
    let ratio := mul (div (totalExpenses a) (totalIncome a)) (ofZ 100) in
    if lt ratio (ofZ 70) then strength LowExpenseRatio (points 5 t1)
    else if gt ratio (ofZ 90) then warning HighExpenseRatio t1
    else t1
  else warning ExpensesExceedIncome t.

Definition rule2 (a : AnalysisResult) (t : tally) : tally :=
  if gt (savingsPerMonth a) threshold then
    strength (SavingsExceedThreshold (savingsPerMonth a)) (points 25 t)
  else if gt (savingsPerMonth a) zero then
    warning (SavingsBelowThreshold (savingsPerMonth a)) (points 10 t)
  else warning NegativeMonthlySavings t.

Definition rule3 (a : AnalysisResult) (t : tally) : tally :=
  if ge (savingsRate a) (ofZ 20) then
    strength (HighSavingsRate (savingsRate a)) (points 15 t)
  else if ge (savingsRate a) (ofZ 10) then
    strength (ModerateSavingsRate (savingsRate a)) (points 10 t)
  else if gt (savingsRate a) zero then
    warning (LowSavingsRate (savingsRate a)) (points 5 t)
  else t.

Definition rule4 (a : AnalysisResult) (t : tally) : tally :=
  if ge (incomeConsistency a) (ofZ 80) then
    strength VeryConsistentIncome (points 10 t)
  else if ge (incomeConsistency a) (ofZ 60) then
    strength ModeratelyConsistentIncome (points 7 t)
  else if ge (incomeConsistency a) (ofZ 40) then
    warning IrregularIncome (points 4 t)
  else warning HighlyIrregularIncome t.

Definition rule5 (a : AnalysisResult) (t : tally) : tally :=
  if ge (spendingVolatility a) (ofZ 80) then
    strength StableSpending (points 10 t)
  else if ge (spendingVolatility a) (ofZ 60) then
    strength ModeratelyStableSpending (points 7 t)
  else warning HighSpendingVolatility t.

Definition rule6 (a : AnalysisResult) (t : tally) : tally :=
  if ge (emergencySavingsBuffer a) (ofZ 6) then
    strength (StrongEmergencyBuffer (emergencySavingsBuffer a)) (points 10 t)
  else if ge (emergencySavingsBuffer a) (ofZ 3) then
    strength (AdequateEmergencyBuffer (emergencySavingsBuffer a)) (points 7 t)
  else if gt (emergencySavingsBuffer a) zero then
    warning (LowEmergencyBuffer (emergencySavingsBuffer a)) (points 4 t)
  else warning NoEmergencyBuffer t.

Definition rule7 (a : AnalysisResult) (t : tally) : tally :=
  if ge (billPaymentRegularity a) (ofZ 80) then
    strength RegularBillPayments (points 5 t)
  else points 2 t.

Definition rule8 (a : AnalysisResult) (t : tally) : tally :=
  if ge (accountAgeMonths a) (ofZ 12) then
    strength (LongAccountHistory (Math_round (accountAgeMonths a)))
             (points 5 t)
  else if ge (accountAgeMonths a) (ofZ 6) then
    strength (ModerateAccountHistory (Math_round (accountAgeMonths a)))
             (points 3 t)
  else warning (ShortAccountHistory (Math_round (accountAgeMonths a))) t.

Definition rule9 (a : AnalysisResult) (t : tally) : tally :=
  if gt (monthlyDebtObligations a) zero then
    let debtRatio :=
      mul (div (monthlyDebtObligations a) (averageMonthlyIncome a))
          (ofZ 100) in
    if gt debtRatio (ofZ 40) then warning (HighDebt debtRatio) (points (-15) t)
    else if gt debtRatio (ofZ 20) then
      warning (ModerateDebt debtRatio) (points (-8) t)
    else strength (LowDebt debtRatio) t
  else t.

(** The state after the nine rules. *)
Definition runRules (a : AnalysisResult) : tally :=
  rule9 a (rule8 a (rule7 a (rule6 a (rule5 a (rule4 a (rule3 a
    (rule2 a (rule1 a (mkTally zero [] []))))))))).

(** [score] after the final adjustment. *)
Definition finalScore (a : AnalysisResult) : number :=
  Math_max zero (Math_min (ofZ 100) (t_score (runRules a))).

(** [recommendedAmount], the local constant. *)
Definition recommendedAmount (a : AnalysisResult) : number :=
  let baseAmount := mul (savingsPerMonth a) (ofZ 3) in
  let scoreMultiplier := div (finalScore a) (ofZ 100) in
  Math_min (mul baseAmount scoreMultiplier) (ofZ 100000).

Definition riskOf (score : number) : risk :=
  if lt score (ofZ 40) then risk_high
  else if lt score (ofZ 60) then risk_medium
  else if lt score (ofZ 80) then risk_low
  else risk_very_low.

Definition checkEligibility (analysis : AnalysisResult) : EligibilityResult :=
  let t := runRules analysis in
  let score := finalScore analysis in
  let eligible :=
    ge score (ofZ 60)
    && gt (savingsPerMonth analysis) threshold
    && gt (totalIncome analysis) (totalExpenses analysis)
    && gt (savingsRate analysis) (ofZ 5) in
  let recommendedAmount := recommendedAmount analysis in
  let maxLoanAmount := Math_max recommendedAmount zero in
  mkEligibility eligible (Math_round score) (riskOf score)
    (if eligible then t_strengths t
     else match t_warnings t with
          | [] => [InsufficientCriteria]
          | ws => ws
          end)
    (t_strengths t) (t_warnings t)
    (if eligible then Math_round recommendedAmount else zero)
    (Math_round maxLoanAmount)
    (mkMetrics (savingsRate analysis) (incomeConsistency analysis)
       (spendingVolatility analysis) (emergencySavingsBuffer analysis)
       (billPaymentRegularity analysis) (accountAgeMonths analysis)
       (monthlyDebtObligations analysis)).

(* ================================================================== *)
(** * A run time for the examples

    Dates of the shape [YYYY-MM-DD] read as midnight UTC, every other
    string an invalid date; the calendar of UTC; a clock that stands still;
    the integer square root. *)

Module Iso.

(** Days from 1970-01-01 to the civil date [y]-[m]-[d]. *)
Definition daysFromCivil (y m d : Z) : Z :=
  let y' := if m <=? 2 then y - 1 else y in
  let era := y' / 400 in
  let yoe := y' - era * 400 in
  let mp := if 2 <? m then m - 3 else m + 9 in
  let doy := (153 * mp + 2) / 5 + d - 1 in
  let doe := yoe * 365 + yoe / 4 - yoe / 100 + doy in
  era * 146097 + doe - 719468.

(** The civil year and month (1 to 12) of a day number. *)
Definition civilFromDays (days : Z) : Z * Z :=
  let z := days + 719468 in
  let era := z / 146097 in
  let doe := z - era * 146097 in
  let yoe := (doe - doe / 1460 + doe / 36524 - doe / 146096) / 365 in
  let doy := doe - (365 * yoe + yoe / 4 - yoe / 100) in
  let mp := (5 * doy + 2) / 153 in
  let m := if mp <? 10 then mp + 3 else mp - 9 in
  let y := yoe + era * 400 in
  (if m <=? 2 then y + 1 else y, m).

Definition msPerDay : Z := 86400000.

Definition allDigits (s : string) : bool :=
  (String.length s =? Pdf.countDigits s)%nat.

Definition field (s : string) : Z := numOf (fst (spanDigits s)).

Definition parse (s : string) : option Z :=
  let y := substring 0 4 s in
  let m := substring 5 2 s in
  let d := substring 8 2 s in
  if (String.length s =? 10)%nat
     && String.eqb (substring 4 1 s) "-"
     && String.eqb (substring 7 1 s) "-"
     && allDigits y && allDigits m && allDigits d
     && (1 <=? field m) && (field m <=? 12)
     && (1 <=? field d) && (field d <=? 31)
  then Some (daysFromCivil (field y) (field m) (field d) * msPerDay)
  else None.

Definition host : Host :=
  mkHost parse
    (daysFromCivil 2026 1 1 * msPerDay)
    (daysFromCivil 2026 1 1 * msPerDay)
    (fun t => fst (civilFromDays (t / msPerDay)))
    (fun t => snd (civilFromDays (t / msPerDay)) - 1)
    (fun q => Z.sqrt (Qfloor q) # 1).

End Iso.

(* ================================================================== *)
(** * Derived notions used by the statements *)

(** The type that [rowStep] gives to the transaction of [r]. *)
Definition kindOf (r : row) : kind :=
  match declaredType r with
  | Some k => k
  | None =>
      if isExpense r then expense
      else if isIncome r || gt (resolveAmount r) zero then income
      else if lt (resolveAmount r) zero then expense
      else income
  end.

(** The transaction that [rowStep] pushes for [r]. *)
Definition classify (r : row) : transaction := pushed r (kindOf r).

(** No amount can be resolved for [r]: every amount column that has a value
    parses to zero or not at all, and the scan of the fields finds no
    plausible value. *)
Definition unresolved (r : row) : bool :=
  eqb (amountFromColumns amountColumns r zero) zero &&
  match scanFields r with
  | Some _ => false
  | None => true
  end.

Definition ofKind (k : kind) (txs : list transaction) : list transaction :=
  filter (fun t => kind_eqb (type t) k) txs.

Definition amounts (txs : list transaction) : list number := map amount txs.

(** A rational number, neither an infinity nor [NaN]. *)
Definition finite (x : number) : bool :=
  match x with
  | Fin _ => true
  | _ => false
  end.

(** A finite number is kept in lowest terms. *)
Definition canon (x : number) : Prop :=
  match x with
  | Fin q => Qred q = q
  | _ => True
  end.

Definition finiteBreakdown (b : breakdown) : bool :=
  finite (m_income b) && finite (m_expenses b) && finite (m_savings b).

(** Every number of the analysis result is finite. *)
Definition finiteAnalysis (a : AnalysisResult) : bool :=
  finite (totalIncome a) && finite (totalExpenses a) && finite (savings a)
  && finite (averageMonthlyIncome a) && finite (averageMonthlyExpenses a)
  && finite (savingsPerMonth a) && finite (savingsRate a)
  && finite (incomeConsistency a) && finite (spendingVolatility a)
  && finite (emergencySavingsBuffer a) && finite (billPaymentRegularity a)
  && finite (accountAgeMonths a) && finite (monthlyDebtObligations a)
  && finite (totalDebtObligations a)
  && forallb finiteBreakdown (monthlyBreakdown a)
  && finite (r_days (dateRange a)).

Definition finiteEligibility (e : EligibilityResult) : bool :=
  finite (score e) && finite (recommendedLoanAmount e)
  && finite (maxLoanAmount e).

(** The plausibility test of the first loop of [parsePDF]. *)
Definition pdfPlausible (v : number) : bool :=
  negb (isNaN v) && gt (Math_abs v) zero && lt (Math_abs v) (ofZ 10000000).

(** The value of the rightmost amount token of a line. *)
Definition lastAmount (line : string) : number :=
  parseFloat (Str.stripCommas (last (matchAmounts line) "")).


(* ================================================================== *)
(** * Notions used by the proofs *)

(** A number that an amount can be: in lowest terms and not [NaN]. *)
Definition proper (x : number) : Prop := canon x /\ isNaN x = false.

(** The running score is the integer [n], between [lo] and [hi]. *)
Definition scoreIn (lo hi : Z) (t : tally) : Prop :=
  exists n, t_score t = ofZ n /\ lo <= n <= hi.

(** [x > 0] *)
Definition positive (x : number) : Prop := gt x zero = true.

(** A finite number that is at least 0. *)
Definition nonneg (x : number) : Prop :=
  exists q, x = Fin q /\ (0 <= q)%Q.

(** A finite number that can divide: it is not zero. *)
Definition divisor (x : number) : Prop :=
  finite x = true /\ truthy x = true.

(** An absolute value: in lowest terms and at least 0, [+Infinity]
    included. *)
Definition magnitude (x : number) : Prop := canon x /\ ge x zero = true.

(** The order of [sort] on strings. *)
Definition sle (a b : string) : Prop := String.leb a b = true.

(** The count kept at [key] in [patterns], 0 when the key is missing. *)
Fixpoint countAt (key : string) (patterns : list (string * pattern)) : nat :=
  match patterns with
  | [] => 0
  | (k, p) :: rest => if String.eqb k key then p_count p else countAt key rest
  end.

(** The transactions whose pattern key is [key]. *)
Definition withKey (key : string) (txs : list transaction)
  : list transaction :=
  filter (fun t => String.eqb (patternKey t) key) txs.

(** The object [patterns] when the loop of [detectRecurringPayments] ends. *)
Definition allPatterns (txs : list transaction) : list (string * pattern) :=
  fold_left (fun ps t => notePattern (patternKey t) t ps) txs [].

Section MonthsOf.

Context {host : Host}.

(** The month of a transaction, when its date is valid. *)
Definition keyOf (t : transaction) : option string :=
  option_map monthKey (Date_parse (date t)).

(** The transaction [t] falls in the month [k]. *)
Definition inKey (k : string) (t : transaction) : bool :=
  match keyOf t with
  | Some k' => String.eqb k' k
  | None => false
  end.

(** The transactions of the month [k]. *)
Definition inMonth (k : string) (txs : list transaction)
  : list transaction :=
  filter (inKey k) txs.

End MonthsOf.

(* ================================================================== *)
(** * Statements, rows and lines used as examples *)

Definition statementC2 : list row :=
  [ [("date", "2024-01-05"); ("amount", "30000.5"); ("type", "credit")];
    [("date", "2024-01-10"); ("amount", "10000"); ("type", "debit")] ].

Definition rowC3 : row :=
  [("date", "2024-01-05"); ("description", "Statement period");
   ("amount", "")].

Definition rowC6 : row :=
  [("date", "2024-02-01"); ("narration", "ATM"); ("amount", "-2,500.75")].

Definition rowC7 : row :=
  [("date", "2024-03-09"); ("description", "Credit card payment");
   ("amount", "4500")].



(** Two payments with the same description and the same rounded amount, at
    two dates. *)
Definition statementRecurring : list row :=
  [ [("date", "2024-01-03"); ("description", "Rent"); ("amount", "-15000.4")];
    [("date", "2024-02-03"); ("description", "RENT"); ("amount", "-15000")] ].

Definition statementC4 : list row :=
  [ [("date", "2024-01-05"); ("amount", "50000"); ("type", "credit")];
    [("date", "2024-01-10"); ("amount", "12000"); ("type", "debit")] ].


(** A statement of 51 rows. *)
Definition statementC10 : list row := repeat rowC7 51.

Definition analysisC2 : AnalysisResult :=
  analyzeTransactions (host := Iso.host) statementC2.


(** The texts already pushed on [strengths] stay, in front. *)
Definition keepsStrengths (t t' : tally) : Prop :=
  exists l, t_strengths t' = (t_strengths t ++ l)%list.

Section ValidDates.

Context {host : Host}.

(** The date of the transaction is a valid one. *)
Definition validDated (t : transaction) : bool :=
  match keyOf t with
  | Some _ => true
  | None => false
  end.

End ValidDates.

(** The entry [(k, p)] of [patterns] was made from a transaction of [txs]
    whose key is [k]. *)
Definition madeFrom (txs : list transaction) (e : string * pattern) : Prop :=
  exists t, In t txs /\ patternKey t = fst e /\
            p_description (snd e) = description t /\
            p_amount (snd e) = amount t.

(** A character that a token of the amount pattern can hold. *)
Definition amountChar (c : ascii) : bool :=
  Pdf.isSign c || Pdf.isDigitOrComma c || Ascii.eqb c ".".

(** Every character of [s] passes the test [p]. *)
Fixpoint allChars (p : ascii -> bool) (s : string) : bool :=
  match s with
  | EmptyString => true
  | String c s' => p c && allChars p s'
  end.

(** The object that the last step of [parsePDF] returns for a transaction,
    the amount rendered by [render]. *)
Definition pdfRow (render : number -> string) (t : pdfTransaction) : row :=
  [("date", pdf_date t); ("description", pdf_description t);
   ("amount", render (pdf_amount t)); ("type", pdf_type t)].

Definition statementText : string := "03/02/2024 Grocery store -1250".

(* ================================================================== *)
(** * Image text: [parseImage] *)

(** What a parser gives: the rows, or the message of the error thrown. *)
Inductive outcome (A : Type) : Type :=
| Parsed (value : A)
| Failed (message : string).

Arguments Parsed {A} value.
Arguments Failed {A} message.

Module Ocr.
Import Str.

(** State of the scanner for the amount pattern of [parseImage] (one or
    more digits or commas, an optional point, digits; no sign). *)
Inductive unsignedState : Type :=
| UIdle
| UInt (acc : list ascii)
| UFrac (acc : list ascii).

Definition startUnsigned (c : ascii) : unsignedState :=
  if Pdf.isDigitOrComma c then UInt [c] else UIdle.

(** The matches of the pattern in [s], left to right, together with the
    characters of [s] outside every match. *)
Fixpoint scanUnsigned (st : unsignedState) (s : string)
  : list string * string :=
  match s with
  | EmptyString =>
      match st with
      | UIdle => ([], EmptyString)
      | UInt acc | UFrac acc => ([Pdf.revString acc], EmptyString)
      end
  | String c s' =>
      match st with
      | UIdle =>
          let (ms, out) := scanUnsigned (startUnsigned c) s' in
          (ms, match startUnsigned c with UIdle => String c out | _ => out end)
      | UInt acc =>
          if Pdf.isDigitOrComma c then scanUnsigned (UInt (c :: acc)) s'
          else if Ascii.eqb c "." then scanUnsigned (UFrac (c :: acc)) s'
          else
            let (ms, out) := scanUnsigned (startUnsigned c) s' in
            (Pdf.revString acc :: ms,
             match startUnsigned c with UIdle => String c out | _ => out end)
      | UFrac acc =>
          if isDigit c then scanUnsigned (UFrac (c :: acc)) s'
          else
            let (ms, out) := scanUnsigned (startUnsigned c) s' in
            (Pdf.revString acc :: ms,
             match startUnsigned c with UIdle => String c out | _ => out end)
      end
  end.

(** [line.match(amountPattern)] *)
Definition matchAmounts (line : string) : list string :=
  fst (scanUnsigned UIdle line).

(** [line.replace(amountPattern, '')] *)
Definition removeAmounts (line : string) : string :=
  snd (scanUnsigned UIdle line).

(** One or two digits at the head of [s]: the number of digits taken. *)
Definition dayAt (s : string) : option nat :=
  let n := Pdf.countDigits s in
  if (1 <=? n)%nat then Some (Nat.min n 2) else None.

(** The length of the match of the date pattern of [parseImage] (one or
    two digits, a slash or a dash, one or two digits) at the head of
    [s]. *)
Definition matchDateAt (s : string) : option nat :=
  Pdf.shortFieldThen dayAt s.

(** [line.match(datePattern)]: the text of the leftmost match. *)
Fixpoint findDate (s : string) : option string :=
  match matchDateAt s with
  | Some n => Some (substring 0 n s)
  | None =>
      match s with
      | EmptyString => None
      | String _ s' => findDate s'
      end
  end.

(** [line.replace(datePattern, '')] *)
Fixpoint removeDate (s : string) : string :=
  match matchDateAt s with
  | Some n => drop n s
  | None =>
      match s with
      | EmptyString => EmptyString
      | String c s' => String c (removeDate s')
      end
  end.

(** What the loop over the first ten lines finds. *)
Record header : Type := mkHeader {
  headerIndex : option nat;
  hasDebitColumn : bool;
  hasCreditColumn : bool
}.

Fixpoint findHeader (i : nat) (lines : list string) (h : header) : header :=
  match lines with
  | [] => h
  | l :: rest =>
      let line := toLowerCase l in
      if includes line "debit" && includes line "credit"
      then mkHeader (Some i) true true
      else if includes line "debit"
      then findHeader (S i) rest
             (mkHeader (headerIndex h) true (hasCreditColumn h))
      else if includes line "credit"
      then findHeader (S i) rest
             (mkHeader (headerIndex h) (hasDebitColumn h) true)
      else findHeader (S i) rest h
  end.

Definition headerOf (lines : list string) : header :=
  findHeader 0 (firstn 10 lines) (mkHeader None false false).

(** The objects pushed on [transactions] by [parseImage]; the amount is
    kept as a number, its rendering by [toString] is left to the caller. *)
Record imgTransaction : Type := mkImgTransaction {
  img_date : string;
  img_description : string;
  img_amount : number;
  img_type : string
}.

Definition isHeaderLike (line : string) : bool :=
  includes (toLowerCase line) "date" &&
  (includes (toLowerCase line) "description" ||
   includes (toLowerCase line) "debit" ||
   includes (toLowerCase line) "credit").

(** [amounts.map(...).filter(amt => !isNaN(amt) && amt > 0)] *)
Definition cleanAmountsOf (amounts : list string) : list number :=
  filter (fun amt => negb (isNaN amt) && gt amt zero)
         (map (fun amt => parseFloat (stripCommas amt)) amounts).

(** [cleanAmounts[i] || 0] *)
Definition at_ (cleanAmounts : list number) (i : nat) : number :=
  Num.orElse (nth i cleanAmounts zero) zero.

(** [debitAmount] and [creditAmount] of a line. *)
Definition debitAndCredit (h : header) (description : string)
    (cleanAmounts : list number) : number * number :=
  let descLower := toLowerCase description in
  let n := List.length cleanAmounts in
  if hasDebitColumn h && hasCreditColumn h && (2 <=? n)%nat then
    if (3 <=? n)%nat then
      (at_ cleanAmounts (n - 3), at_ cleanAmounts (n - 2))
    else if (n =? 2)%nat then
      if includesAny descLower ["purchase"; "check"; "withdrawal"; "charge"]
      then (nth 0 cleanAmounts zero, zero)
      else if includesAny descLower ["credit"; "deposit"; "interest"]
      then (zero, nth 0 cleanAmounts zero)
      else (nth 0 cleanAmounts zero, zero)
    else (zero, zero)
  else
    let amount := nth 0 cleanAmounts zero in
    if includesAny descLower
         ["purchase"; "check"; "withdrawal"; "charge"; "debit"; "payment"]
    then (amount, zero)
    else if includesAny descLower
              ["credit"; "deposit"; "interest"; "salary"; "income"]
    then (zero, amount)
    else (amount, zero).

(** The body of the main loop of [parseImage] for one element of
    [lines]: the transactions pushed, the debit before the credit. *)
Definition mainPassLine (h : header) (raw : string) : list imgTransaction :=
  let line := trim raw in
  if isHeaderLike line then [] else
  match findDate line with
  | None => []
  | Some date =>
      if (String.length line <? 10)%nat then [] else
      match matchAmounts line with
      | [] => []
      | a0 :: rest =>
          let amounts := a0 :: rest in
          match cleanAmountsOf amounts with
          | [] => []
          | c0 :: crest =>
              let cleanAmounts := c0 :: crest in
              let description := Pdf.describe line (Some date) amounts in
              let (debitAmount, creditAmount) :=
                debitAndCredit h description cleanAmounts in
              (if gt debitAmount zero
               then [mkImgTransaction (orElse date "N/A")
                       (orElse description "Transaction")
                       debitAmount "debit"]
               else []) ++
              (if gt creditAmount zero
               then [mkImgTransaction (orElse date "N/A")
                       (orElse description "Transaction")
                       creditAmount "credit"]
               else [])
          end
      end
  end.

(** The body of the second loop of [parseImage]. *)
Definition fallbackLine (raw : string) : option imgTransaction :=
  let line := trim raw in
  match findDate line with
  | None => None
  | Some date =>
      match matchAmounts line with
      | [] => None
      | a0 :: _ =>
          let amount := parseFloat (stripCommas a0) in
          if isNaN amount || le amount zero then None else
          let descLower := toLowerCase line in
          let isCredit :=
            includesAny descLower
              ["credit"; "deposit"; "interest"; "salary"] in
          Some (mkImgTransaction date
                  (orElse (trim (removeAmounts (removeDate line)))
                          "Transaction")
                  amount (if isCredit then "credit" else "debit"))
      end
  end.

Definition noTextMessage : string :=
  "Failed to parse image: No text could be extracted from the image. Please ensure the image is clear and contains readable text.".

(** [parseImage] from the recognised text on. *)
Definition parseImage (text : string) : outcome (list imgTransaction) :=
  if (String.length (trim text) =? 0)%nat then Failed noTextMessage else
  let lines :=
    filter (fun line => (0 <? String.length (trim line))%nat)
           (Pdf.splitLines text) in
  let h := headerOf lines in
  let start := match headerIndex h with Some i => S i | None => O end in
  match flat_map (mainPassLine h) (skipn start lines) with
  | [] => Parsed (Pdf.collect fallbackLine lines)
  | ts => Parsed ts
  end.

End Ocr.

(** The row that [parseImage] returns for a transaction, the amount
    rendered by [render]. *)
Definition imgRow (render : number -> string) (t : Ocr.imgTransaction)
  : row :=
  [("date", Ocr.img_date t); ("description", Ocr.img_description t);
   ("amount", render (Ocr.img_amount t)); ("type", Ocr.img_type t)].

Definition imageText : string :=
  "10/02 Grocery purchase 45.00 1200.00".

(* ================================================================== *)
(** * [parseCSV], [parseExcel] and the route [/api/upload] *)

(** [Object.values(row).some(val => val && String(val).trim().length > 0)] *)
Definition hasData (r : row) : bool :=
  existsb (fun kv => Str.nonEmpty (snd kv) &&
                     (0 <? String.length (Str.trim (snd kv)))%nat) r.

(** [parseCSV] from the rows that the reader emits on. *)
Definition parseCSV (data : list row) : outcome (list row) :=
  match filter hasData data with
  | [] => Failed "CSV file appears to be empty or has no valid data rows"
  | results => Parsed results
  end.

(** [parseExcel] from the sheets of the workbook on, each sheet given by
    its rows. *)
Definition parseExcel (sheets : list (list row)) : outcome (list row) :=
  match sheets with
  | [] => Failed "Excel file has no sheets"
  | data :: _ =>
      match filter hasData data with
      | [] =>
          Failed "Excel file appears to be empty or has no valid data rows"
      | filteredData => Parsed filteredData
      end
  end.

(** [multer]'s [fileFilter], on the extension of the file in lower
    case. *)
Definition allowedTypes : list string :=
  [".csv"; ".xlsx"; ".xls"; ".pdf"; ".jpg"; ".jpeg"; ".png"; ".gif";
   ".bmp"; ".webp"].

Definition fileFilter (ext : string) : bool :=
  existsb (String.eqb ext) allowedTypes.

(** An uploaded file: its extension in lower case and what the library
    of each format reads in it, or the message of the error it throws. *)
Record statementFile : Type := mkStatementFile {
  f_ext : string;
  f_csv : outcome (list row);
  f_sheets : outcome (list (list row));
  f_pdf : outcome string;
  f_ocr : outcome string
}.

Inductive response : Type :=
| BadRequest (error : string)
| Analysed (analysis : AnalysisResult).

Definition andThen {A B : Type} (o : outcome A) (f : A -> outcome B)
  : outcome B :=
  match o with
  | Parsed x => f x
  | Failed m => Failed m
  end.

Definition emptyFileMessage : string :=
  "File is empty or could not be parsed. Please ensure the file contains transaction data with columns like: date, amount, description, or transaction_type.".

Section Upload.

Context {host : Host}.

(** [Number.prototype.toString], which renders the amounts of the rows
    of a document or an image. *)
Variable render : number -> string.

(** The parser chosen by the extension; [None] for an extension that no
    branch takes. *)
Definition parseByExtension (f : statementFile)
  : option (outcome (list row)) :=
  let fileExt := f_ext f in
  if String.eqb fileExt ".csv" then Some (andThen (f_csv f) parseCSV)
  else if String.eqb fileExt ".xlsx" || String.eqb fileExt ".xls"
  then Some (andThen (f_sheets f) parseExcel)
  else if String.eqb fileExt ".pdf"
  then Some (match f_pdf f with
             | Parsed text => Parsed (map (pdfRow render) (parsePDF text))
             | Failed m => Failed ("Failed to parse PDF: " ++ m)
             end)
  else if existsb (String.eqb fileExt)
            [".jpg"; ".jpeg"; ".png"; ".gif"; ".bmp"; ".webp"]
  then Some (match f_ocr f with
             | Parsed text =>
                 match Ocr.parseImage text with
                 | Parsed ts => Parsed (map (imgRow render) ts)
                 | Failed m => Failed m
                 end
             | Failed m => Failed ("Failed to parse image: " ++ m)
             end)
  else None.

(** The handler of [/api/upload] after the file has been stored. *)
Definition uploadRoute (file : option statementFile) : response :=
  match file with
  | None => BadRequest "No file uploaded. Please select a file."
  | Some f =>
      match parseByExtension f with
      | None => BadRequest ("Unsupported file format: " ++ f_ext f)
      | Some (Failed parseError) =>
          BadRequest (if Str.nonEmpty parseError
                      then "Failed to parse file: " ++ parseError
                      else emptyFileMessage)
      | Some (Parsed []) => BadRequest emptyFileMessage
      | Some (Parsed data) => Analysed (analyzeTransactions data)
      end
  end.

End Upload.

(* ================================================================== *)
(** * Accounts: [/api/register] and [/api/login] *)

(** An element of [users]; [u_password] is the hash. *)
Record user : Type := mkUser {
  u_id : string;
  u_email : string;
  u_password : string;
  u_name : string
}.

(** The body of a request to register or to log in.  The fields are
    strings; a field that is missing is the empty string, which is falsy
    as [undefined] is. *)
Record credentials : Type := mkCredentials {
  c_email : string;
  c_password : string;
  c_name : string
}.

Inductive authResponse : Type :=
| Refused (status : Z) (error : string)
| Granted (status : Z) (message token id email name : string).

(** [users.find(u => u.email === email)] *)
Definition findUser (email : string) (users : list user) : option user :=
  find (fun u => String.eqb (u_email u) email) users.

(** The handler of [/api/register] up to [await bcrypt.hash]: the refusal
    it answers with, or [None] when the request goes on to the hash.
    [users] is the array as it is when the request arrives. *)
Definition registerCheck (body : credentials) (users : list user)
  : option authResponse :=
  let email := c_email body in
  let password := c_password body in
  if negb (Str.nonEmpty email) || negb (Str.nonEmpty password)
  then Some (Refused 400 "Email and password are required")
  else
    match findUser email users with
    | Some _ => Some (Refused 400 "User already exists")
    | None => None
    end.

(** The handler of [/api/register] after the [await]: the answer and the
    new value of [users].  [users] is the array as it is when the hash is
    ready, after whatever other requests were served in the meantime;
    [now] is the value of [Date.now()], [hashedPassword] what
    [bcrypt.hash] returned and [token] what [jwt.sign] returns. *)
Definition registerCommit (now : Z) (hashedPassword token : string)
    (body : credentials) (users : list user) : authResponse * list user :=
  let email := c_email body in
  let user := mkUser (decimal now) email hashedPassword
                (Str.orElse (c_name body) email) in
  (Granted 201 "User registered successfully" token
     (u_id user) (u_email user) (u_name user),
   (users ++ [user])%list).

(** A request to register that is served with no other request between
    its check and its push. *)
Definition register (now : Z) (hashedPassword token : string)
    (body : credentials) (users : list user) : authResponse * list user :=
  match registerCheck body users with
  | Some refusal => (refusal, users)
  | None => registerCommit now hashedPassword token body users
  end.

(** The handler of [/api/login]; [compare] is [bcrypt.compare]. *)
Definition login (compare : string -> string -> bool) (token : string)
    (body : credentials) (users : list user) : authResponse :=
  let email := c_email body in
  let password := c_password body in
  if negb (Str.nonEmpty email) || negb (Str.nonEmpty password)
  then Refused 400 "Email and password are required"
  else
    match findUser email users with
    | None => Refused 401 "Invalid credentials"
    | Some user =>
        if compare password (u_password user)
        then Granted 200 "Login successful" token
               (u_id user) (u_email user) (u_name user)
        else Refused 401 "Invalid credentials"
    end.

(* ================================================================== *)
(** * [authenticateToken] and the applications *)

(** [s.split(' ')] *)
Fixpoint splitSpaces (s : string) : list string :=
  match s with
  | EmptyString => [EmptyString]
  | String c s' =>
      if Ascii.eqb c " "
      then EmptyString :: splitSpaces s'
      else match splitSpaces s' with
           | l :: ls => String c l :: ls
           | [] => [String c EmptyString]
           end
  end.

(** [authHeader && authHeader.split(' ')[1]]; [None] stands for
    [undefined]. *)
Definition tokenOf (authHeader : option string) : option string :=
  match authHeader with
  | None => None
  | Some h => if Str.nonEmpty h then nth_error (splitSpaces h) 1 else Some h
  end.

(** What [jwt.sign] is given and [jwt.verify] gives back. *)
Record payload : Type := mkPayload {
  tok_id : string;
  tok_email : string
}.

Inductive authResult : Type :=
| Unauthorized (status : Z) (error : string)
| Authenticated (user : payload).

(** The middleware [authenticateToken]; [verify] is [jwt.verify] with the
    secret of the server, [None] when it reports an error. *)
Definition authenticateToken (verify : string -> option payload)
    (authHeader : option string) : authResult :=
  match tokenOf authHeader with
  | None => Unauthorized 401 "Access token required"
  | Some token =>
      if Str.nonEmpty token then
        match verify token with
        | None => Unauthorized 403 "Invalid or expired token"
        | Some user => Authenticated user
        end
      else Unauthorized 401 "Access token required"
  end.

(** An element of [applications].  [app_createdAt] is the time value of
    the date, which the source keeps in ISO format and reads back with
    [new Date]. *)
Record application : Type := mkApplication {
  app_id : string;
  app_userId : string;
  app_personalInfo : list (string * string);
  app_analysis : AnalysisResult;
  app_eligibility : EligibilityResult;
  app_status : string;
  app_createdAt : Z
}.

Inductive eligibilityResponse : Type :=
| AnalysisRequired
| Checked (eligibility : EligibilityResult) (applicationId : string).

(** The handler of [/api/check-eligibility] for the authenticated [user]:
    the answer and the new value of [applications].  [now] is the value
    of [Date.now()] and [created] the time value of [new Date()]. *)
Definition checkEligibilityRoute (now created : Z) (user : payload)
    (analysis : option AnalysisResult)
    (personalInfo : option (list (string * string)))
    (applications : list application)
  : eligibilityResponse * list application :=
  match analysis with
  | None => (AnalysisRequired, applications)
  | Some analysis =>
      let eligibility := checkEligibility analysis in
      let application :=
        mkApplication (decimal now) (tok_id user)
          (match personalInfo with Some i => i | None => [] end)
          analysis eligibility
          (if eligible eligibility then "approved" else "rejected")
          created in
      (Checked eligibility (app_id application),
       (applications ++ [application])%list)
  end.

(** An element of the answer of [/api/history]. *)
Record historyEntry : Type := mkHistoryEntry {
  h_id : string;
  h_status : string;
  h_score : number;
  h_eligible : bool;
  h_recommendedLoanAmount : number;
  h_createdAt : Z
}.

Definition entryOf (app : application) : historyEntry :=
  mkHistoryEntry (app_id app) (app_status app)
    (score (app_eligibility app)) (eligible (app_eligibility app))
    (recommendedLoanAmount (app_eligibility app)) (app_createdAt app).

(** [sort] with the comparator [new Date(b.createdAt) - new
    Date(a.createdAt)]: the later application first, applications of one
    date in their order ([sort] is stable). *)
Fixpoint insertByDate (a : application) (l : list application)
  : list application :=
  match l with
  | [] => [a]
  | b :: l' =>
      if app_createdAt b <=? app_createdAt a then a :: l
      else b :: insertByDate a l'
  end.

Definition sortByDate (l : list application) : list application :=
  fold_right insertByDate [] l.

Definition ownedBy (user : payload) (app : application) : bool :=
  String.eqb (app_userId app) (tok_id user).

(** The handler of [/api/history]. *)
Definition history (user : payload) (applications : list application)
  : list historyEntry :=
  map entryOf (sortByDate (filter (ownedBy user) applications)).

(** The handler of [/api/history/:id]; [None] is the answer 404. *)
Definition historyById (id : string) (user : payload)
    (applications : list application) : option application :=
  find (fun app => String.eqb (app_id app) id && ownedBy user app)
       applications.

(** A string without a blank. *)
Definition noBlank (s : string) : bool :=
  allChars (fun c => negb (Ascii.eqb c " ")) s.

(* ================================================================== *)
(** * The loop over the rows in binary64 *)

(** The loop of [analyzeTransactions] once more, with the numbers of
    JavaScript: the amounts are binary64 floating-point numbers and the
    totals are accumulated with the rounding of each addition.  What the
    loop does with strings is shared with the embedding above. *)
Module F64.

Definition float : Set := PrimFloat.float.

Definition zero : float := PrimFloat.zero.

(** The binary64 number nearest to the rational [q], ties to even: an
    infinity beyond the range, a zero or a subnormal number below it. *)
Definition ofQ (q : Q) : float :=
  match Qnum q with
  | Z0 => zero
  | Zpos n =>
      FloatOps.SF2Prim
        (SpecFloat.SFdiv FloatOps.prec FloatOps.emax
           (SpecFloat.S754_finite false n 0)
           (SpecFloat.S754_finite false (Qden q) 0))
  | Zneg n =>
      FloatOps.SF2Prim
        (SpecFloat.SFdiv FloatOps.prec FloatOps.emax
           (SpecFloat.S754_finite true n 0)
           (SpecFloat.S754_finite false (Qden q) 0))
  end.

Definition ofNumber (x : number) : float :=
  match x with
  | Fin q => ofQ q
  | PInf => PrimFloat.infinity
  | NInf => PrimFloat.neg_infinity
  | NaN => PrimFloat.nan
  end.

(** [parseFloat(s)]: the decimal literal read by [Parse.parseFloat],
    rounded to binary64.  The sign of a zero is not kept; nothing in the
    loop tells the two zeros apart. *)
Definition parseFloat (s : string) : float := ofNumber (Parse.parseFloat s).

Definition parseAmount (v : string) : float :=
  parseFloat (Str.stripCommas v).

Definition isNaN (x : float) : bool := negb (PrimFloat.eqb x x).

(** [x > y], [x < y], [x === y], [x + y] and [Math.abs(x)] *)
Definition gt (x y : float) : bool := PrimFloat.ltb y x.
Definition lt (x y : float) : bool := PrimFloat.ltb x y.
Definition eqb (x y : float) : bool := PrimFloat.eqb x y.
Definition add (x y : float) : float := PrimFloat.add x y.
Definition sub (x y : float) : float := PrimFloat.sub x y.
Definition Math_abs (x : float) : float := PrimFloat.abs x.

(** Truthiness of a number: zero and [NaN] are falsy. *)
Definition truthy (x : float) : bool := negb (isNaN x) && negb (eqb x zero).

(** [x || d] *)
Definition orElse (x d : float) : float := if truthy x then x else d.

(** [x !== 0] *)
Definition nonZero (x : float) : bool := negb (eqb x zero).

Fixpoint amountFromColumns (cols : list string) (r : row) (amount : float)
  : float :=
  match cols with
  | [] => amount
  | col :: cols' =>
      match columnValue col r with
      | Some v =>
          let amount' := orElse (parseAmount v) zero in
          if nonZero amount' then amount'
          else amountFromColumns cols' r amount'
      | None => amountFromColumns cols' r amount
      end
  end.

Definition plausible (value : float) : bool :=
  negb (isNaN value) && gt (Math_abs value) zero
  && lt (Math_abs value) (ofQ (100000000 # 1)).

Fixpoint scanFields (r : row) : option float :=
  match r with
  | [] => None
  | (key, v) :: r' =>
      if isSkippedKey key then scanFields r'
      else
        let value := parseAmount v in
        if plausible value then Some value else scanFields r'
  end.

Definition resolveAmount (r : row) : float :=
  let amount := amountFromColumns amountColumns r zero in
  if eqb amount zero then
    match scanFields r with
    | Some value => value
    | None => amount
    end
  else amount.

Record transaction : Type := mkTransaction {
  amount : float;
  type : kind;
  description : string;
  date : string
}.

Record accum : Type := mkAccum {
  acc_income : float;
  acc_expenses : float;
  acc_transactions : list transaction
}.

Definition pushed (r : row) (k : kind) : transaction :=
  mkTransaction (Math_abs (resolveAmount r)) k
    (Str.orElse (resolveType r)
       (Str.orElse (resolveDescription r) "Transaction"))
    (Str.orElse (resolveDate r) "N/A").

Definition addIncome (by_ : float) (t : transaction) (a : accum) : accum :=
  mkAccum (add (acc_income a) by_) (acc_expenses a)
          (acc_transactions a ++ [t]).

Definition addExpense (by_ : float) (t : transaction) (a : accum) : accum :=
  mkAccum (acc_income a) (add (acc_expenses a) by_)
          (acc_transactions a ++ [t]).

(** The callback of [data.forEach]. *)
Definition rowStep (a : accum) (r : row) : accum :=
  let amount := resolveAmount r in
  match declaredType r with
  | Some income => addIncome (Math_abs amount) (pushed r income) a
  | Some expense => addExpense (Math_abs amount) (pushed r expense) a
  | None =>
      if isExpense r then
        addExpense (Math_abs amount) (pushed r expense) a
      else if isIncome r || gt amount zero then
        addIncome (Math_abs amount) (pushed r income) a
      else if lt amount zero then
        addExpense (Math_abs amount) (pushed r expense) a
      else
        addIncome amount (pushed r income) a
  end.

Definition processRows (data : list row) : accum :=
  fold_left rowStep data (mkAccum zero zero []).

(** [values.reduce((sum, val) => sum + val, 0)] *)
Definition sum (values : list float) : float :=
  fold_left add values zero.

End F64.

(** Three credits of 0.1, 0.2 and 0.3. *)
Definition statementTenths : list row :=
  [ [("date", "2024-01-05"); ("amount", "0.1"); ("type", "credit")];
    [("date", "2024-01-06"); ("amount", "0.2"); ("type", "credit")];
    [("date", "2024-01-07"); ("amount", "0.3"); ("type", "credit")] ].

(** Credits of 0.1 and 0.1, debits of 0.5 and 0.9. *)
Definition statementC5 : list row :=
  [ [("date", "2024-01-05"); ("amount", "0.1"); ("type", "credit")];
    [("date", "2024-01-06"); ("amount", "0.5"); ("type", "debit")];
    [("date", "2024-01-07"); ("amount", "0.1"); ("type", "credit")];
    [("date", "2024-01-08"); ("amount", "0.9"); ("type", "debit")] ].

(** What the loop leaves for [statementC5]. *)
Definition accumC5 : F64.accum := F64.processRows statementC5.

(** The host [h] at another time: the same dates, calendar and square
    root, the clock read as [c1] and then as [c2]. *)
Definition atClock (h : Host) (c1 c2 : Z) : Host :=
  mkHost (Date_parse (Host := h)) c1 c2
         (getFullYear (Host := h)) (getMonth (Host := h))
         (sqrtQ (Host := h)).

(** A statement without a date that can be read. *)
Definition statementUndated : list row :=
  [ [("date", "N/A"); ("amount", "100"); ("type", "credit")] ].


(* ================================================================== *)
(** * Numbers: comparison and arithmetic *)

#[local] Arguments Qred : simpl never.
#[local] Arguments Qplus : simpl never.
#[local] Arguments Qminus : simpl never.
#[local] Arguments Qmult : simpl never.
#[local] Arguments Qdiv : simpl never.
#[local] Arguments Qopp : simpl never.
#[local] Arguments Qabs : simpl never.
#[local] Arguments Qcompare : simpl never.
#[local] Arguments Qfloor : simpl never.
#[local] Arguments Qceiling : simpl never.

Lemma Qltb_true (a b : Q) : Qltb a b = true <-> (a < b)%Q.
Proof.
  unfold Qltb. rewrite Qlt_alt. destruct (a ?= b)%Q; split; congruence.
Qed.

Lemma Qleb_true (a b : Q) : Qleb a b = true <-> (a <= b)%Q.
Proof.
  unfold Qleb. rewrite Qle_alt. destruct (a ?= b)%Q; split; congruence.
Qed.

Lemma Qeqb_true (a b : Q) : Qeqb a b = true <-> (a == b)%Q.
Proof.
  unfold Qeqb. rewrite Qeq_alt. destruct (a ?= b)%Q; split; congruence.
Qed.

Lemma Qltb_false (a b : Q) : Qltb a b = false <-> (b <= a)%Q.
Proof.
  rewrite <- Bool.not_true_iff_false, Qltb_true. split.
  - apply Qnot_lt_le.
  - apply Qle_not_lt.
Qed.

Lemma Qeqb_false (a b : Q) : Qeqb a b = false <-> ~ (a == b)%Q.
Proof. rewrite <- Bool.not_true_iff_false, Qeqb_true. tauto. Qed.

Lemma canon_fin (q : Q) : canon (fin q).
Proof. simpl. apply Qred_complete, Qred_correct. Qed.

Lemma canon_ofZ (z : Z) : canon (ofZ z).
Proof.
  unfold canon, ofZ. apply Qred_identity. simpl. apply Z.gcd_1_r.
Qed.

Lemma fin_ext (a b : Q) : (a == b)%Q -> fin a = fin b.
Proof. intros H. unfold fin. f_equal. now apply Qred_complete. Qed.

Lemma fin_canon (q : Q) : Qred q = q -> fin q = Fin q.
Proof. intros H. unfold fin. now rewrite H. Qed.

Lemma canon_add (x y : number) : canon (add x y).
Proof. destruct x, y; try exact I; apply canon_fin. Qed.

Lemma canon_sub (x y : number) : canon (sub x y).
Proof. destruct x, y; try exact I; apply canon_fin. Qed.

Lemma canon_abs (x : number) : canon (Math_abs x).
Proof. destruct x; try exact I; apply canon_fin. Qed.

Lemma canon_neg (x : number) : canon (neg x).
Proof. destruct x; try exact I; apply canon_fin. Qed.

Lemma add_comm (x y : number) : add x y = add y x.
Proof.
  destruct x, y; simpl; try reflexivity. apply fin_ext. ring.
Qed.

Lemma add_assoc (x y z : number) : add x (add y z) = add (add x y) z.
Proof.
  destruct x, y, z; simpl; try reflexivity.
  apply fin_ext. rewrite !Qred_correct. ring.
Qed.

Lemma add_zero_r (x : number) : canon x -> add x zero = x.
Proof.
  destruct x; simpl; try reflexivity. intros H.
  rewrite <- H at 2. apply fin_ext. unfold zero. ring.
Qed.

Lemma add_zero_l (x : number) : canon x -> add zero x = x.
Proof. intros H. rewrite add_comm. now apply add_zero_r. Qed.

(* ================================================================== *)
(** * The amount of a row *)

Ltac break_match :=
  match goal with
  | |- context [match ?x with _ => _ end] => destruct x eqn:?
  end.

Lemma canon_unsignedLiteral (s : string) : canon (unsignedLiteral s).
Proof.
  unfold unsignedLiteral. repeat break_match; try exact I; apply canon_fin.
Qed.

Lemma canon_parseFloat (s : string) : canon (parseFloat s).
Proof.
  unfold parseFloat.
  repeat break_match; auto using canon_neg, canon_unsignedLiteral.
Qed.

Lemma proper_zero : proper zero.
Proof. split; [apply canon_ofZ | reflexivity]. Qed.

Lemma proper_orElse_zero (s : string) :
  proper (Num.orElse (parseAmount s) zero).
Proof.
  unfold Num.orElse, parseAmount.
  destruct (truthy _) eqn:E; [|apply proper_zero].
  split; [apply canon_parseFloat|].
  destruct (parseFloat _); simpl in *; congruence.
Qed.

Lemma proper_amountFromColumns (cols : list string) (r : row) (a : number) :
  proper a -> proper (amountFromColumns cols r a).
Proof.
  revert a. induction cols as [|col cols IH]; intros a Ha; simpl; auto.
  destruct (columnValue col r) as [v|]; auto.
  destruct (nonZero _); auto using proper_orElse_zero.
Qed.

Lemma scanFields_plausible (r : row) (v : number) :
  scanFields r = Some v -> plausible v = true /\ canon v.
Proof.
  induction r as [|[k s] r IH]; simpl; [discriminate|].
  destruct (isSkippedKey k); auto.
  destruct (plausible (parseAmount s)) eqn:E; auto.
  intros [= <-]. split; auto. apply canon_parseFloat.
Qed.

Lemma plausible_notNaN (v : number) : plausible v = true -> isNaN v = false.
Proof. destruct v; simpl; auto. Qed.

Lemma proper_resolveAmount (r : row) : proper (resolveAmount r).
Proof.
  unfold resolveAmount.
  pose proof (proper_amountFromColumns amountColumns r zero proper_zero) as H.
  destruct (eqb _ zero); auto.
  destruct (scanFields r) as [v|] eqn:E; auto.
  apply scanFields_plausible in E as [E1 E2].
  split; auto using plausible_notNaN.
Qed.

Lemma canon_Qzero (q : Q) : Qred q = q -> (q == 0)%Q -> q = 0%Q.
Proof.
  intros Hc Hz. rewrite <- Hc. apply (Qred_complete q 0) in Hz.
  rewrite Hz. reflexivity.
Qed.

(** When the loop reaches its last branch the amount is zero, so adding it
    is adding its absolute value. *)
Lemma neither_sign (x : number) :
  proper x -> gt x zero = false -> lt x zero = false -> x = zero.
Proof.
  intros [Hc Hn] Hg Hl. destruct x as [q| | |]; try discriminate.
  unfold gt, lt, zero, ofZ in *. simpl in Hg, Hl.
  apply Qltb_false in Hg, Hl.
  assert (Hz : (q == 0)%Q) by (apply Qle_antisym; assumption).
  unfold zero, ofZ. f_equal. now apply canon_Qzero.
Qed.

Lemma rowStep_spec (a : accum) (r : row) :
  rowStep a r =
  match kindOf r with
  | income => addIncome (Math_abs (resolveAmount r)) (classify r) a
  | expense => addExpense (Math_abs (resolveAmount r)) (classify r) a
  end.
Proof.
  unfold rowStep, classify, kindOf.
  destruct (declaredType r) as [[|]|]; try reflexivity.
  destruct (isExpense r); try reflexivity.
  destruct (isIncome r || gt (resolveAmount r) zero) eqn:E1; try reflexivity.
  destruct (lt (resolveAmount r) zero) eqn:E2; try reflexivity.
  apply orb_false_iff in E1 as [_ E1].
  rewrite (neither_sign _ (proper_resolveAmount r) E1 E2). reflexivity.
Qed.

Lemma transactions_fold (data : list row) (a : accum) :
  acc_transactions (fold_left rowStep data a) =
  (acc_transactions a ++ map classify data)%list.
Proof.
  revert a. induction data as [|r data IH]; intros a; simpl.
  - now rewrite app_nil_r.
  - rewrite IH, rowStep_spec.
    destruct (kindOf r); simpl; now rewrite <- app_assoc.
Qed.

Lemma classify_type (r : row) : type (classify r) = kindOf r.
Proof. reflexivity. Qed.

Lemma classify_amount (r : row) :
  amount (classify r) = Math_abs (resolveAmount r).
Proof. reflexivity. Qed.

Lemma income_fold (data : list row) (a : accum) :
  acc_income (fold_left rowStep data a) =
  fold_left add (amounts (ofKind income (map classify data))) (acc_income a).
Proof.
  revert a. induction data as [|r data IH]; intros a; simpl; auto.
  rewrite IH, rowStep_spec. unfold ofKind. simpl.
  destruct (kindOf r); reflexivity.
Qed.

Lemma expenses_fold (data : list row) (a : accum) :
  acc_expenses (fold_left rowStep data a) =
  fold_left add (amounts (ofKind expense (map classify data))) (acc_expenses a).
Proof.
  revert a. induction data as [|r data IH]; intros a; simpl; auto.
  rewrite IH, rowStep_spec. unfold ofKind. simpl.
  destruct (kindOf r); reflexivity.
Qed.

(** What the loop over [data] leaves in the three variables. *)
Lemma processRows_spec (data : list row) :
  processRows data =
  mkAccum (sum (amounts (ofKind income (map classify data))))
          (sum (amounts (ofKind expense (map classify data))))
          (map classify data).
Proof.
  unfold processRows, sum.
  pose proof (income_fold data (mkAccum zero zero [])) as Hi.
  pose proof (expenses_fold data (mkAccum zero zero [])) as He.
  pose proof (transactions_fold data (mkAccum zero zero [])) as Ht.
  simpl in Hi, He, Ht. rewrite <- Hi, <- He, <- Ht.
  now destruct (fold_left rowStep data _).
Qed.

(* ================================================================== *)
(** * Sums *)

Lemma canon_fold_add (l : list number) (a : number) :
  canon a -> canon (fold_left add l a).
Proof.
  revert a. induction l as [|x l IH]; intros a Ha; simpl; auto.
  apply IH, canon_add.
Qed.

Lemma canon_sum (l : list number) : canon (sum l).
Proof. apply canon_fold_add, canon_ofZ. Qed.

Lemma fold_add_sum (l : list number) (a : number) :
  canon a -> fold_left add l a = add a (sum l).
Proof.
  unfold sum. revert a. induction l as [|x l IH]; intros a Ha; cbn [fold_left].
  - symmetry. now apply add_zero_r.
  - rewrite (IH (add a x)), (IH (add zero x)) by apply canon_add.
    rewrite <- !add_assoc. f_equal.
    symmetry. apply add_zero_l, canon_add.
Qed.

Lemma sum_cons (x : number) (l : list number) :
  sum (x :: l) = add x (sum l).
Proof.
  unfold sum at 1. cbn [fold_left]. rewrite fold_add_sum by apply canon_add.
  rewrite <- add_assoc. apply add_zero_l, canon_add.
Qed.

Lemma sum_nil : sum [] = zero.
Proof. reflexivity. Qed.

Lemma sum_app (l1 l2 : list number) :
  sum (l1 ++ l2) = add (sum l1) (sum l2).
Proof.
  unfold sum at 1. rewrite fold_left_app.
  apply fold_add_sum, canon_sum.
Qed.

Lemma sum_perm (l1 l2 : list number) :
  Permutation l1 l2 -> sum l1 = sum l2.
Proof.
  induction 1 as [|x l1 l2 _ IH|x y l|l1 l2 l3 _ IH1 _ IH2].
  - reflexivity.
  - now rewrite !sum_cons, IH.
  - rewrite !sum_cons, !add_assoc. f_equal. apply add_comm.
  - congruence.
Qed.

(** The sum over a list is the sum over its income part plus the sum over
    its expense part. *)
Lemma sum_by_kind (txs : list transaction) :
  sum (amounts txs) =
  add (sum (amounts (ofKind income txs))) (sum (amounts (ofKind expense txs))).
Proof.
  induction txs as [|t txs IH]; [reflexivity|].
  unfold amounts, ofKind in *. simpl. rewrite sum_cons, IH.
  destruct (type t); simpl; rewrite sum_cons.
  - apply add_assoc.
  - rewrite !add_assoc. f_equal. apply add_comm.
Qed.

Lemma ofKind_partition (txs : list transaction) :
  Permutation txs (ofKind income txs ++ ofKind expense txs).
Proof.
  induction txs as [|t txs IH]; [constructor|].
  unfold ofKind in *. simpl. destruct (type t); simpl.
  - now constructor.
  - now apply Permutation_cons_app.
Qed.

(* ================================================================== *)
(** * Integers among the numbers *)

Lemma add_ofZ (n m : Z) : add (ofZ n) (ofZ m) = ofZ (n + m).
Proof.
  unfold add, ofZ. rewrite <- (fin_canon ((n + m) # 1)).
  - apply fin_ext. unfold Qeq, Qplus. simpl. ring.
  - apply (canon_ofZ (n + m)).
Qed.

Lemma lt_ofZ (n m : Z) : lt (ofZ n) (ofZ m) = (n <? m).
Proof.
  unfold lt, ofZ, Qltb, Qcompare, Z.ltb. simpl. now rewrite !Z.mul_1_r.
Qed.

Lemma le_ofZ (n m : Z) : le (ofZ n) (ofZ m) = (n <=? m).
Proof.
  unfold le, ofZ, Qleb, Qcompare, Z.leb. simpl. now rewrite !Z.mul_1_r.
Qed.

Lemma Math_min_ofZ (n m : Z) : Math_min (ofZ n) (ofZ m) = ofZ (Z.min n m).
Proof.
  unfold Math_min, ofZ. cbv iota.
  change (lt (Fin (m # 1)) (Fin (n # 1))) with (lt (ofZ m) (ofZ n)).
  rewrite lt_ofZ.
  destruct (m <? n) eqn:E; [apply Z.ltb_lt in E | apply Z.ltb_ge in E];
    f_equal; f_equal; lia.
Qed.

Lemma Math_max_ofZ (n m : Z) : Math_max (ofZ n) (ofZ m) = ofZ (Z.max n m).
Proof.
  unfold Math_max, ofZ. cbv iota.
  change (lt (Fin (n # 1)) (Fin (m # 1))) with (lt (ofZ n) (ofZ m)).
  rewrite lt_ofZ.
  destruct (n <? m) eqn:E; [apply Z.ltb_lt in E | apply Z.ltb_ge in E];
    f_equal; f_equal; lia.
Qed.

Lemma Math_round_ofZ (n : Z) : Math_round (ofZ n) = ofZ n.
Proof.
  unfold Math_round, ofZ. f_equal. f_equal.
  unfold Qfloor, Qplus. simpl.
  symmetry. apply (Z.div_unique _ _ _ 1); lia.
Qed.

(* ================================================================== *)
(** * The score is an integer between 0 and 100 *)

Ltac score_rule :=
  intros [n [Hn Hr]]; unfold scoreIn;
  repeat break_match;
  cbn [t_score points strength warning];
  rewrite ?Hn, ?add_ofZ; eexists; (split; [reflexivity | lia]).

Lemma rule1_score a t lo hi :
  scoreIn lo hi t -> scoreIn lo (hi + 35) (rule1 a t).
Proof. unfold rule1. score_rule. Qed.

Lemma rule2_score a t lo hi :
  scoreIn lo hi t -> scoreIn lo (hi + 25) (rule2 a t).
Proof. unfold rule2. score_rule. Qed.

Lemma rule3_score a t lo hi :
  scoreIn lo hi t -> scoreIn lo (hi + 15) (rule3 a t).
Proof. unfold rule3. score_rule. Qed.

Lemma rule4_score a t lo hi :
  scoreIn lo hi t -> scoreIn lo (hi + 10) (rule4 a t).
Proof. unfold rule4. score_rule. Qed.

Lemma rule5_score a t lo hi :
  scoreIn lo hi t -> scoreIn lo (hi + 10) (rule5 a t).
Proof. unfold rule5. score_rule. Qed.

Lemma rule6_score a t lo hi :
  scoreIn lo hi t -> scoreIn lo (hi + 10) (rule6 a t).
Proof. unfold rule6. score_rule. Qed.

Lemma rule7_score a t lo hi :
  scoreIn lo hi t -> scoreIn (lo + 2) (hi + 5) (rule7 a t).
Proof. unfold rule7. score_rule. Qed.

Lemma rule8_score a t lo hi :
  scoreIn lo hi t -> scoreIn lo (hi + 5) (rule8 a t).
Proof. unfold rule8. score_rule. Qed.

Lemma rule9_score a t lo hi :
  scoreIn lo hi t -> scoreIn (lo - 15) hi (rule9 a t).
Proof. unfold rule9. score_rule. Qed.

Lemma runRules_score (a : AnalysisResult) : scoreIn (-13) 115 (runRules a).
Proof.
  unfold runRules.
  apply (rule9_score a _ 2 115), (rule8_score a _ 2 110),
    (rule7_score a _ 0 105), (rule6_score a _ 0 95), (rule5_score a _ 0 85),
    (rule4_score a _ 0 75), (rule3_score a _ 0 60), (rule2_score a _ 0 35),
    (rule1_score a _ 0 0).
  exists 0. split; [reflexivity | lia].
Qed.

Lemma finalScore_integer (a : AnalysisResult) :
  exists n, finalScore a = ofZ n /\ 0 <= n <= 100.
Proof.
  destruct (runRules_score a) as [n [Hn Hr]].
  unfold finalScore. rewrite Hn, Math_min_ofZ.
  unfold zero. rewrite Math_max_ofZ. eexists. split; [reflexivity | lia].
Qed.

Lemma score_is_finalScore (a : AnalysisResult) :
  score (checkEligibility a) = finalScore a.
Proof.
  destruct (finalScore_integer a) as [n [Hn _]].
  unfold checkEligibility. cbn [score]. rewrite Hn. apply Math_round_ofZ.
Qed.

(** C1.  The [eligible] flag of the result is true exactly when the four
    conditions hold together: the final score, which is the clamped score
    that the result reports, is at least 60; [savingsPerMonth] is above
    10,000; [totalIncome] is above [totalExpenses]; [savingsRate] is above
    5.  As soon as one of them fails the flag is false. *)
Theorem C1_eligible_iff_four_conditions (a : AnalysisResult) :
  let e := checkEligibility a in
  (eligible e = true <->
     ge (score e) (ofZ 60) = true /\
     gt (savingsPerMonth a) (ofZ 10000) = true /\
     gt (totalIncome a) (totalExpenses a) = true /\
     gt (savingsRate a) (ofZ 5) = true) /\
  (eligible e = false <->
     ge (score e) (ofZ 60) = false \/
     gt (savingsPerMonth a) (ofZ 10000) = false \/
     gt (totalIncome a) (totalExpenses a) = false \/
     gt (savingsRate a) (ofZ 5) = false) /\
  score e = Math_max zero (Math_min (ofZ 100) (t_score (runRules a))).
Proof.
  cbv zeta. rewrite score_is_finalScore.
  unfold checkEligibility. cbn [eligible]. unfold threshold.
  rewrite !andb_true_iff, !andb_false_iff. tauto.
Qed.

(* ================================================================== *)
(** * The loan amounts *)

Lemma positive_Fin (q : Q) : positive (Fin q) <-> (0 < q)%Q.
Proof. unfold positive, gt, lt, zero, ofZ. apply Qltb_true. Qed.

Lemma positive_fin (q : Q) : positive (fin q) <-> (0 < q)%Q.
Proof. unfold fin. rewrite positive_Fin, Qred_correct. tauto. Qed.

Lemma infOfSign_pos (q : Q) : (0 < q)%Q -> infOfSign q = PInf.
Proof.
  intros H. unfold infOfSign.
  apply (proj1 (Qgt_alt q 0)) in H. now rewrite H.
Qed.

Lemma positive_mul (x y : number) :
  positive x -> positive y -> positive (mul x y).
Proof.
  destruct x as [a| | |], y as [b| | |]; try discriminate;
    rewrite ?positive_Fin; intros Hx Hy; cbn [mul];
    rewrite ?infOfSign_pos by assumption; try reflexivity.
  apply positive_fin. now apply Qmult_lt_0_compat.
Qed.

Lemma positive_above (x : number) (n : Z) :
  0 <= n -> gt x (ofZ n) = true -> positive x.
Proof.
  intros Hn. destruct x as [a| | |]; try discriminate; [|reflexivity].
  unfold gt, lt, ofZ. rewrite positive_Fin, Qltb_true. intros H.
  apply Qle_lt_trans with (y := (n # 1)%Q); auto.
  unfold Qle. simpl. lia.
Qed.

Lemma positive_ofZ (n : Z) : 0 < n -> positive (ofZ n).
Proof.
  intros H. unfold ofZ. apply positive_Fin. unfold Qlt. simpl. lia.
Qed.

Lemma positive_percent (n : Z) : 0 < n -> positive (div (ofZ n) (ofZ 100)).
Proof.
  intros H. unfold div, ofZ.
  replace (Qeqb (100 # 1) 0) with false by reflexivity.
  apply positive_fin. apply Qlt_shift_div_l; [reflexivity|].
  unfold Qlt. simpl. lia.
Qed.

Lemma positive_Math_min (x : number) (n : Z) :
  0 < n -> positive x -> positive (Math_min x (ofZ n)).
Proof.
  intros Hn Hx. unfold Math_min.
  destruct x; try discriminate; unfold ofZ; cbv iota; fold (ofZ n);
    destruct (lt (ofZ n) _); auto using positive_ofZ.
Qed.

Lemma Math_max_positive (x : number) : positive x -> Math_max x zero = x.
Proof.
  unfold positive, gt. intros H. unfold Math_max.
  destruct x as [a| | |]; try discriminate; try reflexivity.
  unfold zero, ofZ in *. cbv iota.
  replace (lt (Fin a) (Fin (0 # 1))) with false; [reflexivity|].
  symmetry. unfold lt in *. apply Qltb_true in H. apply Qltb_false.
  now apply Qlt_le_weak.
Qed.

(** The amount that [checkEligibility] recommends is positive whenever the
    applicant is eligible, so that flooring it at zero changes nothing. *)
Lemma eligible_recommended_positive (a : AnalysisResult) :
  eligible (checkEligibility a) = true -> positive (recommendedAmount a).
Proof.
  unfold checkEligibility. cbn [eligible]. rewrite !andb_true_iff.
  intros [[[Hs Hm] _] _].
  destruct (finalScore_integer a) as [n [Hn Hr]].
  unfold recommendedAmount. rewrite Hn in *.
  unfold ge in Hs. rewrite le_ofZ in Hs. apply Z.leb_le in Hs.
  apply positive_Math_min; [lia|].
  apply positive_mul.
  - apply positive_mul.
    + apply (positive_above _ 10000); [lia | exact Hm].
    + apply positive_ofZ. lia.
  - apply positive_percent. lia.
Qed.

(** C2, as amended.  The scorer computes one value,
    min(savingsPerMonth * 3 * (score / 100), 100,000).  The recommended loan
    amount of the result is that value floored at 0 and rounded to the
    nearest integer when the applicant is eligible, and 0 otherwise; the
    maximum loan amount is that value floored at 0 and rounded to the
    nearest integer, whatever the eligibility. *)
Theorem C2_loan_amounts_rounded (a : AnalysisResult) :
  let e := checkEligibility a in
  let value :=
    Math_min (mul (mul (savingsPerMonth a) (ofZ 3))
                  (div (score e) (ofZ 100)))
             (ofZ 100000) in
  recommendedLoanAmount e =
    (if eligible e then Math_round (Math_max value zero) else zero) /\
  maxLoanAmount e = Math_round (Math_max value zero).
Proof.
  cbv zeta. rewrite score_is_finalScore.
  fold (recommendedAmount a). split; [|reflexivity].
  destruct (eligible (checkEligibility a)) eqn:E.
  - rewrite Math_max_positive by now apply eligible_recommended_positive.
    unfold checkEligibility in *. cbn [recommendedLoanAmount eligible] in *.
    now rewrite E.
  - unfold checkEligibility in *. cbn [recommendedLoanAmount eligible] in *.
    now rewrite E.
Qed.

(** C2, the claim as it is written fails: for a statement with one credit of
    30,000.5 and one debit of 10,000 the applicant is eligible and the value
    computed is 60,001.5, but the result reports 60,002 both as recommended
    and as maximum loan amount. *)
Lemma C2_counterexample :
  eligible (checkEligibility analysisC2) = true /\
  Math_max
    (Math_min (mul (mul (savingsPerMonth analysisC2) (ofZ 3))
                   (div (score (checkEligibility analysisC2)) (ofZ 100)))
              (ofZ 100000))
    zero = Fin (120003 # 2) /\
  recommendedLoanAmount (checkEligibility analysisC2) = ofZ 60002 /\
  maxLoanAmount (checkEligibility analysisC2) = ofZ 60002 /\
  recommendedLoanAmount (checkEligibility analysisC2) <> Fin (120003 # 2) /\
  maxLoanAmount (checkEligibility analysisC2) <> Fin (120003 # 2).
Proof.
  vm_compute. repeat split; discriminate.
Qed.

(* ================================================================== *)
(** * Rows that carry no amount *)

Lemma unresolved_amount (r : row) :
  unresolved r = true -> resolveAmount r = zero.
Proof.
  unfold unresolved, resolveAmount. rewrite andb_true_iff. intros [H1 H2].
  rewrite H1. destruct (scanFields r); [discriminate|].
  pose proof (proper_amountFromColumns amountColumns r zero proper_zero)
    as [Hc Hn].
  destruct (amountFromColumns amountColumns r zero) as [q| | |];
    try discriminate.
  unfold eqb, zero, ofZ in H1. apply Qeqb_true in H1.
  unfold zero, ofZ. f_equal. now apply canon_Qzero.
Qed.

Section Properties.

Context {host : Host}.

Lemma analyze_totalIncome (data : list row) :
  totalIncome (analyzeTransactions data) =
  sum (amounts (ofKind income (map classify data))).
Proof.
  unfold analyzeTransactions. now rewrite processRows_spec.
Qed.

Lemma analyze_totalExpenses (data : list row) :
  totalExpenses (analyzeTransactions data) =
  sum (amounts (ofKind expense (map classify data))).
Proof.
  unfold analyzeTransactions. now rewrite processRows_spec.
Qed.

Lemma analyze_transactions (data : list row) :
  transactions (analyzeTransactions data) = firstn 50 (map classify data).
Proof.
  unfold analyzeTransactions. now rewrite processRows_spec.
Qed.

Lemma analyze_transactionCount (data : list row) :
  transactionCount (analyzeTransactions data) = List.length data.
Proof.
  unfold analyzeTransactions. rewrite processRows_spec.
  cbn. apply length_map.
Qed.

Lemma amounts_ofKind_zero (k : kind) (t : transaction)
    (l1 l2 : list transaction) :
  amount t = zero ->
  sum (amounts (ofKind k (l1 ++ t :: l2))) =
  sum (amounts (ofKind k (l1 ++ l2))).
Proof.
  intros Ht. unfold ofKind, amounts.
  rewrite !filter_app, !map_app, !sum_app. f_equal.
  cbn [filter]. destruct (kind_eqb (type t) k); [|reflexivity].
  cbn [map]. rewrite sum_cons, Ht. apply add_zero_l, canon_sum.
Qed.

(** C3, as amended.  A row for which no amount can be resolved is not
    dropped: the loop pushes one transaction for it, whose amount is 0 and
    whose type is the declared one, or expense when an expense word is
    found, or else income.
    The row adds nothing to [totalIncome] and [totalExpenses], and it
    adds one to the transaction count. *)
Theorem C3_unresolved_row_gives_zero_transaction
    (before after : list row) (r : row) :
  unresolved r = true ->
  let with_r := analyzeTransactions (before ++ r :: after) in
  let without := analyzeTransactions (before ++ after) in
  acc_transactions (processRows (before ++ r :: after)) =
    (acc_transactions (processRows before) ++ classify r ::
       map classify after)%list /\
  amount (classify r) = zero /\
  type (classify r) =
    match declaredType r with
    | Some k => k
    | None => if isExpense r then expense else income
    end /\
  totalIncome with_r = totalIncome without /\
  totalExpenses with_r = totalExpenses without /\
  transactionCount with_r = S (transactionCount without).
Proof.
  intros Hr. cbv zeta.
  assert (Hz : amount (classify r) = zero).
  { rewrite classify_amount, (unresolved_amount r Hr). reflexivity. }
  assert (Hk : type (classify r) =
               match declaredType r with
               | Some k => k
               | None => if isExpense r then expense else income
               end).
  { rewrite classify_type. unfold kindOf.
    rewrite (unresolved_amount r Hr).
    destruct (declaredType r); [reflexivity|].
    destruct (isExpense r); [reflexivity|].
    now destruct (isIncome r). }
  rewrite !analyze_totalIncome, !analyze_totalExpenses,
    !analyze_transactionCount, !processRows_spec.
  cbn [acc_transactions]. rewrite !map_app. cbn [map].
  rewrite !amounts_ofKind_zero by assumption.
  rewrite !length_app. cbn [List.length].
  repeat split; auto; lia.
Qed.

End Properties.

(** C3, the claim as it is written fails: the row below has an empty amount
    column and no other field that reads as a number, so no amount can be
    resolved, and yet the analysis of the statement made of this one row
    counts one transaction, of amount 0 and of type income. *)
Lemma C3_counterexample :
  unresolved rowC3 = true /\
  acc_transactions (processRows [rowC3]) =
    [mkTransaction zero income "statement period" "2024-01-05"] /\
  transactionCount (analyzeTransactions (host := Iso.host) [rowC3]) = 1%nat /\
  acc_transactions (processRows [rowC3]) <> acc_transactions (processRows []).
Proof.
  vm_compute. repeat split; discriminate.
Qed.

Lemma C3_witness :
  unresolved rowC3 = true /\
  transactionCount
    (analyzeTransactions (host := Iso.host) ([] ++ rowC3 :: [])) =
  S (transactionCount (analyzeTransactions (host := Iso.host) ([] ++ []))).
Proof.
  split; [reflexivity|].
  apply (C3_unresolved_row_gives_zero_transaction (host := Iso.host)
           [] [] rowC3).
  reflexivity.
Defined.

(* ================================================================== *)
(** * Totals, signs and types *)

Lemma abs_nonneg (x : number) :
  isNaN x = false -> ge (Math_abs x) zero = true.
Proof.
  destruct x as [q| | |]; try discriminate; try reflexivity.
  intros _. unfold ge, le, Math_abs, fin, zero, ofZ.
  apply Qleb_true. rewrite Qred_correct. apply Qabs_nonneg.
Qed.

Lemma declaredType_none (r : row) :
  lookup "type" r <> Some "credit" -> lookup "type" r <> Some "debit" ->
  declaredType r = None.
Proof.
  unfold declaredType. intros Hc Hd.
  destruct (lookup "type" r) as [ty|]; [|reflexivity].
  destruct (String.eqb ty "credit") eqn:E1.
  { apply String.eqb_eq in E1. subst. now contradiction Hc. }
  destruct (String.eqb ty "debit") eqn:E2.
  { apply String.eqb_eq in E2. subst. now contradiction Hd. }
  reflexivity.
Qed.

Lemma in_firstn {A : Type} (n : nat) (l : list A) (x : A) :
  In x (firstn n l) -> In x l.
Proof.
  intros H. rewrite <- (firstn_skipn n l). apply in_or_app. now left.
Qed.

Lemma fold_amounts (txs : list transaction) (a : number) :
  fold_left (fun sum t => add sum (amount t)) txs a =
  fold_left add (amounts txs) a.
Proof.
  revert a. induction txs as [|t txs IH]; intros a; simpl; auto.
Qed.

Section Totals.

Context {host : Host}.

(** C5, as amended.  After the analysis, [totalIncome] is the sum of the
    amounts of the income transactions and [totalExpenses] the sum of the
    amounts of the expense transactions, each accumulated from 0 in the
    order of the rows; the two kinds split the produced transactions, so
    every transaction adds its amount to exactly one of the two totals;
    and [savings] is [totalIncome - totalExpenses]. *)
Theorem C5_totals_are_sums_by_kind (data : list row) :
  let a := analyzeTransactions data in
  let txs := acc_transactions (processRows data) in
  totalIncome a = sum (amounts (ofKind income txs)) /\
  totalExpenses a = sum (amounts (ofKind expense txs)) /\
  Permutation txs (ofKind income txs ++ ofKind expense txs) /\
  (forall t, In t txs ->
     (In t (ofKind income txs) /\ ~ In t (ofKind expense txs)) \/
     (In t (ofKind expense txs) /\ ~ In t (ofKind income txs))) /\
  savings a = sub (totalIncome a) (totalExpenses a).
Proof.
  cbv zeta.
  assert (Hs : savings (analyzeTransactions data) =
               sub (totalIncome (analyzeTransactions data))
                   (totalExpenses (analyzeTransactions data)))
    by reflexivity.
  rewrite Hs, analyze_totalIncome, analyze_totalExpenses, processRows_spec.
  cbn [acc_transactions].
  repeat split; auto using ofKind_partition.
  intros t Ht. unfold ofKind. rewrite !filter_In.
  destruct (type t) eqn:E; [left | right]; simpl;
    (split; [auto | intros [_ H]; discriminate]).
Qed.

(** C6.  Every transaction that the loop over the rows produces, and so
    every transaction of the result, has an amount that is at least 0: it
    is the absolute value of the amount resolved for its row, whatever
    the sign of that amount, and its type is the one chosen for the
    row. *)
Theorem C6_amount_never_negative (data : list row) (t : transaction) :
  In t (acc_transactions (processRows data)) \/
  In t (transactions (analyzeTransactions data)) ->
  ge (amount t) zero = true /\
  exists r, In r data /\ t = classify r /\
            amount t = Math_abs (resolveAmount r) /\ type t = kindOf r.
Proof.
  rewrite analyze_transactions, processRows_spec. cbn [acc_transactions].
  intros H.
  assert (Hin : In t (map classify data)).
  { destruct H as [H|H]; [exact H | now apply in_firstn in H]. }
  apply in_map_iff in Hin as [r [<- Hr]]. split.
  - rewrite classify_amount. apply abs_nonneg, proper_resolveAmount.
  - exists r. auto.
Qed.

(** C10.  The list [transactions] of the result holds the first 50
    transactions in the order of their rows, all of them when there are
    at most 50; [transactionCount] counts every transaction, and the
    totals, the monthly data, the recurring patterns and the debt
    obligations are computed from the whole list. *)
Theorem C10_first_fifty_reported (data : list row) :
  let a := analyzeTransactions data in
  let txs := map classify data in
  acc_transactions (processRows data) = txs /\
  transactions a = firstn 50 txs /\
  (50 < List.length txs -> List.length (transactions a) = 50)%nat /\
  (List.length txs <= 50 -> transactions a = txs)%nat /\
  transactionCount a = List.length txs /\
  totalIncome a = sum (amounts (ofKind income txs)) /\
  totalExpenses a = sum (amounts (ofKind expense txs)) /\
  totalDebtObligations a = sum (amounts (filter isDebt txs)) /\
  monthlyDebtObligations a =
    div (sum (amounts (filter isDebt txs))) (monthsDiff txs) /\
  billPaymentRegularity a =
    (if (0 <? List.length (detectRecurringPayments txs))%nat
     then ofZ 100 else ofZ 50) /\
  monthlyBreakdown a =
    map (breakdownOf (monthlyData txs))
        (sortStrings (map fst (monthlyData txs))) /\
  dateRange a = mkRange (minDate txs) (maxDate txs) (daysDiff txs).
Proof.
  cbv zeta.
  rewrite analyze_totalIncome, analyze_totalExpenses,
    analyze_transactions, analyze_transactionCount.
  unfold analyzeTransactions. rewrite processRows_spec.
  cbn [acc_transactions summarize totalDebtObligations
         monthlyDebtObligations billPaymentRegularity monthlyBreakdown
         dateRange acc_income acc_expenses].
  rewrite fold_amounts, length_map.
  repeat split; auto.
  - intros H. apply firstn_length_le. rewrite length_map. lia.
  - intros H. apply firstn_all2. now rewrite length_map.
Qed.

End Totals.

(** C5, the claim as it is written fails in the arithmetic of the code.
    On two credits of 0.1 and debits of 0.5 and 0.9 the loop leaves a
    total income of 0.2 and total expenses of 1.4; their sum is
    1.5999999999999999, while the amounts of the four transactions add
    up to 1.6, in the order of the rows and in the opposite order. *)
Lemma C5_counterexample :
  F64.acc_income accumC5 = F64.parseFloat "0.2" /\
  F64.acc_expenses accumC5 = F64.parseFloat "1.4" /\
  F64.add (F64.acc_income accumC5) (F64.acc_expenses accumC5)
    = F64.parseFloat "1.5999999999999999" /\
  F64.sum (map F64.amount (F64.acc_transactions accumC5))
    = F64.parseFloat "1.6" /\
  F64.sum (rev (map F64.amount (F64.acc_transactions accumC5)))
    = F64.parseFloat "1.6" /\
  F64.eqb (F64.add (F64.acc_income accumC5) (F64.acc_expenses accumC5))
          (F64.sum (map F64.amount (F64.acc_transactions accumC5)))
    = false.
Proof. vm_compute. repeat split. Qed.

(** C7.  When the [type] field of the row is neither [credit] nor [debit]
    and the lower-cased text of the row holds a word of the expense family
    and a word of the income family, the transaction is an expense: the
    expense family is looked at first. *)
Theorem C7_expense_words_win (a : accum) (r : row) :
  lookup "type" r <> Some "credit" ->
  lookup "type" r <> Some "debit" ->
  includesAny (descLowerOf r) expenseWords = true ->
  includesAny (descLowerOf r) incomeWords = true ->
  type (classify r) = expense /\
  rowStep a r = addExpense (Math_abs (resolveAmount r)) (classify r) a.
Proof.
  intros Hc Hd He _.
  assert (Hk : kindOf r = expense).
  { unfold kindOf. rewrite (declaredType_none r Hc Hd).
    unfold isExpense. now rewrite He. }
  split; [exact Hk|]. rewrite rowStep_spec. now rewrite Hk.
Qed.

Lemma C6_witness :
  In (classify rowC6) (acc_transactions (processRows [rowC6])) /\
  amount (classify rowC6) = Fin (10003 # 4) /\
  ge (amount (classify rowC6)) zero = true.
Proof.
  split; [left; reflexivity|]. split; [reflexivity|].
  apply (C6_amount_never_negative (host := Iso.host) [rowC6]).
  left. left. reflexivity.
Defined.

Lemma C7_witness :
  includesAny (descLowerOf rowC7) expenseWords = true /\
  includesAny (descLowerOf rowC7) incomeWords = true /\
  type (classify rowC7) = expense.
Proof.
  split; [reflexivity|]. split; [reflexivity|].
  apply (C7_expense_words_win (mkAccum zero zero []) rowC7);
    solve [discriminate | reflexivity].
Defined.

Lemma C10_witness :
  (50 < List.length (map classify statementC10))%nat /\
  List.length
    (transactions (analyzeTransactions (host := Iso.host) statementC10))
    = 50%nat /\
  transactionCount (analyzeTransactions (host := Iso.host) statementC10)
    = 51%nat.
Proof.
  split; [vm_compute; lia|]. split.
  - apply (C10_first_fifty_reported (host := Iso.host) statementC10).
    vm_compute. lia.
  - reflexivity.
Defined.

(* ================================================================== *)
(** * Document text *)

Lemma in_collect {A B : Type} (f : A -> option B) (l : list A) (y : B) :
  In y (collect f l) <-> exists x, In x l /\ f x = Some y.
Proof.
  induction l as [|x l IH]; simpl.
  - split; [tauto | intros [? [[] _]]].
  - destruct (f x) as [z|] eqn:E; simpl; rewrite IH; split.
    + intros [<-|[x' [H1 H2]]]; eauto.
    + intros [x' [[<-|H1] H2]]; [left; congruence | eauto].
    + intros [x' [H1 H2]]; eauto.
    + intros [x' [[<-|H1] H2]]; [congruence | eauto].
Qed.

Lemma firstPassLine_some (raw : string) (t : pdfTransaction) :
  firstPassLine raw = Some t ->
  isHeaderLine (Str.trim raw) = false /\
  matchAmounts (Str.trim raw) <> [] /\
  pdf_amount t = lastAmount (Str.trim raw) /\
  pdfPlausible (lastAmount (Str.trim raw)) = true /\
  describe (Str.trim raw) (findDate (Str.trim raw))
           (matchAmounts (Str.trim raw)) <> "".
Proof.
  unfold firstPassLine, lastAmount, pdfPlausible.
  destruct (isHeaderLine (Str.trim raw)); [discriminate|].
  destruct (matchAmounts (Str.trim raw)) as [|a0 rest]; [discriminate|].
  set (v := parseFloat _).
  destruct (negb (isNaN v) && gt (Math_abs v) zero
            && lt (Math_abs v) (ofZ 10000000)); [|discriminate].
  set (d := describe _ _ _).
  destruct d eqn:Ed; [discriminate|]. simpl.
  intros [= <-]. repeat split; discriminate.
Qed.


Lemma secondPassLine_some (line : string) (t : pdfTransaction) :
  secondPassLine line = Some t ->
  matchAmounts line <> [] /\ pdf_amount t = lastAmount line.
Proof.
  unfold secondPassLine, lastAmount.
  destruct (findDate line); [|discriminate].
  destruct (matchAmounts line) as [|a0 rest]; [discriminate|].
  set (v := parseFloat _).
  destruct (negb (isNaN v) && gt (Math_abs v) zero); [|discriminate].
  intros [= <-]. split; [discriminate | reflexivity].
Qed.

Lemma append_assoc (a b c : string) : (a ++ b) ++ c = a ++ (b ++ c).
Proof. induction a as [|x a IH]; simpl; [reflexivity | now rewrite IH]. Qed.

Lemma append_empty_r (a : string) : a ++ "" = a.
Proof. induction a as [|x a IH]; simpl; [reflexivity | now rewrite IH]. Qed.

Lemma string_of_list_ascii_app (l1 l2 : list ascii) :
  string_of_list_ascii (l1 ++ l2) =
  string_of_list_ascii l1 ++ string_of_list_ascii l2.
Proof. induction l1 as [|x l1 IH]; simpl; [reflexivity | now rewrite IH]. Qed.

Lemma revString_cons (c : ascii) (acc : list ascii) :
  revString (c :: acc) = revString acc ++ String c "".
Proof. unfold revString. simpl. apply string_of_list_ascii_app. Qed.

















(* ================================================================== *)
(** * Finite numbers *)

Ltac fin_cases :=
  repeat match goal with
         | x : number |- _ => destruct x; try discriminate
         end.

Lemma finite_add x y :
  finite x = true -> finite y = true -> finite (add x y) = true.
Proof. fin_cases. reflexivity. Qed.

Lemma finite_sub x y :
  finite x = true -> finite y = true -> finite (sub x y) = true.
Proof. fin_cases. reflexivity. Qed.

Lemma finite_mul x y :
  finite x = true -> finite y = true -> finite (mul x y) = true.
Proof. fin_cases. reflexivity. Qed.

Lemma finite_div x y :
  finite x = true -> divisor y -> finite (div x y) = true.
Proof.
  intros Hx [Hy Ht]. fin_cases. unfold truthy in Ht. unfold div.
  apply negb_true_iff in Ht. now rewrite Ht.
Qed.

Lemma finite_Math_min x y :
  finite x = true -> finite y = true -> finite (Math_min x y) = true.
Proof. fin_cases. intros _ _. unfold Math_min. now destruct (lt _ _). Qed.

Lemma finite_Math_max x y :
  finite x = true -> finite y = true -> finite (Math_max x y) = true.
Proof. fin_cases. intros _ _. unfold Math_max. now destruct (lt _ _). Qed.

Lemma finite_Math_round x : finite x = true -> finite (Math_round x) = true.
Proof. fin_cases. reflexivity. Qed.

Lemma finite_Math_ceil x : finite x = true -> finite (Math_ceil x) = true.
Proof. fin_cases. reflexivity. Qed.

Lemma finite_square x : finite x = true -> finite (square x) = true.
Proof. fin_cases. reflexivity. Qed.

Lemma finite_ofZ z : finite (ofZ z) = true.
Proof. reflexivity. Qed.

Lemma finite_clamp100 x : finite x = true -> finite (clamp100 x) = true.
Proof.
  intros H. unfold clamp100.
  apply finite_Math_max, finite_Math_min; auto.
Qed.

Lemma nonneg_finite x : nonneg x -> finite x = true.
Proof. intros [q [-> _]]. reflexivity. Qed.

Lemma divisor_ofZ z : z <> 0 -> divisor (ofZ z).
Proof.
  intros Hz. split; [reflexivity|]. unfold truthy, ofZ.
  apply negb_true_iff, Qeqb_false. unfold Qeq. simpl. lia.
Qed.

Lemma divisor_positive x : finite x = true -> gt x zero = true -> divisor x.
Proof.
  intros Hf Hg. split; auto. fin_cases.
  unfold gt, lt, zero, ofZ in Hg. apply Qltb_true in Hg.
  unfold truthy. apply negb_true_iff, Qeqb_false.
  intros E. rewrite E in Hg. now apply Qlt_irrefl in Hg.
Qed.

Lemma divisor_orElse x : finite x = true -> divisor (Num.orElse x (ofZ 1)).
Proof.
  intros Hf. unfold Num.orElse. destruct (truthy x) eqn:E.
  - now split.
  - now apply divisor_ofZ.
Qed.

(** [Math.max(1, x)] is a divisor. *)
Lemma divisor_Math_max_one x :
  finite x = true -> divisor (Math_max (ofZ 1) x).
Proof.
  intros Hf. fin_cases. unfold Math_max, ofZ. cbv iota.
  destruct (lt (Fin (1 # 1)) (Fin q)) eqn:E.
  - apply divisor_positive; [reflexivity|].
    unfold gt, lt, zero, ofZ in *. apply Qltb_true in E. apply Qltb_true.
    apply Qlt_trans with (y := (1 # 1)%Q); [reflexivity | exact E].
  - now apply (divisor_ofZ 1).
Qed.

Lemma nonneg_zero : nonneg zero.
Proof. exists 0%Q. split; [reflexivity | apply Qle_refl]. Qed.

Lemma nonneg_add x y : nonneg x -> nonneg y -> nonneg (add x y).
Proof.
  intros [a [-> Ha]] [b [-> Hb]]. exists (Qred (a + b)). split; auto.
  rewrite Qred_correct. rewrite <- (Qplus_0_r 0).
  now apply Qplus_le_compat.
Qed.

Lemma nonneg_abs x : finite x = true -> nonneg (Math_abs x).
Proof.
  intros H. fin_cases. exists (Qred (Qabs q)). split; auto.
  rewrite Qred_correct. apply Qabs_nonneg.
Qed.

Lemma nonneg_square x : finite x = true -> nonneg (square x).
Proof.
  intros H. fin_cases. exists (Qred (q * q)). split; auto.
  rewrite Qred_correct.
  destruct (Qlt_le_dec q 0) as [Hq|Hq].
  - setoid_replace (q * q)%Q with ((- q) * (- q))%Q by ring.
    apply Qmult_le_0_compat; apply (Qopp_le_compat q 0), Qlt_le_weak, Hq.
  - now apply Qmult_le_0_compat.
Qed.

Lemma nonneg_fold_add (l : list number) (a : number) :
  Forall nonneg l -> nonneg a -> nonneg (fold_left add l a).
Proof.
  intros Hl. revert a. induction Hl as [|x l Hx Hl IH]; intros a Ha; simpl.
  - exact Ha.
  - now apply IH, nonneg_add.
Qed.

Lemma nonneg_sum (l : list number) : Forall nonneg l -> nonneg (sum l).
Proof. intros H. apply nonneg_fold_add; auto using nonneg_zero. Qed.

Lemma finite_fold_add (l : list number) (a : number) :
  Forall (fun x => finite x = true) l -> finite a = true ->
  finite (fold_left add l a) = true.
Proof.
  intros Hl. revert a. induction Hl as [|x l Hx Hl IH]; intros a Ha; simpl.
  - exact Ha.
  - now apply IH, finite_add.
Qed.

Lemma finite_sum (l : list number) :
  Forall (fun x => finite x = true) l -> finite (sum l) = true.
Proof. intros H. now apply finite_fold_add. Qed.

Lemma divisor_length {A : Type} (x : A) (l : list A) :
  divisor (ofZ (Z.of_nat (List.length (x :: l)))).
Proof. apply divisor_ofZ. simpl. lia. Qed.

Lemma finite_mean (l : list number) :
  Forall (fun x => finite x = true) l -> finite (calculateMean l) = true.
Proof.
  intros H. unfold calculateMean. destruct l as [|x l]; [reflexivity|].
  apply finite_div; [now apply finite_sum | apply divisor_length].
Qed.

Lemma nonneg_div_length {A : Type} (s : number) (x : A) (l : list A) :
  nonneg s -> nonneg (div s (ofZ (Z.of_nat (List.length (x :: l))))).
Proof.
  intros [q [-> Hq]].
  destruct (divisor_length x l) as [_ Ht].
  set (n := Z.of_nat (List.length (x :: l))) in *.
  assert (Hn : 0 < n) by (subst n; simpl; lia).
  unfold truthy, ofZ in Ht. apply negb_true_iff in Ht.
  unfold div, ofZ. rewrite Ht.
  exists (Qred (q / (n # 1))). split; auto.
  rewrite Qred_correct. apply Qle_shift_div_l.
  - unfold Qlt. simpl. lia.
  - now rewrite Qmult_0_l.
Qed.

Lemma nonneg_mean (l : list number) :
  Forall nonneg l -> nonneg (calculateMean l).
Proof.
  intros H. unfold calculateMean. destruct l as [|x l]; [apply nonneg_zero|].
  apply nonneg_div_length. now apply nonneg_sum.
Qed.

Section FiniteAnalysis.

Context {host : Host}.

Lemma finite_Math_sqrt (x : number) :
  nonneg x -> finite (Math_sqrt x) = true.
Proof.
  intros [q [-> Hq]]. unfold Math_sqrt.
  replace (Qltb q 0) with false; [reflexivity|].
  symmetry. now apply Qltb_false.
Qed.

Lemma finite_stddev (l : list number) :
  Forall (fun x => finite x = true) l ->
  finite (calculateStandardDeviation l) = true.
Proof.
  intros H. unfold calculateStandardDeviation.
  destruct l as [|x l]; [reflexivity|].
  apply finite_Math_sqrt, nonneg_mean.
  apply Forall_map. pose proof (finite_mean _ H) as Hm.
  revert H. apply Forall_impl. intros y Hy.
  now apply nonneg_square, finite_sub.
Qed.

Lemma divisor_daysDiff (txs : list transaction) : divisor (daysDiff txs).
Proof.
  unfold daysDiff. apply divisor_Math_max_one, finite_Math_ceil.
  apply finite_div; [reflexivity | apply divisor_ofZ; lia].
Qed.

Lemma divisor_monthsDiff (txs : list transaction) :
  divisor (monthsDiff txs).
Proof.
  unfold monthsDiff. apply divisor_Math_max_one.
  apply finite_div; [apply divisor_daysDiff | apply divisor_ofZ; lia].
Qed.

End FiniteAnalysis.

(* ================================================================== *)
(** * The monthly data *)

Lemma fold_addToBucket (l : list transaction) (b0 : bucket) :
  fold_left (fun b t => addToBucket t b) l b0 =
  mkBucket (fold_left add (amounts (ofKind income l)) (b_income b0))
           (fold_left add (amounts (ofKind expense l)) (b_expenses b0))
           (List.length l + b_count b0).
Proof.
  revert b0. induction l as [|t l IH]; intros b0; simpl.
  - now destruct b0.
  - rewrite IH. unfold addToBucket, ofKind. simpl.
    destruct (type t); simpl; f_equal; lia.
Qed.

Lemma bucketAt_bump (k k' : string) (t : transaction)
    (m : list (string * bucket)) :
  bucketAt k (bump k' t m) =
  if String.eqb k' k then addToBucket t (bucketAt k m) else bucketAt k m.
Proof.
  induction m as [|[k0 b] m IH]; simpl.
  - reflexivity.
  - destruct (String.eqb_spec k0 k') as [->|Hne]; simpl.
    + destruct (String.eqb k' k); reflexivity.
    + destruct (String.eqb_spec k0 k) as [->|Hne2].
      * apply String.eqb_neq in Hne. rewrite String.eqb_sym in Hne.
        now rewrite Hne.
      * exact IH.
Qed.

Lemma in_keys_bump (k k' : string) (t : transaction)
    (m : list (string * bucket)) :
  In k (map fst (bump k' t m)) <-> k = k' \/ In k (map fst m).
Proof.
  induction m as [|[k0 b] m IH]; simpl.
  - intuition.
  - destruct (String.eqb_spec k0 k') as [->|Hne]; simpl.
    + intuition.
    + rewrite IH. intuition.
Qed.

Lemma NoDup_keys_bump (k : string) (t : transaction)
    (m : list (string * bucket)) :
  NoDup (map fst m) -> NoDup (map fst (bump k t m)).
Proof.
  induction m as [|[k0 b] m IH]; simpl; intros H.
  - constructor; [intros [] | constructor].
  - inversion H as [|? ? Hn Hd]; subst.
    destruct (String.eqb_spec k0 k) as [->|Hne]; simpl.
    + now constructor.
    + constructor; auto. rewrite in_keys_bump. intuition.
Qed.

Lemma values_by_keys (m : list (string * bucket)) :
  NoDup (map fst m) ->
  map snd m = map (fun k => bucketAt k m) (map fst m).
Proof.
  induction m as [|[k b] m IH]; simpl; intros H; [reflexivity|].
  inversion H as [|? ? Hn Hd]; subst.
  rewrite String.eqb_refl. f_equal. rewrite (IH Hd).
  apply map_ext_in. intros k' Hk'.
  destruct (String.eqb_spec k k') as [->|_]; [contradiction | reflexivity].
Qed.

Section Months.

Context {host : Host}.

Lemma monthStep_keyOf (m : list (string * bucket)) (t : transaction) :
  monthStep m t =
  match keyOf t with
  | Some k => bump k t m
  | None => m
  end.
Proof. unfold monthStep, keyOf. now destruct (Date_parse (date t)). Qed.

Lemma bucketAt_fold (k : string) (txs : list transaction)
    (m : list (string * bucket)) :
  bucketAt k (fold_left monthStep txs m) =
  fold_left (fun b t => addToBucket t b) (inMonth k txs) (bucketAt k m).
Proof.
  revert m. induction txs as [|t txs IH]; intros m; simpl; auto.
  rewrite IH, monthStep_keyOf. unfold inKey.
  destruct (keyOf t) as [k'|]; [|reflexivity].
  rewrite bucketAt_bump. now destruct (String.eqb k' k).
Qed.

(** The entry of a month holds the sums over the transactions of the
    month, by type, and their number. *)
Lemma bucketAt_monthlyData (k : string) (txs : list transaction) :
  bucketAt k (monthlyData txs) =
  mkBucket (sum (amounts (ofKind income (inMonth k txs))))
           (sum (amounts (ofKind expense (inMonth k txs))))
           (List.length (inMonth k txs)).
Proof.
  unfold monthlyData. rewrite bucketAt_fold, fold_addToBucket.
  simpl. f_equal. lia.
Qed.

Lemma in_keys_fold (k : string) (txs : list transaction)
    (m : list (string * bucket)) :
  In k (map fst (fold_left monthStep txs m)) <->
  In k (map fst m) \/ exists t, In t txs /\ keyOf t = Some k.
Proof.
  revert m. induction txs as [|t txs IH]; intros m; simpl.
  - split; [auto | intros [H|[t [[] _]]]; exact H].
  - rewrite IH, monthStep_keyOf. destruct (keyOf t) as [k'|] eqn:E.
    + rewrite in_keys_bump. split.
      * intros [[->|H]|[t' [H1 H2]]]; eauto.
      * intros [H|[t' [[<-|H1] H2]]]; eauto.
        rewrite E in H2. injection H2 as ->. auto.
    + split.
      * intros [H|[t' [H1 H2]]]; eauto.
      * intros [H|[t' [[<-|H1] H2]]]; eauto. congruence.
Qed.

Lemma in_keys_monthlyData (k : string) (txs : list transaction) :
  In k (map fst (monthlyData txs)) <->
  exists t, In t txs /\ keyOf t = Some k.
Proof. unfold monthlyData. rewrite in_keys_fold. simpl. tauto. Qed.

Lemma NoDup_keys_fold (txs : list transaction)
    (m : list (string * bucket)) :
  NoDup (map fst m) -> NoDup (map fst (fold_left monthStep txs m)).
Proof.
  revert m. induction txs as [|t txs IH]; intros m H; simpl; auto.
  apply IH. rewrite monthStep_keyOf.
  destruct (keyOf t); auto using NoDup_keys_bump.
Qed.

Lemma NoDup_keys_monthlyData (txs : list transaction) :
  NoDup (map fst (monthlyData txs)).
Proof. apply NoDup_keys_fold. constructor. Qed.

(** [Object.values(monthlyData)], entry by entry. *)
Lemma values_monthlyData (txs : list transaction) :
  map snd (monthlyData txs) =
  map (fun k => bucketAt k (monthlyData txs)) (map fst (monthlyData txs)).
Proof. apply values_by_keys, NoDup_keys_monthlyData. Qed.

End Months.

(* ================================================================== *)
(** * Degenerate statements *)

Lemma magnitude_abs (x : number) : proper x -> magnitude (Math_abs x).
Proof.
  intros [_ Hn]. split; [apply canon_abs | now apply abs_nonneg].
Qed.

Lemma magnitude_classify (r : row) : magnitude (amount (classify r)).
Proof. apply magnitude_abs, proper_resolveAmount. Qed.

Lemma magnitude_add (x y : number) :
  magnitude x -> magnitude y -> magnitude (add x y).
Proof.
  intros [_ Hx] [_ Hy]. split; [apply canon_add|].
  destruct x as [a| | |], y as [b| | |]; try discriminate; try reflexivity.
  unfold ge, le, zero, ofZ, add, fin in *.
  apply Qleb_true in Hx, Hy. apply Qleb_true. rewrite Qred_correct.
  rewrite <- (Qplus_0_r 0). now apply Qplus_le_compat.
Qed.

Lemma magnitude_zero : magnitude zero.
Proof. split; [apply canon_ofZ | reflexivity]. Qed.

Lemma magnitude_sum (l : list number) :
  Forall magnitude l -> magnitude (sum l).
Proof.
  induction 1 as [|x l Hx Hl IH]; [apply magnitude_zero|].
  rewrite sum_cons. now apply magnitude_add.
Qed.



Lemma sum_of_zeros (l : list number) :
  Forall (fun x => x = zero) l -> sum l = zero.
Proof.
  induction 1 as [|x l -> Hl IH]; [reflexivity|].
  rewrite sum_cons, IH. reflexivity.
Qed.

Lemma div_zero (y : number) : divisor y -> div zero y = zero.
Proof.
  intros [Hf Ht]. destruct y as [b| | |]; try discriminate.
  unfold truthy in Ht. apply negb_true_iff in Ht.
  unfold div, zero, ofZ. rewrite Ht.
  rewrite <- (fin_canon (0 # 1)) by reflexivity.
  apply fin_ext. unfold Qdiv. apply Qmult_0_l.
Qed.

Lemma Forall_filter {A : Type} (P : A -> Prop) (f : A -> bool) (l : list A) :
  Forall P l -> Forall P (filter f l).
Proof.
  intros H. apply Forall_forall. intros x Hx.
  apply filter_In in Hx as [Hx _]. revert x Hx. now apply Forall_forall.
Qed.

Lemma Forall_amounts (P : number -> Prop) (txs : list transaction) :
  Forall (fun t => P (amount t)) txs <-> Forall P (amounts txs).
Proof. unfold amounts. now rewrite Forall_map. Qed.

Section Degenerate.

Context {host : Host}.


Lemma nonneg_classify (r : row) :
  finite (resolveAmount r) = true -> nonneg (amount (classify r)).
Proof. intros H. rewrite classify_amount. now apply nonneg_abs. Qed.

Lemma nonneg_bucketAt (k : string) (txs : list transaction) :
  Forall (fun t => nonneg (amount t)) txs ->
  nonneg (b_income (bucketAt k (monthlyData txs))) /\
  nonneg (b_expenses (bucketAt k (monthlyData txs))).
Proof.
  intros H. rewrite bucketAt_monthlyData. cbn [b_income b_expenses].
  split; apply nonneg_sum, Forall_amounts;
    unfold ofKind, inMonth; now do 2 apply Forall_filter.
Qed.

Lemma finite_incomeMonths (txs : list transaction) :
  Forall (fun t => nonneg (amount t)) txs ->
  Forall (fun x => finite x = true) (incomeMonths txs).
Proof.
  intros H. unfold incomeMonths. apply Forall_filter.
  rewrite values_monthlyData, !Forall_map. apply Forall_forall.
  intros k _. apply nonneg_finite. now apply nonneg_bucketAt.
Qed.

Lemma finite_expenseMonths (txs : list transaction) :
  Forall (fun t => nonneg (amount t)) txs ->
  Forall (fun x => finite x = true) (expenseMonths txs).
Proof.
  intros H. unfold expenseMonths. apply Forall_filter.
  rewrite values_monthlyData, !Forall_map. apply Forall_forall.
  intros k _. apply nonneg_finite. now apply nonneg_bucketAt.
Qed.

Lemma finite_variation (ms : list number) :
  Forall (fun x => finite x = true) ms ->
  finite (div (calculateStandardDeviation ms)
              (Num.orElse (calculateMean ms) (ofZ 1))) = true.
Proof.
  intros H. apply finite_div; [now apply finite_stddev|].
  now apply divisor_orElse, finite_mean.
Qed.

Lemma finite_incomeConsistencyRaw (txs : list transaction) :
  Forall (fun t => nonneg (amount t)) txs ->
  finite (incomeConsistencyRaw txs) = true.
Proof.
  intros H. unfold incomeConsistencyRaw.
  pose proof (finite_incomeMonths txs H) as Hm.
  destruct (incomeMonths txs) as [|x ms]; [reflexivity|].
  apply finite_mul; [|reflexivity].
  apply finite_sub; [reflexivity | now apply finite_variation].
Qed.

Lemma finite_spendingVolatilityRaw (txs : list transaction) :
  Forall (fun t => nonneg (amount t)) txs ->
  finite (spendingVolatilityRaw txs) = true.
Proof.
  intros H. unfold spendingVolatilityRaw.
  pose proof (finite_expenseMonths txs H) as Hm.
  destruct (expenseMonths txs) as [|x ms]; [reflexivity|].
  apply finite_mul; [now apply finite_variation | reflexivity].
Qed.

Lemma finite_summarize (i e : number) (txs : list transaction) :
  finite i = true -> finite e = true ->
  Forall (fun t => nonneg (amount t)) txs ->
  finiteAnalysis (summarize (mkAccum i e txs)) = true.
Proof.
  intros Hi He Ht.
  pose proof (divisor_monthsDiff txs) as Hm.
  assert (Hai : finite (div i (monthsDiff txs)) = true)
    by now apply finite_div.
  assert (Hae : finite (div e (monthsDiff txs)) = true)
    by now apply finite_div.
  assert (Hd : finite (fold_left (fun sum t => add sum (amount t))
                         (filter isDebt txs) zero) = true).
  { rewrite fold_amounts. apply finite_sum, Forall_amounts.
    apply Forall_filter. revert Ht. apply Forall_impl.
    intros t. apply nonneg_finite. }
  unfold finiteAnalysis, summarize.
  cbn [totalIncome totalExpenses savings averageMonthlyIncome
       averageMonthlyExpenses savingsPerMonth savingsRate
       incomeConsistency spendingVolatility emergencySavingsBuffer
       billPaymentRegularity accountAgeMonths monthlyDebtObligations
       totalDebtObligations monthlyBreakdown dateRange r_days
       acc_income acc_expenses acc_transactions].
  repeat (apply andb_true_iff; split); auto.
  - now apply finite_sub.
  - now apply finite_sub.
  - destruct (gt (div i (monthsDiff txs)) zero) eqn:E; [|reflexivity].
    apply finite_mul; [|reflexivity].
    apply finite_div; [now apply finite_sub | now apply divisor_positive].
  - now apply finite_clamp100, finite_incomeConsistencyRaw.
  - apply finite_clamp100, finite_sub; [reflexivity|].
    now apply finite_spendingVolatilityRaw.
  - destruct (gt (div e (monthsDiff txs)) zero) eqn:E; [|reflexivity].
    apply finite_div; [now apply finite_sub | now apply divisor_positive].
  - now destruct (0 <? _)%nat.
  - apply Hm.
  - now apply finite_div.
  - apply forallb_forall. intros b Hb.
    apply in_map_iff in Hb as [k [<- _]].
    destruct (nonneg_bucketAt k txs Ht) as [H1 H2].
    apply nonneg_finite in H1, H2.
    unfold finiteBreakdown, breakdownOf. cbn [m_income m_expenses m_savings].
    rewrite H1, H2. now apply finite_sub.
  - apply divisor_daysDiff.
Qed.

Lemma finite_checkEligibility (a : AnalysisResult) :
  finite (savingsPerMonth a) = true ->
  finiteEligibility (checkEligibility a) = true.
Proof.
  intros H. destruct (finalScore_integer a) as [n [Hn _]].
  assert (Hr : finite (recommendedAmount a) = true).
  { unfold recommendedAmount. rewrite Hn.
    apply finite_Math_min; [|reflexivity].
    apply finite_mul; [now apply finite_mul|].
    apply finite_div; [reflexivity | apply divisor_ofZ; lia]. }
  unfold finiteEligibility, checkEligibility.
  cbn [score recommendedLoanAmount maxLoanAmount].
  rewrite Hn, Math_round_ofZ.
  repeat (apply andb_true_iff; split); auto.
  - destruct (_ && _ && _ && _); [|reflexivity].
    now apply finite_Math_round.
  - now apply finite_Math_round, finite_Math_max.
Qed.


End Degenerate.



(* ================================================================== *)
(** * Lists up to the order of their elements *)

Lemma filter_perm {A : Type} (f : A -> bool) (l l' : list A) :
  Permutation l l' -> Permutation (filter f l) (filter f l').
Proof.
  induction 1 as [|x l l' _ IH|x y l|l1 l2 l3 _ IH1 _ IH2]; simpl.
  - constructor.
  - destruct (f x); auto.
  - destruct (f x), (f y); auto. constructor.
  - now transitivity (filter f l2).
Qed.

Lemma collect_perm {A B : Type} (f : A -> option B) (l l' : list A) :
  Permutation l l' -> Permutation (collect f l) (collect f l').
Proof.
  induction 1 as [|x l l' _ IH|x y l|l1 l2 l3 _ IH1 _ IH2]; simpl.
  - constructor.
  - destruct (f x); auto.
  - destruct (f x), (f y); auto. constructor.
  - now transitivity (collect f l2).
Qed.

Lemma amounts_perm (txs txs' : list transaction) :
  Permutation txs txs' -> Permutation (amounts txs) (amounts txs').
Proof. apply Permutation_map. Qed.

Lemma sum_ofKind_perm (k : kind) (txs txs' : list transaction) :
  Permutation txs txs' ->
  sum (amounts (ofKind k txs)) = sum (amounts (ofKind k txs')).
Proof. intros H. now apply sum_perm, amounts_perm, filter_perm. Qed.

Lemma minimum_spec (d : Z) (ds : list Z) :
  In (minimum d ds) (d :: ds) /\
  forall x, In x (d :: ds) -> minimum d ds <= x.
Proof.
  unfold minimum. revert d. induction ds as [|y ds IH]; intros d.
  - simpl. split; [auto | intros x [<-|[]]; lia].
  - cbn [fold_left]. destruct (IH (Z.min d y)) as [H1 H2]. split.
    + destruct H1 as [H1|H1]; [|simpl; auto].
      rewrite <- H1. destruct (Z.min_spec d y) as [[_ ->]|[_ ->]];
        simpl; auto.
    + intros x Hx.
      assert (Hm : fold_left Z.min ds (Z.min d y) <= Z.min d y)
        by (apply H2; now left).
      destruct Hx as [<-|[<-|Hx]]; [lia | lia |].
      apply H2. now right.
Qed.

Lemma maximum_spec (d : Z) (ds : list Z) :
  In (maximum d ds) (d :: ds) /\
  forall x, In x (d :: ds) -> x <= maximum d ds.
Proof.
  unfold maximum. revert d. induction ds as [|y ds IH]; intros d.
  - simpl. split; [auto | intros x [<-|[]]; lia].
  - cbn [fold_left]. destruct (IH (Z.max d y)) as [H1 H2]. split.
    + destruct H1 as [H1|H1]; [|simpl; auto].
      rewrite <- H1. destruct (Z.max_spec d y) as [[_ ->]|[_ ->]];
        simpl; auto.
    + intros x Hx.
      assert (Hm : Z.max d y <= fold_left Z.max ds (Z.max d y))
        by (apply H2; now left).
      destruct Hx as [<-|[<-|Hx]]; [lia | lia |].
      apply H2. now right.
Qed.

Lemma minimum_perm (d d' : Z) (ds ds' : list Z) :
  Permutation (d :: ds) (d' :: ds') -> minimum d ds = minimum d' ds'.
Proof.
  intros H.
  destruct (minimum_spec d ds) as [H1 H2].
  destruct (minimum_spec d' ds') as [H1' H2'].
  apply Z.le_antisymm.
  - apply H2. apply (Permutation_in _ (Permutation_sym H)), H1'.
  - apply H2'. apply (Permutation_in _ H), H1.
Qed.

Lemma maximum_perm (d d' : Z) (ds ds' : list Z) :
  Permutation (d :: ds) (d' :: ds') -> maximum d ds = maximum d' ds'.
Proof.
  intros H.
  destruct (maximum_spec d ds) as [H1 H2].
  destruct (maximum_spec d' ds') as [H1' H2'].
  apply Z.le_antisymm.
  - apply H2'. apply (Permutation_in _ H), H1.
  - apply H2. apply (Permutation_in _ (Permutation_sym H)), H1'.
Qed.

(* ------------------------------------------------------------------ *)
(** ** Sorted strings *)

Lemma ascii_compare_trans (a b c : ascii) (o : comparison) :
  Ascii.compare a b = o -> Ascii.compare b c = o -> Ascii.compare a c = o.
Proof.
  unfold Ascii.compare. destruct o; intros H1 H2.
  - apply N.compare_eq_iff in H1. apply N.compare_eq_iff in H2.
    apply N.compare_eq_iff. congruence.
  - apply N.compare_lt_iff in H1. apply N.compare_lt_iff in H2.
    apply N.compare_lt_iff. now apply N.lt_trans with (m := N_of_ascii b).
  - apply N.compare_gt_iff in H1. apply N.compare_gt_iff in H2.
    apply N.compare_gt_iff. now apply N.lt_trans with (m := N_of_ascii b).
Qed.

Lemma string_compare_lt_trans (a b c : string) :
  String.compare a b = Lt -> String.compare b c = Lt ->
  String.compare a c = Lt.
Proof.
  revert b c. induction a as [|x a IH]; intros [|y b] [|z c]; simpl;
    try congruence.
  destruct (Ascii.compare x y) eqn:E1; try discriminate;
    destruct (Ascii.compare y z) eqn:E2; try discriminate; intros H1 H2.
  - rewrite (ascii_compare_trans x y z Eq E1 E2). eauto.
  - apply Ascii.compare_eq_iff in E1. subst. now rewrite E2.
  - apply Ascii.compare_eq_iff in E2. subst. now rewrite E1.
  - now rewrite (ascii_compare_trans x y z Lt E1 E2).
Qed.

Lemma sle_trans (a b c : string) : sle a b -> sle b c -> sle a c.
Proof.
  unfold sle, String.leb. intros H1 H2.
  destruct (String.compare a b) eqn:E1; try discriminate.
  - apply String.compare_eq_iff in E1. now subst.
  - destruct (String.compare b c) eqn:E2; try discriminate.
    + apply String.compare_eq_iff in E2. subst. now rewrite E1.
    + now rewrite (string_compare_lt_trans a b c E1 E2).
Qed.

Lemma insertSorted_perm (s : string) (l : list string) :
  Permutation (insertSorted s l) (s :: l).
Proof.
  induction l as [|x l IH]; simpl; auto.
  destruct (String.leb s x); auto.
  transitivity (x :: s :: l); [now constructor | constructor].
Qed.

Lemma sortStrings_perm (l : list string) : Permutation (sortStrings l) l.
Proof.
  induction l as [|x l IH]; simpl; auto.
  transitivity (x :: sortStrings l); auto using insertSorted_perm.
Qed.

Lemma insertSorted_sorted (s : string) (l : list string) :
  StronglySorted sle l -> StronglySorted sle (insertSorted s l).
Proof.
  induction 1 as [|x l Hs IH Hx]; simpl.
  - constructor; constructor.
  - destruct (String.leb s x) eqn:E.
    + constructor; [now constructor|].
      constructor; [exact E|].
      revert Hx. apply Forall_impl. intros y. now apply sle_trans.
    + constructor; auto.
      apply (Permutation_Forall (Permutation_sym (insertSorted_perm s l))).
      constructor; auto.
      destruct (String.leb_total s x) as [H|H]; [congruence | exact H].
Qed.

Lemma sortStrings_sorted (l : list string) :
  StronglySorted sle (sortStrings l).
Proof.
  induction l as [|x l IH]; simpl; [constructor|].
  now apply insertSorted_sorted.
Qed.

Lemma sorted_perm_eq (l l' : list string) :
  StronglySorted sle l -> StronglySorted sle l' -> Permutation l l' ->
  l = l'.
Proof.
  intros H. revert l'. induction H as [|x l Hs IH Hx]; intros l' H' P.
  - now apply Permutation_nil in P.
  - destruct H' as [|y l' Hs' Hy].
    + now apply Permutation_sym, Permutation_nil in P.
    + assert (x = y).
      { assert (Hin1 : In y (x :: l))
          by (apply (Permutation_in _ (Permutation_sym P)); now left).
        assert (Hin2 : In x (y :: l'))
          by (apply (Permutation_in _ P); now left).
        destruct Hin1 as [->|Hin1]; [reflexivity|].
        destruct Hin2 as [->|Hin2]; [reflexivity|].
        rewrite Forall_forall in Hx, Hy.
        apply String.leb_antisym; [now apply Hx | now apply Hy]. }
      subst y. f_equal. apply IH; auto.
      now apply Permutation_cons_inv in P.
Qed.

(** Sorting does not depend on the order of the list that is sorted. *)
Lemma sortStrings_invariant (l l' : list string) :
  Permutation l l' -> sortStrings l = sortStrings l'.
Proof.
  intros P. apply sorted_perm_eq; auto using sortStrings_sorted.
  transitivity l; [apply sortStrings_perm|].
  transitivity l'; [exact P | apply Permutation_sym, sortStrings_perm].
Qed.

(* ================================================================== *)
(** * Recurring payments *)

Lemma countAt_note (k k' : string) (t : transaction)
    (ps : list (string * pattern)) :
  countAt k (notePattern k' t ps) =
  if String.eqb k' k then S (countAt k ps) else countAt k ps.
Proof.
  induction ps as [|[k0 p] ps IH]; simpl.
  - reflexivity.
  - destruct (String.eqb_spec k0 k') as [->|Hne]; simpl.
    + destruct (String.eqb k' k); reflexivity.
    + destruct (String.eqb_spec k0 k) as [->|Hne2].
      * apply String.eqb_neq in Hne. rewrite String.eqb_sym in Hne.
        now rewrite Hne.
      * exact IH.
Qed.

Lemma countAt_fold (k : string) (txs : list transaction)
    (ps : list (string * pattern)) :
  countAt k (fold_left (fun ps t => notePattern (patternKey t) t ps) txs ps)
  = (List.length (withKey k txs) + countAt k ps)%nat.
Proof.
  revert ps. induction txs as [|t txs IH]; intros ps; simpl; auto.
  rewrite IH, countAt_note. unfold withKey. simpl.
  destruct (String.eqb (patternKey t) k); simpl; lia.
Qed.

Lemma countAt_allPatterns (k : string) (txs : list transaction) :
  countAt k (allPatterns txs) = List.length (withKey k txs).
Proof. unfold allPatterns. rewrite countAt_fold. simpl. lia. Qed.

Lemma in_keys_note (k k' : string) (t : transaction)
    (ps : list (string * pattern)) :
  In k (map fst (notePattern k' t ps)) <-> k = k' \/ In k (map fst ps).
Proof.
  induction ps as [|[k0 p] ps IH]; simpl.
  - intuition.
  - destruct (String.eqb_spec k0 k') as [->|Hne]; simpl.
    + intuition.
    + rewrite IH. intuition.
Qed.

Lemma NoDup_keys_note (k : string) (t : transaction)
    (ps : list (string * pattern)) :
  NoDup (map fst ps) -> NoDup (map fst (notePattern k t ps)).
Proof.
  induction ps as [|[k0 p] ps IH]; simpl; intros H.
  - constructor; [intros [] | constructor].
  - inversion H as [|? ? Hn Hd]; subst.
    destruct (String.eqb_spec k0 k) as [->|Hne]; simpl.
    + now constructor.
    + constructor; auto. rewrite in_keys_note. intuition.
Qed.

Lemma NoDup_keys_allPatterns (txs : list transaction) :
  NoDup (map fst (allPatterns txs)).
Proof.
  unfold allPatterns.
  assert (H : forall ps, NoDup (map fst ps) ->
    NoDup (map fst (fold_left
      (fun ps t => notePattern (patternKey t) t ps) txs ps))).
  { induction txs as [|t txs IH]; intros ps Hps; simpl; auto.
    apply IH. now apply NoDup_keys_note. }
  apply H. constructor.
Qed.

Lemma countAt_in (k : string) (p : pattern) (ps : list (string * pattern)) :
  NoDup (map fst ps) -> In (k, p) ps -> countAt k ps = p_count p.
Proof.
  induction ps as [|[k0 p0] ps IH]; simpl; intros Hd Hin; [contradiction|].
  inversion Hd as [|? ? Hn Hd']; subst.
  destruct Hin as [[= -> ->]|Hin].
  - now rewrite String.eqb_refl.
  - destruct (String.eqb_spec k0 k) as [->|_]; auto.
    exfalso. apply Hn. apply in_map_iff. now exists (k, p).
Qed.

Lemma countAt_positive (k : string) (ps : list (string * pattern)) :
  (0 < countAt k ps)%nat ->
  exists p, In (k, p) ps /\ p_count p = countAt k ps.
Proof.
  induction ps as [|[k0 p0] ps IH]; simpl; intros H; [lia|].
  destruct (String.eqb_spec k0 k) as [->|_].
  - exists p0. auto.
  - destruct (IH H) as [p [H1 H2]]. exists p. auto.
Qed.

(** Some pattern is returned exactly when two transactions share a key. *)
Lemma recurring_iff (txs : list transaction) :
  (0 <? List.length (detectRecurringPayments txs))%nat = true <->
  exists k, (2 <= List.length (withKey k txs))%nat.
Proof.
  unfold detectRecurringPayments. fold (allPatterns txs).
  rewrite Nat.ltb_lt. split.
  - intros H.
    destruct (filter _ (map snd (allPatterns txs))) as [|p l] eqn:E;
      [simpl in H; lia|].
    assert (Hp : In p (filter (fun p => (2 <=? p_count p)%nat)
                              (map snd (allPatterns txs))))
      by (rewrite E; now left).
    apply filter_In in Hp as [Hp Hc]. apply Nat.leb_le in Hc.
    apply in_map_iff in Hp as [[k p'] [Hk Hin]]. simpl in Hk. subst p'.
    exists k. rewrite <- countAt_allPatterns.
    rewrite (countAt_in k p); auto using NoDup_keys_allPatterns.
  - intros [k Hk]. rewrite <- countAt_allPatterns in Hk.
    destruct (countAt_positive k (allPatterns txs)) as [p [H1 H2]]; [lia|].
    assert (Hp : In p (filter (fun p => (2 <=? p_count p)%nat)
                              (map snd (allPatterns txs)))).
    { apply filter_In. split.
      - apply in_map_iff. now exists (k, p).
      - apply Nat.leb_le. lia. }
    destruct (filter _ (map snd (allPatterns txs))); [contradiction|].
    simpl. lia.
Qed.

Lemma recurring_perm (txs txs' : list transaction) :
  Permutation txs txs' ->
  (0 <? List.length (detectRecurringPayments txs))%nat =
  (0 <? List.length (detectRecurringPayments txs'))%nat.
Proof.
  intros P. apply Bool.eq_iff_eq_true. rewrite !recurring_iff.
  split; intros [k Hk]; exists k; unfold withKey in *.
  - now rewrite <- (Permutation_length (filter_perm _ _ _ P)).
  - now rewrite (Permutation_length (filter_perm _ _ _ P)).
Qed.

(* ================================================================== *)
(** * The order of the rows *)

Lemma mean_perm (l l' : list number) :
  Permutation l l' -> calculateMean l = calculateMean l'.
Proof.
  intros P. unfold calculateMean.
  destruct l as [|x l], l' as [|x' l'].
  - reflexivity.
  - now apply Permutation_nil in P.
  - now apply Permutation_sym, Permutation_nil in P.
  - now rewrite (sum_perm _ _ P), (Permutation_length P).
Qed.

Section Order.

Context {host : Host}.

Lemma stddev_perm (l l' : list number) :
  Permutation l l' ->
  calculateStandardDeviation l = calculateStandardDeviation l'.
Proof.
  intros P. unfold calculateStandardDeviation.
  destruct l as [|x l], l' as [|x' l'].
  - reflexivity.
  - now apply Permutation_nil in P.
  - now apply Permutation_sym, Permutation_nil in P.
  - rewrite (mean_perm _ _ P). f_equal.
    apply mean_perm. now apply Permutation_map.
Qed.

Lemma validTimes_perm (txs txs' : list transaction) :
  Permutation txs txs' -> Permutation (validTimes txs) (validTimes txs').
Proof. apply collect_perm. Qed.

Lemma minDate_perm (txs txs' : list transaction) :
  Permutation txs txs' -> minDate txs = minDate txs'.
Proof.
  intros P. apply validTimes_perm in P. unfold minDate.
  destruct (validTimes txs) as [|d ds], (validTimes txs') as [|d' ds'].
  - reflexivity.
  - now apply Permutation_nil in P.
  - now apply Permutation_sym, Permutation_nil in P.
  - now apply minimum_perm.
Qed.

Lemma maxDate_perm (txs txs' : list transaction) :
  Permutation txs txs' -> maxDate txs = maxDate txs'.
Proof.
  intros P. apply validTimes_perm in P. unfold maxDate.
  destruct (validTimes txs) as [|d ds], (validTimes txs') as [|d' ds'].
  - reflexivity.
  - now apply Permutation_nil in P.
  - now apply Permutation_sym, Permutation_nil in P.
  - now apply maximum_perm.
Qed.

Lemma daysDiff_perm (txs txs' : list transaction) :
  Permutation txs txs' -> daysDiff txs = daysDiff txs'.
Proof.
  intros P. unfold daysDiff.
  now rewrite (minDate_perm _ _ P), (maxDate_perm _ _ P).
Qed.

Lemma monthsDiff_perm (txs txs' : list transaction) :
  Permutation txs txs' -> monthsDiff txs = monthsDiff txs'.
Proof. intros P. unfold monthsDiff. now rewrite (daysDiff_perm _ _ P). Qed.

Lemma keys_perm (txs txs' : list transaction) :
  Permutation txs txs' ->
  Permutation (map fst (monthlyData txs)) (map fst (monthlyData txs')).
Proof.
  intros P. apply NoDup_Permutation; auto using NoDup_keys_monthlyData.
  intros k. rewrite !in_keys_monthlyData.
  split; intros [t [H1 H2]]; exists t; split; auto.
  - now apply (Permutation_in _ P).
  - now apply (Permutation_in _ (Permutation_sym P)).
Qed.

Lemma bucketAt_perm (k : string) (txs txs' : list transaction) :
  Permutation txs txs' ->
  bucketAt k (monthlyData txs) = bucketAt k (monthlyData txs').
Proof.
  intros P. rewrite !bucketAt_monthlyData.
  assert (Pk : Permutation (inMonth k txs) (inMonth k txs'))
    by now apply filter_perm.
  now rewrite (sum_ofKind_perm income _ _ Pk),
    (sum_ofKind_perm expense _ _ Pk), (Permutation_length Pk).
Qed.

Lemma values_perm (txs txs' : list transaction) :
  Permutation txs txs' ->
  Permutation (map snd (monthlyData txs)) (map snd (monthlyData txs')).
Proof.
  intros P. rewrite !values_monthlyData.
  transitivity (map (fun k => bucketAt k (monthlyData txs))
                    (map fst (monthlyData txs'))).
  - now apply Permutation_map, keys_perm.
  - erewrite map_ext; [reflexivity|].
    intros k. now apply bucketAt_perm.
Qed.

Lemma incomeMonths_perm (txs txs' : list transaction) :
  Permutation txs txs' ->
  Permutation (incomeMonths txs) (incomeMonths txs').
Proof.
  intros P. unfold incomeMonths.
  now apply filter_perm, Permutation_map, values_perm.
Qed.

Lemma expenseMonths_perm (txs txs' : list transaction) :
  Permutation txs txs' ->
  Permutation (expenseMonths txs) (expenseMonths txs').
Proof.
  intros P. unfold expenseMonths.
  now apply filter_perm, Permutation_map, values_perm.
Qed.

Lemma incomeConsistencyRaw_perm (txs txs' : list transaction) :
  Permutation txs txs' ->
  incomeConsistencyRaw txs = incomeConsistencyRaw txs'.
Proof.
  intros P. apply incomeMonths_perm in P. unfold incomeConsistencyRaw.
  destruct (incomeMonths txs) as [|x l], (incomeMonths txs') as [|x' l'].
  - reflexivity.
  - now apply Permutation_nil in P.
  - now apply Permutation_sym, Permutation_nil in P.
  - now rewrite (stddev_perm _ _ P), (mean_perm _ _ P).
Qed.

Lemma spendingVolatilityRaw_perm (txs txs' : list transaction) :
  Permutation txs txs' ->
  spendingVolatilityRaw txs = spendingVolatilityRaw txs'.
Proof.
  intros P. apply expenseMonths_perm in P. unfold spendingVolatilityRaw.
  destruct (expenseMonths txs) as [|x l], (expenseMonths txs') as [|x' l'].
  - reflexivity.
  - now apply Permutation_nil in P.
  - now apply Permutation_sym, Permutation_nil in P.
  - now rewrite (stddev_perm _ _ P), (mean_perm _ _ P).
Qed.

Lemma debt_perm (txs txs' : list transaction) :
  Permutation txs txs' ->
  fold_left (fun sum t => add sum (amount t)) (filter isDebt txs) zero =
  fold_left (fun sum t => add sum (amount t)) (filter isDebt txs') zero.
Proof.
  intros P. rewrite !fold_amounts.
  now apply sum_perm, amounts_perm, filter_perm.
Qed.

Lemma breakdown_perm (txs txs' : list transaction) :
  Permutation txs txs' ->
  map (breakdownOf (monthlyData txs))
      (sortStrings (map fst (monthlyData txs))) =
  map (breakdownOf (monthlyData txs'))
      (sortStrings (map fst (monthlyData txs'))).
Proof.
  intros P. rewrite (sortStrings_invariant _ _ (keys_perm _ _ P)).
  apply map_ext. intros k. unfold breakdownOf.
  now rewrite (bucketAt_perm k _ _ P).
Qed.

End Order.

(* ================================================================== *)
(** * The order of the rows and the time of the run *)

Lemma validTimes_atClock (h : Host) (c1 c2 : Z) (txs : list transaction) :
  validTimes (host := atClock h c1 c2) txs = validTimes (host := h) txs.
Proof. reflexivity. Qed.

Lemma monthlyData_atClock (h : Host) (c1 c2 : Z) (txs : list transaction) :
  monthlyData (host := atClock h c1 c2) txs = monthlyData (host := h) txs.
Proof. reflexivity. Qed.

Lemma minDate_atClock (h : Host) (c1 c2 : Z) (txs : list transaction) :
  validTimes (host := h) txs <> [] ->
  minDate (host := atClock h c1 c2) txs = minDate (host := h) txs.
Proof.
  intros H. unfold minDate. rewrite validTimes_atClock.
  destruct (validTimes txs); [congruence | reflexivity].
Qed.

Lemma maxDate_atClock (h : Host) (c1 c2 : Z) (txs : list transaction) :
  validTimes (host := h) txs <> [] ->
  maxDate (host := atClock h c1 c2) txs = maxDate (host := h) txs.
Proof.
  intros H. unfold maxDate. rewrite validTimes_atClock.
  destruct (validTimes txs); [congruence | reflexivity].
Qed.

Lemma validTimes_perm_nonempty (h : Host) (txs txs' : list transaction) :
  Permutation txs txs' ->
  validTimes (host := h) txs <> [] -> validTimes (host := h) txs' <> [].
Proof.
  intros P H E. apply (validTimes_perm (host := h)) in P.
  rewrite E in P. apply Permutation_sym, Permutation_nil in P. congruence.
Qed.

(** C4, as amended.  For a statement and any permutation of its rows,
    analysed at any two times, the analysis counts as many transactions
    and produces the same transactions up to their order; it gives the
    same bill payment regularity and the same months in the monthly
    breakdown; and when at least one date is valid it gives the same
    date range and the same account age.  The list [transactions] of the
    result holds the first 50 transactions in the order of the rows. *)
Theorem C4_order_independent_fields (h : Host) (c1 c2 c1' c2' : Z)
    (data data' : list row) :
  Permutation data data' ->
  let a := analyzeTransactions (host := atClock h c1 c2) data in
  let a' := analyzeTransactions (host := atClock h c1' c2') data' in
  transactionCount a = transactionCount a' /\
  Permutation (map classify data) (map classify data') /\
  transactions a = firstn 50 (map classify data) /\
  transactions a' = firstn 50 (map classify data') /\
  billPaymentRegularity a = billPaymentRegularity a' /\
  map month (monthlyBreakdown a) = map month (monthlyBreakdown a') /\
  (validTimes (host := h) (map classify data) <> [] ->
   dateRange a = dateRange a' /\
   accountAgeMonths a = accountAgeMonths a').
Proof.
  intros P. cbv zeta.
  assert (Pt : Permutation (map classify data) (map classify data'))
    by now apply Permutation_map.
  split; [rewrite !analyze_transactionCount; apply (Permutation_length P)|].
  split; [exact Pt|].
  split; [apply analyze_transactions|].
  split; [apply analyze_transactions|].
  unfold analyzeTransactions. rewrite !processRows_spec.
  unfold summarize.
  cbn [billPaymentRegularity monthlyBreakdown dateRange accountAgeMonths
       acc_transactions].
  set (txs := map classify data) in *. set (txs' := map classify data') in *.
  split; [now rewrite (recurring_perm _ _ Pt)|].
  split.
  - rewrite !map_map. cbn [month breakdownOf]. rewrite !map_id.
    rewrite !monthlyData_atClock.
    apply sortStrings_invariant, (keys_perm (host := h)), Pt.
  - intros Hv.
    pose proof (validTimes_perm_nonempty h _ _ Pt Hv) as Hv'.
    assert (Hmin : minDate (host := atClock h c1 c2) txs
                   = minDate (host := atClock h c1' c2') txs').
    { rewrite !minDate_atClock by assumption.
      now apply (minDate_perm (host := h)). }
    assert (Hmax : maxDate (host := atClock h c1 c2) txs
                   = maxDate (host := atClock h c1' c2') txs').
    { rewrite !maxDate_atClock by assumption.
      now apply (maxDate_perm (host := h)). }
    unfold monthsDiff, daysDiff. rewrite Hmin, Hmax. split; reflexivity.
Qed.

(** C4, the claim as it is written fails, in three ways.  Swapping the
    two rows of [statementC4] swaps the two transactions in the list
    [transactions] of the result.  A statement without a valid date gets
    the time of the run as its date range, so that two runs on the same
    rows differ.  And in the arithmetic of the code the credits 0.1, 0.2
    and 0.3 add up to 0.6000000000000001 in this order and to 0.6 in the
    opposite order. *)
Lemma C4_counterexample :
  Permutation statementC4 (rev statementC4) /\
  analyzeTransactions (host := Iso.host) statementC4 <>
  analyzeTransactions (host := Iso.host) (rev statementC4) /\
  transactions (analyzeTransactions (host := Iso.host) statementC4) =
    [mkTransaction (ofZ 50000) income "credit" "2024-01-05";
     mkTransaction (ofZ 12000) expense "debit" "2024-01-10"] /\
  transactions (analyzeTransactions (host := Iso.host) (rev statementC4)) =
    [mkTransaction (ofZ 12000) expense "debit" "2024-01-10";
     mkTransaction (ofZ 50000) income "credit" "2024-01-05"] /\
  r_start (dateRange (analyzeTransactions (host := atClock Iso.host 0 0)
                        statementUndated)) = 0 /\
  r_start (dateRange (analyzeTransactions (host := atClock Iso.host 1000 1000)
                        statementUndated)) = 1000 /\
  Permutation statementTenths (rev statementTenths) /\
  F64.acc_income (F64.processRows statementTenths)
    = F64.parseFloat "0.6000000000000001" /\
  F64.acc_income (F64.processRows (rev statementTenths))
    = F64.parseFloat "0.6" /\
  F64.eqb (F64.acc_income (F64.processRows statementTenths))
          (F64.acc_income (F64.processRows (rev statementTenths))) = false.
Proof.
  split; [apply Permutation_rev|].
  split.
  { intros E. apply (f_equal transactions) in E. vm_compute in E.
    discriminate. }
  split; [reflexivity|]. split; [reflexivity|].
  split; [reflexivity|]. split; [reflexivity|].
  split; [apply Permutation_rev|].
  vm_compute. repeat split.
Qed.

Lemma C4_witness :
  Permutation statementC4 (rev statementC4) /\
  transactionCount (analyzeTransactions (host := atClock Iso.host 0 0)
                      statementC4) =
  transactionCount (analyzeTransactions (host := atClock Iso.host 1000 1000)
                      (rev statementC4)).
Proof.
  split; [apply Permutation_rev|].
  apply (C4_order_independent_fields Iso.host 0 0 1000 1000
           statementC4 (rev statementC4)).
  apply Permutation_rev.
Defined.

(* ================================================================== *)
(** * Scenarios of the specification *)

(** A credit of 50,000 and a debit of 12,000. *)
Example scenario_totals :
  let a := analyzeTransactions (host := Iso.host) statementC4 in
  totalIncome a = ofZ 50000 /\ totalExpenses a = ofZ 12000 /\
  savings a = ofZ 38000 /\ savingsPerMonth a = ofZ 38000 /\
  savingsRate a = ofZ 76.
Proof. vm_compute. repeat split. Qed.

(** The same statement is eligible, and the amount recommended is capped at
    100,000. *)
Example scenario_eligible :
  let e := checkEligibility
             (analyzeTransactions (host := Iso.host) statementC4) in
  eligible e = true /\ score e = ofZ 100 /\
  recommendedLoanAmount e = ofZ 100000 /\ riskLevel e = risk_very_low.
Proof. vm_compute. repeat split. Qed.

(** Two payments that share description and rounded amount make one
    recurring pattern, counted twice. *)
Example scenario_recurring :
  let a := analyzeTransactions (host := Iso.host) statementRecurring in
  map p_count
      (detectRecurringPayments (map classify statementRecurring)) = [2%nat] /\
  billPaymentRegularity a = ofZ 100 /\
  map type (transactions a) = [expense; expense].
Proof. vm_compute. repeat split. Qed.

(** The text of a statement: the header line is skipped, the line without
    a plausible amount is left out. *)
Example scenario_document :
  map pdf_amount
      (parsePDF
         (String.concat (String "010" "")
            ["Date Description Amount";
             "01/02/2024 Coffee shop -12.50";
             "Payment to ACME, Inc";
             "03/02/2024 Salary 5,000.00"]))
  = [Fin (-25 # 2); ofZ 5000].
Proof. vm_compute. reflexivity. Qed.

(* ================================================================== *)
(** * More on [checkEligibility] *)

Lemma riskOf_ofZ (n : Z) :
  riskOf (ofZ n) =
  if n <? 40 then risk_high
  else if n <? 60 then risk_medium
  else if n <? 80 then risk_low
  else risk_very_low.
Proof. unfold riskOf. now rewrite !lt_ofZ. Qed.

(** X1.  The score that [checkEligibility] reports is an integer between 0
    and 100, and the risk level is read off it: high below 40, medium
    below 60, low below 80, very low from 80 on. *)
Theorem X1_score_integer_and_risk (a : AnalysisResult) :
  exists n : Z,
    score (checkEligibility a) = ofZ n /\ 0 <= n <= 100 /\
    riskLevel (checkEligibility a) =
      (if n <? 40 then risk_high
       else if n <? 60 then risk_medium
       else if n <? 80 then risk_low
       else risk_very_low).
Proof.
  destruct (finalScore_integer a) as [n [Hn Hr]].
  exists n. rewrite score_is_finalScore. split; [exact Hn|]. split; [exact Hr|].
  unfold checkEligibility. cbn [riskLevel]. rewrite Hn. apply riskOf_ofZ.
Qed.

Lemma rule1_income a t lo hi :
  gt (totalIncome a) (totalExpenses a) = true ->
  scoreIn lo hi t -> scoreIn (lo + 30) (hi + 35) (rule1 a t).
Proof. intros H. unfold rule1. rewrite H. score_rule. Qed.

Lemma rule2_above a t lo hi :
  gt (savingsPerMonth a) threshold = true ->
  scoreIn lo hi t -> scoreIn (lo + 25) (hi + 25) (rule2 a t).
Proof. intros H. unfold rule2. rewrite H. score_rule. Qed.

Lemma rule3_above a t lo hi :
  gt (savingsRate a) (ofZ 5) = true ->
  scoreIn lo hi t -> scoreIn (lo + 5) (hi + 15) (rule3 a t).
Proof.
  intros H. unfold rule3.
  assert (Hp : gt (savingsRate a) zero = true)
    by (apply (positive_above _ 5); [lia | exact H]).
  rewrite Hp. score_rule.
Qed.

Lemma rule9_no_debt a t :
  gt (monthlyDebtObligations a) zero = false -> rule9 a t = t.
Proof. intros H. unfold rule9. now rewrite H. Qed.

(** X2.  Without debt obligations the score threshold decides nothing: as
    soon as [savingsPerMonth] is above 10,000, [totalIncome] is above
    [totalExpenses] and [savingsRate] is above 5, the score is at least 62
    and the applicant is eligible. *)
Theorem X2_no_debt_three_conditions_suffice (a : AnalysisResult) :
  gt (monthlyDebtObligations a) zero = false ->
  gt (savingsPerMonth a) (ofZ 10000) = true ->
  gt (totalIncome a) (totalExpenses a) = true ->
  gt (savingsRate a) (ofZ 5) = true ->
  ge (score (checkEligibility a)) (ofZ 62) = true /\
  eligible (checkEligibility a) = true.
Proof.
  intros Hd Hs Hi Hr.
  assert (Hrun : scoreIn 62 115 (runRules a)).
  { unfold runRules. rewrite rule9_no_debt by exact Hd.
    apply (rule8_score a _ 62 110), (rule7_score a _ 60 105),
      (rule6_score a _ 60 95), (rule5_score a _ 60 85),
      (rule4_score a _ 60 75), (rule3_above a _ 55 60 Hr),
      (rule2_above a _ 30 35 Hs), (rule1_income a _ 0 0 Hi).
    exists 0. split; [reflexivity | lia]. }
  destruct Hrun as [n [Hn Hb]].
  assert (Hf : finalScore a = ofZ (Z.max 0 (Z.min 100 n))).
  { unfold finalScore. rewrite Hn, Math_min_ofZ. unfold zero.
    now rewrite Math_max_ofZ. }
  rewrite score_is_finalScore. unfold checkEligibility. cbn [eligible].
  rewrite Hf. unfold ge, threshold. rewrite !le_ofZ.
  fold (gt (savingsPerMonth a) (ofZ 10000)).
  rewrite Hs, Hi, Hr.
  split; [|rewrite !andb_true_r]; apply Z.leb_le; lia.
Qed.

Lemma X2_witness :
  gt (monthlyDebtObligations analysisC2) zero = false /\
  eligible (checkEligibility analysisC2) = true.
Proof.
  split; [reflexivity|].
  apply (X2_no_debt_three_conditions_suffice analysisC2); reflexivity.
Defined.

Lemma keepsStrengths_refl t : keepsStrengths t t.
Proof. exists []. now rewrite app_nil_r. Qed.

Lemma keepsStrengths_trans t1 t2 t3 :
  keepsStrengths t1 t2 -> keepsStrengths t2 t3 -> keepsStrengths t1 t3.
Proof.
  intros [l1 H1] [l2 H2]. exists (l1 ++ l2)%list.
  now rewrite H2, H1, app_assoc.
Qed.

Ltac keeps_rule :=
  unfold keepsStrengths;
  repeat break_match;
  cbn [t_strengths points strength warning];
  rewrite <- ?app_assoc; eexists; try reflexivity;
  symmetry; apply app_nil_r.

Lemma rule1_keeps a t : keepsStrengths t (rule1 a t).
Proof. unfold rule1. keeps_rule. Qed.
Lemma rule2_keeps a t : keepsStrengths t (rule2 a t).
Proof. unfold rule2. keeps_rule. Qed.
Lemma rule3_keeps a t : keepsStrengths t (rule3 a t).
Proof. unfold rule3. keeps_rule. Qed.
Lemma rule4_keeps a t : keepsStrengths t (rule4 a t).
Proof. unfold rule4. keeps_rule. Qed.
Lemma rule5_keeps a t : keepsStrengths t (rule5 a t).
Proof. unfold rule5. keeps_rule. Qed.
Lemma rule6_keeps a t : keepsStrengths t (rule6 a t).
Proof. unfold rule6. keeps_rule. Qed.
Lemma rule7_keeps a t : keepsStrengths t (rule7 a t).
Proof. unfold rule7. keeps_rule. Qed.
Lemma rule8_keeps a t : keepsStrengths t (rule8 a t).
Proof. unfold rule8. keeps_rule. Qed.
Lemma rule9_keeps a t : keepsStrengths t (rule9 a t).
Proof. unfold rule9. keeps_rule. Qed.

Lemma rule1_first_strength a :
  gt (totalIncome a) (totalExpenses a) = true ->
  exists l, t_strengths (rule1 a (mkTally zero [] [])) =
            IncomeExceedsExpenses :: l.
Proof.
  intros H. unfold rule1. rewrite H.
  repeat break_match; cbn [t_strengths points strength warning];
    eexists; reflexivity.
Qed.

Lemma runRules_first_strength a :
  gt (totalIncome a) (totalExpenses a) = true ->
  exists l, t_strengths (runRules a) = IncomeExceedsExpenses :: l.
Proof.
  intros H. destruct (rule1_first_strength a H) as [l1 H1].
  assert (K : keepsStrengths (rule1 a (mkTally zero [] [])) (runRules a)).
  { unfold runRules.
    repeat (eapply keepsStrengths_trans;
            [|first [apply rule9_keeps | apply rule8_keeps
                    | apply rule7_keeps | apply rule6_keeps
                    | apply rule5_keeps | apply rule4_keeps
                    | apply rule3_keeps | apply rule2_keeps]]).
    apply keepsStrengths_refl. }
  destruct K as [l K]. rewrite K, H1. simpl. eauto.
Qed.

(** X3.  The list [reasons] of the result is never empty.  For an eligible
    applicant it is the list of strengths, which starts with the text on
    income exceeding expenses; otherwise it is the list of warnings, or the
    one text on insufficient criteria when there is no warning. *)
Theorem X3_reasons_never_empty (a : AnalysisResult) :
  reasons (checkEligibility a) <> [] /\
  (eligible (checkEligibility a) = true ->
   reasons (checkEligibility a) = strengths (checkEligibility a) /\
   exists l, reasons (checkEligibility a) = IncomeExceedsExpenses :: l) /\
  (eligible (checkEligibility a) = false ->
   reasons (checkEligibility a) = warnings (checkEligibility a) \/
   warnings (checkEligibility a) = [] /\
   reasons (checkEligibility a) = [InsufficientCriteria]).
Proof.
  unfold checkEligibility. cbn [reasons eligible strengths warnings].
  set (el := _ && _ && _ && _).
  destruct el eqn:E.
  - subst el. apply andb_true_iff in E as [E _].
    apply andb_true_iff in E as [_ E].
    destruct (runRules_first_strength a E) as [l Hl].
    split; [rewrite Hl; discriminate|].
    split; [intros _; split; eauto | discriminate].
  - split; [destruct (t_warnings (runRules a)); discriminate|].
    split; [discriminate|]. intros _.
    destruct (t_warnings (runRules a)); auto.
Qed.

(** X4.  An eligible applicant is never rated as a high or medium risk:
    the risk level is low or very low. *)
Theorem X4_eligible_risk_is_low (a : AnalysisResult) :
  eligible (checkEligibility a) = true ->
  riskLevel (checkEligibility a) = risk_low \/
  riskLevel (checkEligibility a) = risk_very_low.
Proof.
  destruct (finalScore_integer a) as [n [Hn Hr]].
  unfold checkEligibility. cbn [riskLevel eligible]. rewrite Hn.
  rewrite !andb_true_iff. intros [[[Hs _] _] _].
  unfold ge in Hs. rewrite le_ofZ in Hs. apply Z.leb_le in Hs.
  rewrite riskOf_ofZ.
  destruct (n <? 40) eqn:E1; [apply Z.ltb_lt in E1; lia|].
  destruct (n <? 60) eqn:E2; [apply Z.ltb_lt in E2; lia|].
  destruct (n <? 80); auto.
Qed.

Lemma X4_witness :
  eligible (checkEligibility analysisC2) = true /\
  (riskLevel (checkEligibility analysisC2) = risk_low \/
   riskLevel (checkEligibility analysisC2) = risk_very_low).
Proof.
  split; [reflexivity|].
  apply (X4_eligible_risk_is_low analysisC2). reflexivity.
Defined.

Lemma Qfloor_half_range (x : Q) (lo hi : Z) :
  (inject_Z lo <= x)%Q -> (x <= inject_Z hi)%Q ->
  lo <= Qfloor (x + (1 # 2)) <= hi.
Proof.
  intros Hlo Hhi. split.
  - rewrite <- (Qfloor_Z lo). apply Qfloor_resp_le.
    apply Qle_trans with (y := x); auto.
    rewrite <- (Qplus_0_r x) at 1. apply Qplus_le_compat;
      [apply Qle_refl | discriminate].
  - assert (Hh : Qfloor (inject_Z hi + (1 # 2)) = hi).
    { unfold Qfloor, Qplus, inject_Z. simpl.
      symmetry. apply (Z.div_unique _ _ _ 1); lia. }
    apply Z.le_trans with (m := Qfloor (inject_Z hi + (1 # 2)));
      [|rewrite Hh; apply Z.le_refl].
    apply Qfloor_resp_le.
    apply Qplus_le_compat; [exact Hhi | apply Qle_refl].
Qed.

(** The value computed for an eligible applicant is above 18,000 and at
    most 100,000. *)
Lemma eligible_recommended_range (a : AnalysisResult) :
  eligible (checkEligibility a) = true ->
  exists x, recommendedAmount a = Fin x /\
            (inject_Z 18000 <= x)%Q /\ (x <= inject_Z 100000)%Q.
Proof.
  unfold checkEligibility. cbn [eligible]. rewrite !andb_true_iff.
  intros [[[Hs Hm] _] _].
  destruct (finalScore_integer a) as [n [Hn Hr]].
  unfold recommendedAmount. rewrite Hn in *.
  unfold ge in Hs. rewrite le_ofZ in Hs. apply Z.leb_le in Hs.
  unfold threshold, gt in Hm.
  assert (Hpct : div (ofZ n) (ofZ 100) = fin ((n # 1) / (100 # 1)))
    by reflexivity.
  rewrite Hpct.
  assert (H60 : ((60 # 100) <= (n # 1) / (100 # 1))%Q).
  { apply Qle_shift_div_l; [reflexivity|]. unfold Qle. simpl. lia. }
  destruct (savingsPerMonth a) as [q| | |]; try discriminate.
  - unfold lt, ofZ in Hm. apply Qltb_true in Hm.
    set (v := (Qred (Qred (q * (3 # 1)) * Qred ((n # 1) / (100 # 1))))%Q).
    assert (Hmul : mul (mul (Fin q) (ofZ 3)) (fin ((n # 1) / (100 # 1)))
                   = Fin v) by reflexivity.
    rewrite Hmul.
    assert (Hv : (inject_Z 18000 <= v)%Q).
    { subst v. rewrite !Qred_correct.
      apply Qle_trans with (y := ((10000 # 1) * (3 # 1) * (60 # 100))%Q);
        [vm_compute; discriminate|].
      apply Qmult_le_compat_nonneg.
      - split; [vm_compute; discriminate|].
        apply Qmult_le_compat_r;
          [now apply Qlt_le_weak | vm_compute; discriminate].
      - split; [vm_compute; discriminate | exact H60]. }
    unfold Math_min, ofZ. cbv iota.
    destruct (lt (Fin (100000 # 1)) (Fin v)) eqn:E.
    + exists (100000 # 1)%Q.
      repeat split; vm_compute; discriminate.
    + exists v. repeat split; auto.
      unfold lt in E. now apply Qltb_false in E.
  - assert (Hmul : mul (mul PInf (ofZ 3)) (fin ((n # 1) / (100 # 1)))
                   = infOfSign (Qred ((n # 1) / (100 # 1))))
      by reflexivity.
    rewrite Hmul, infOfSign_pos.
    + exists (100000 # 1)%Q.
      repeat split; vm_compute; discriminate.
    + rewrite Qred_correct.
      apply Qlt_le_trans with (y := (60 # 100)%Q); [reflexivity | exact H60].
Qed.

(** X5.  For an eligible applicant the recommended loan amount is an
    integer between 18,000 and 100,000, and it is also the maximum loan
    amount; for any other applicant the recommended amount is 0. *)
Theorem X5_eligible_amount_between_18000_and_100000 (a : AnalysisResult) :
  (eligible (checkEligibility a) = true ->
   exists m : Z,
     recommendedLoanAmount (checkEligibility a) = ofZ m /\
     maxLoanAmount (checkEligibility a) = ofZ m /\
     18000 <= m <= 100000) /\
  (eligible (checkEligibility a) = false ->
   recommendedLoanAmount (checkEligibility a) = zero).
Proof.
  split; intros E.
  - destruct (eligible_recommended_range a E) as [x [Hx [H1 H2]]].
    pose proof (eligible_recommended_positive a E) as Hp.
    unfold checkEligibility in *. cbn [recommendedLoanAmount maxLoanAmount
                                        eligible] in *.
    rewrite E. rewrite (Math_max_positive _ Hp). rewrite Hx.
    exists (Qfloor (x + (1 # 2))).
    split; [reflexivity|]. split; [reflexivity|].
    now apply Qfloor_half_range.
  - unfold checkEligibility in *. cbn [recommendedLoanAmount eligible] in *.
    now rewrite E.
Qed.

Lemma X5_witness :
  eligible (checkEligibility analysisC2) = true /\
  exists m : Z,
    recommendedLoanAmount (checkEligibility analysisC2) = ofZ m /\
    maxLoanAmount (checkEligibility analysisC2) = ofZ m /\
    18000 <= m <= 100000.
Proof.
  split; [reflexivity|].
  apply (X5_eligible_amount_between_18000_and_100000 analysisC2).
  reflexivity.
Defined.

(* ================================================================== *)
(** * More on [analyzeTransactions] *)

Lemma isNaN_clamp100 (x : number) : isNaN (clamp100 x) = isNaN x.
Proof.
  unfold clamp100, Math_min, Math_max, zero, ofZ.
  destruct x as [q| | |]; cbv iota; try reflexivity.
  - destruct (lt (Fin q) (Fin (100 # 1))); cbv iota;
      now destruct (lt _ _).
Qed.

Lemma clamp100_range (x : number) :
  isNaN x = false ->
  le zero (clamp100 x) = true /\ le (clamp100 x) (ofZ 100) = true.
Proof.
  unfold clamp100, Math_min, Math_max, zero, ofZ.
  destruct x as [q| | |]; try discriminate; intros _; cbv iota;
    try (split; reflexivity).
  destruct (lt (Fin q) (Fin (100 # 1))) eqn:E1; cbv iota.
  - destruct (lt (Fin (0 # 1)) (Fin q)) eqn:E2.
    + unfold lt, le in *. apply Qltb_true in E1, E2.
      split; apply Qleb_true; now apply Qlt_le_weak.
    + split; reflexivity.
  - split; reflexivity.
Qed.

Section Ranges.

Context {host : Host}.

Lemma daysDiff_integer (txs : list transaction) :
  exists d : Z, daysDiff txs = ofZ d /\ 1 <= d.
Proof.
  unfold daysDiff.
  assert (H : exists c, Math_ceil (div (ofZ (maxDate txs - minDate txs))
                                     (ofZ (1000 * 60 * 60 * 24))) = ofZ c).
  { eexists. reflexivity. }
  destruct H as [c Hc]. rewrite Hc, Math_max_ofZ.
  eexists. split; [reflexivity | lia].
Qed.

Lemma monthsDiff_at_least_one (txs : list transaction) :
  exists m : Q, monthsDiff txs = Fin m /\ (1 <= m)%Q.
Proof.
  unfold monthsDiff. destruct (daysDiff_integer txs) as [d [Hd _]].
  rewrite Hd.
  assert (H : exists q, div (ofZ d) (ofZ 30) = Fin q)
    by (eexists; reflexivity).
  destruct H as [q Hq]. rewrite Hq. unfold Math_max, ofZ. cbv iota.
  destruct (lt (Fin (1 # 1)) (Fin q)) eqn:E.
  - exists q. split; auto. unfold lt in E. apply Qltb_true in E.
    now apply Qlt_le_weak.
  - exists (1 # 1)%Q. split; auto. apply Qle_refl.
Qed.

(** X6.  Whatever the statement, the result of the analysis has
    [billPaymentRegularity] equal to 50 or to 100, an account age of at
    least one month, a date range of a whole number of days that is at
    least 1, and the two scores [incomeConsistency] and
    [spendingVolatility] between 0 and 100 unless they are [NaN]. *)
Theorem X6_analysis_ranges (data : list row) :
  let a := analyzeTransactions data in
  (billPaymentRegularity a = ofZ 50 \/ billPaymentRegularity a = ofZ 100) /\
  (exists m : Q, accountAgeMonths a = Fin m /\ (1 <= m)%Q) /\
  (exists d : Z, r_days (dateRange a) = ofZ d /\ 1 <= d) /\
  (isNaN (incomeConsistency a) = false ->
   le zero (incomeConsistency a) = true /\
   le (incomeConsistency a) (ofZ 100) = true) /\
  (isNaN (spendingVolatility a) = false ->
   le zero (spendingVolatility a) = true /\
   le (spendingVolatility a) (ofZ 100) = true).
Proof.
  cbv zeta. unfold analyzeTransactions, summarize.
  cbn [billPaymentRegularity accountAgeMonths dateRange r_days
       incomeConsistency spendingVolatility].
  split; [destruct (0 <? _)%nat; auto|].
  split; [apply monthsDiff_at_least_one|].
  split; [apply daysDiff_integer|].
  split; intros H; rewrite isNaN_clamp100 in H; now apply clamp100_range.
Qed.

End Ranges.

Lemma filter_filter_comm {A : Type} (f g : A -> bool) (l : list A) :
  filter f (filter g l) = filter g (filter f l).
Proof.
  induction l as [|x l IH]; simpl; auto.
  destruct (f x) eqn:Ef, (g x) eqn:Eg; simpl; rewrite ?Ef, ?Eg, IH; auto.
Qed.

Lemma filter_implied {A : Type} (f g : A -> bool) (l : list A) :
  (forall x, f x = true -> g x = true) ->
  filter f (filter g l) = filter f l.
Proof.
  intros H. induction l as [|x l IH]; simpl; auto.
  destruct (g x) eqn:Eg; simpl.
  - destruct (f x); now rewrite IH.
  - destruct (f x) eqn:Ef; auto. apply H in Ef. congruence.
Qed.

(** Adding [x] at the one place of [k0] in a sum over distinct keys. *)
Lemma sum_bump (g : string -> number) (x : number) (k0 : string)
    (ks : list string) :
  NoDup ks -> In k0 ks ->
  sum (map (fun k => if String.eqb k0 k then add x (g k) else g k) ks) =
  add x (sum (map g ks)).
Proof.
  induction 1 as [|k ks Hn Hd IH]; intros Hin; [contradiction|].
  cbn [map]. rewrite !sum_cons.
  destruct (String.eqb_spec k0 k) as [->|Hne].
  - rewrite <- add_assoc. f_equal. f_equal. f_equal.
    apply map_ext_in. intros k' Hk'.
    destruct (String.eqb_spec k k') as [->|_]; [contradiction | reflexivity].
  - destruct Hin as [->|Hin]; [congruence|].
    rewrite (IH Hin), !add_assoc. f_equal. apply add_comm.
Qed.

Section Breakdown.

Context {host : Host}.

Lemma inKey_validDated (k : string) (t : transaction) :
  inKey k t = true -> validDated t = true.
Proof. unfold inKey, validDated. now destruct (keyOf t). Qed.

Lemma inKey_keyOf (k : string) (t : transaction) :
  inKey k t = true <-> keyOf t = Some k.
Proof.
  unfold inKey. destruct (keyOf t) as [k'|]; [|split; discriminate].
  rewrite String.eqb_eq. split; congruence.
Qed.

(** The sums by month add up to the sum over the transactions that have a
    month among the keys. *)
Lemma sum_by_month (ks : list string) (l : list transaction) :
  NoDup ks ->
  (forall t, In t l -> exists k, In k ks /\ keyOf t = Some k) ->
  sum (map (fun k => sum (amounts (filter (inKey k) l))) ks) =
  sum (amounts l).
Proof.
  intros Hd. induction l as [|t l IH]; intros Hk.
  - cbn [filter amounts map]. apply sum_of_zeros.
    apply Forall_map, Forall_forall. intros k _. reflexivity.
  - destruct (Hk t) as [k0 [Hin Hk0]]; [now left|].
    unfold amounts in *. cbn [map]. rewrite sum_cons.
    rewrite <- IH by (intros t' Ht'; apply Hk; now right).
    rewrite <- (sum_bump _ (amount t) k0 ks Hd Hin).
    f_equal. apply map_ext. intros k. cbn [filter].
    unfold inKey at 1. rewrite Hk0.
    destruct (String.eqb k0 k); [cbn [map]; apply sum_cons | reflexivity].
Qed.

Lemma breakdown_months (txs : list transaction) :
  map month (map (breakdownOf (monthlyData txs))
                 (sortStrings (map fst (monthlyData txs)))) =
  sortStrings (map fst (monthlyData txs)).
Proof. rewrite map_map. simpl. apply map_id. Qed.

(** X7.  The monthly breakdown has one entry for each month in which a
    transaction with a valid date falls, and no other; the entries come in
    ascending order of the month key, without repetition; each entry holds
    the sum of the income amounts and the sum of the expense amounts of
    the transactions of its month, and their difference. *)
Theorem X7_monthly_breakdown_by_month (data : list row) :
  let a := analyzeTransactions data in
  let txs := map classify data in
  StronglySorted sle (map month (monthlyBreakdown a)) /\
  NoDup (map month (monthlyBreakdown a)) /\
  (forall k, In k (map month (monthlyBreakdown a)) <->
             exists t, In t txs /\ keyOf t = Some k) /\
  (forall b, In b (monthlyBreakdown a) ->
     m_income b = sum (amounts (ofKind income (inMonth (month b) txs))) /\
     m_expenses b = sum (amounts (ofKind expense (inMonth (month b) txs))) /\
     m_savings b = sub (m_income b) (m_expenses b)).
Proof.
  cbv zeta. unfold analyzeTransactions. rewrite processRows_spec.
  unfold summarize. cbn [monthlyBreakdown acc_transactions].
  set (txs := map classify data).
  rewrite breakdown_months.
  pose proof (sortStrings_perm (map fst (monthlyData txs))) as P.
  repeat split.
  - apply sortStrings_sorted.
  - apply (Permutation_NoDup (Permutation_sym P)), NoDup_keys_monthlyData.
  - intros H. apply in_keys_monthlyData. now apply (Permutation_in _ P).
  - intros H. apply (Permutation_in _ (Permutation_sym P)).
    now apply in_keys_monthlyData.
  - apply in_map_iff in H as [k [<- _]]. unfold breakdownOf.
    cbn [m_income month]. now rewrite bucketAt_monthlyData.
  - apply in_map_iff in H as [k [<- _]]. unfold breakdownOf.
    cbn [m_expenses month]. now rewrite bucketAt_monthlyData.
  - apply in_map_iff in H as [k [<- _]]. reflexivity.
Qed.

End Breakdown.


(* ================================================================== *)
(** * More on [detectRecurringPayments] *)

Lemma madeFrom_more (txs : list transaction) (t : transaction)
    (e : string * pattern) :
  madeFrom txs e -> madeFrom (txs ++ [t]) e.
Proof.
  intros [t0 [H1 H2]]. exists t0. split; auto.
  apply in_or_app. now left.
Qed.

Lemma notePattern_madeFrom (txs : list transaction) (t : transaction)
    (ps : list (string * pattern)) :
  Forall (madeFrom txs) ps ->
  Forall (madeFrom (txs ++ [t])) (notePattern (patternKey t) t ps).
Proof.
  induction 1 as [|[k p] ps He Hps IH]; simpl.
  - constructor; [|constructor]. exists t. simpl.
    split; [apply in_or_app; right; now left | auto].
  - destruct (String.eqb k (patternKey t)).
    + constructor.
      * destruct He as [t0 [H1 [H2 [H3 H4]]]]. exists t0. simpl in *.
        split; [apply in_or_app; now left | auto].
      * revert Hps. apply Forall_impl. intros e. apply madeFrom_more.
    + constructor; auto using madeFrom_more.
Qed.

Lemma fold_madeFrom (txs done : list transaction)
    (ps : list (string * pattern)) :
  Forall (madeFrom done) ps ->
  Forall (madeFrom (done ++ txs))
    (fold_left (fun ps t => notePattern (patternKey t) t ps) txs ps).
Proof.
  revert done ps. induction txs as [|t txs IH]; intros done ps H; simpl.
  - now rewrite app_nil_r.
  - replace (done ++ t :: txs)%list with ((done ++ [t]) ++ txs)%list
      by now rewrite <- app_assoc.
    apply IH. now apply notePattern_madeFrom.
Qed.

Lemma allPatterns_madeFrom (txs : list transaction) :
  Forall (madeFrom txs) (allPatterns txs).
Proof. apply (fold_madeFrom txs [] []). constructor. Qed.

(** X9.  Every pattern that [detectRecurringPayments] returns stands for
    the transactions that share one key (the lower-cased description with
    the rounded amount): its count is the number of these transactions and
    is at least 2, and its description and amount are those of one of
    them.  Conversely, a transaction whose key is shared by two
    transactions or more has its pattern returned. *)
Theorem X9_recurring_patterns_count_shared_keys (txs : list transaction) :
  (forall p, In p (detectRecurringPayments txs) ->
     (2 <= p_count p)%nat /\
     exists t, In t txs /\
       p_count p = List.length (withKey (patternKey t) txs) /\
       p_description p = description t /\ p_amount p = amount t) /\
  (forall t, In t txs ->
     (2 <= List.length (withKey (patternKey t) txs))%nat ->
     exists p, In p (detectRecurringPayments txs) /\
       p_count p = List.length (withKey (patternKey t) txs)).
Proof.
  unfold detectRecurringPayments. fold (allPatterns txs). split.
  - intros p Hp. apply filter_In in Hp as [Hp Hc]. apply Nat.leb_le in Hc.
    split; [exact Hc|].
    apply in_map_iff in Hp as [[k p'] [Hk Hin]]. simpl in Hk. subst p'.
    pose proof (allPatterns_madeFrom txs) as Hm.
    rewrite Forall_forall in Hm.
    destruct (Hm _ Hin) as [t [H1 [H2 [H3 H4]]]]. simpl in *.
    exists t. repeat split; auto.
    rewrite H2, <- countAt_allPatterns. symmetry.
    apply countAt_in; auto using NoDup_keys_allPatterns.
  - intros t Ht Hc. rewrite <- countAt_allPatterns in *.
    destruct (countAt_positive (patternKey t) (allPatterns txs))
      as [p [H1 H2]]; [lia|].
    exists p. split; auto. apply filter_In. split.
    + apply in_map_iff. now exists (patternKey t, p).
    + apply Nat.leb_le. lia.
Qed.

Lemma X9_witness :
  In (classify (hd [] statementRecurring)) (map classify statementRecurring) /\
  (2 <= List.length
          (withKey (patternKey (classify (hd [] statementRecurring)))
                   (map classify statementRecurring)))%nat /\
  exists p, In p (detectRecurringPayments (map classify statementRecurring))
            /\ p_count p =
               List.length
                 (withKey (patternKey (classify (hd [] statementRecurring)))
                          (map classify statementRecurring)).
Proof.
  split; [left; reflexivity|]. split; [vm_compute; lia|].
  apply (proj2 (X9_recurring_patterns_count_shared_keys
                  (map classify statementRecurring))).
  - left. reflexivity.
  - vm_compute. lia.
Defined.

(* ================================================================== *)
(** * Debt, dates and the resolved amount *)

Lemma sum_by_test (f : transaction -> bool) (txs : list transaction) :
  sum (amounts txs) =
  add (sum (amounts (filter f txs)))
      (sum (amounts (filter (fun t => negb (f t)) txs))).
Proof.
  induction txs as [|t txs IH]; [reflexivity|].
  unfold amounts in *. simpl. rewrite sum_cons, IH.
  destruct (f t); simpl; rewrite sum_cons.
  - apply add_assoc.
  - rewrite !add_assoc. f_equal. apply add_comm.
Qed.

Lemma le_add_magnitude (x y : number) :
  magnitude x -> magnitude y -> le x (add x y) = true.
Proof.
  intros [_ Hx] [_ Hy].
  destruct x as [a| | |], y as [b| | |]; try discriminate; try reflexivity.
  unfold ge, le, zero, ofZ, add, fin in *.
  apply Qleb_true in Hx, Hy. apply Qleb_true. rewrite Qred_correct.
  rewrite <- (Qplus_0_r a) at 1.
  apply Qplus_le_compat; [apply Qle_refl | exact Hy].
Qed.

Lemma magnitude_amounts (f : transaction -> bool) (data : list row) :
  Forall magnitude (amounts (filter f (map classify data))).
Proof.
  apply Forall_amounts, Forall_filter, Forall_map, Forall_forall.
  intros r _. apply magnitude_classify.
Qed.

Section DebtAndDates.

Context {host : Host}.

Lemma in_validTimes (txs : list transaction) (d : Z) :
  In d (validTimes txs) <-> exists t, In t txs /\ Date_parse (date t) = Some d.
Proof. unfold validTimes. apply in_collect. Qed.

(** X11.  When some transaction has a valid date, the date range starts at
    the earliest valid date of the statement and ends at the latest: both
    ends are dates of transactions, every valid date lies between them,
    and the start is not after the end. *)
Theorem X11_date_range_spans_valid_dates (data : list row) :
  let a := analyzeTransactions data in
  let txs := map classify data in
  validTimes txs <> [] ->
  (exists t, In t txs /\ Date_parse (date t) = Some (r_start (dateRange a)))
  /\
  (exists t, In t txs /\ Date_parse (date t) = Some (r_end (dateRange a)))
  /\
  (forall t d, In t txs -> Date_parse (date t) = Some d ->
               r_start (dateRange a) <= d <= r_end (dateRange a)) /\
  r_start (dateRange a) <= r_end (dateRange a).
Proof.
  cbv zeta. unfold analyzeTransactions. rewrite processRows_spec.
  unfold summarize. cbn [dateRange r_start r_end acc_transactions].
  set (txs := map classify data). intros Hne.
  unfold minDate, maxDate.
  pose proof (in_validTimes txs) as Hin.
  destruct (validTimes txs) as [|d ds]; [congruence|].
  destruct (minimum_spec d ds) as [M1 M2].
  destruct (maximum_spec d ds) as [X1 X2].
  assert (Hall : forall t d', In t txs -> Date_parse (date t) = Some d' ->
                 minimum d ds <= d' <= maximum d ds).
  { intros t d' Ht Hd.
    assert (In d' (d :: ds)) by (apply Hin; eauto).
    split; auto. }
  repeat split.
  - now apply Hin.
  - now apply Hin.
  - now apply (Hall t d0).
  - now apply (Hall t d0).
  - apply Hin in M1 as [t [Ht Hd]]. destruct (Hall t _ Ht Hd). lia.
Qed.

End DebtAndDates.

Lemma X11_witness :
  validTimes (host := Iso.host) (map classify statementC4) <> [] /\
  r_start (dateRange (analyzeTransactions (host := Iso.host) statementC4))
  <= r_end (dateRange (analyzeTransactions (host := Iso.host) statementC4)).
Proof.
  split; [vm_compute; discriminate|].
  apply (X11_date_range_spans_valid_dates (host := Iso.host) statementC4).
  vm_compute. discriminate.
Defined.

Lemma amountFromColumns_origin (cols : list string) (r : row) (a : number) :
  amountFromColumns cols r a = a \/
  amountFromColumns cols r a = zero \/
  exists k v, In (k, v) r /\ amountFromColumns cols r a = parseAmount v /\
              nonZero (parseAmount v) = true.
Proof.
  revert a. induction cols as [|col cols IH]; intros a; simpl; auto.
  destruct (columnValue col r) as [v|] eqn:E; [|apply IH].
  assert (Hin : exists k, In (k, v) r).
  { unfold columnValue in E.
    destruct (matchingKey col r) as [k|]; [|discriminate].
    destruct (Str.nonEmpty k); [|discriminate].
    destruct (lookup k r) as [v'|] eqn:El; [|discriminate].
    destruct (Str.nonEmpty v'); [|discriminate].
    injection E as ->. exists k.
    clear -El. induction r as [|[k0 v0] r IH]; [discriminate|].
    simpl in El. destruct (String.eqb_spec k0 k) as [->|_].
    - injection El as ->. now left.
    - right. auto. }
  destruct Hin as [k Hin].
  unfold Num.orElse.
  destruct (truthy (parseAmount v)) eqn:Et.
  - destruct (nonZero (parseAmount v)) eqn:En.
    + right. right. exists k, v. auto.
    + destruct (IH (parseAmount v)) as [H|[H|H]]; auto.
      right. left. rewrite H.
      unfold nonZero in En. apply negb_false_iff in En.
      destruct (parseAmount v) as [q| | |]; try discriminate.
      simpl in Et. unfold eqb, zero, ofZ in En. rewrite En in Et.
      discriminate.
  - replace (nonZero zero) with false by reflexivity.
    destruct (IH zero) as [H|[H|H]]; auto.
Qed.

Lemma scanFields_origin (r : row) (x : number) :
  scanFields r = Some x ->
  exists k v, In (k, v) r /\ x = parseAmount v /\ plausible x = true.
Proof.
  induction r as [|[k v] r IH]; simpl; [discriminate|].
  destruct (isSkippedKey k).
  - intros H. destruct (IH H) as [k' [v' [H1 H2]]]. exists k', v'. auto.
  - destruct (plausible (parseAmount v)) eqn:E.
    + intros [= <-]. exists k, v. auto.
    + intros H. destruct (IH H) as [k' [v' [H1 H2]]]. exists k', v'. auto.
Qed.

(** X12.  The amount resolved for a row is never made up: it is 0, or it
    is the number read by [parseFloat] (commas removed) in the value of
    one of the fields of the row, and then it is not 0 and not [NaN]. *)
Theorem X12_resolved_amount_comes_from_a_field (r : row) :
  resolveAmount r = zero \/
  exists k v, In (k, v) r /\ resolveAmount r = parseAmount v /\
              nonZero (resolveAmount r) = true /\
              isNaN (resolveAmount r) = false.
Proof.
  pose proof (proper_resolveAmount r) as [_ Hn].
  unfold resolveAmount in *.
  destruct (amountFromColumns_origin amountColumns r zero) as [H|[H|H]].
  - rewrite H in *. replace (eqb zero zero) with true in * by reflexivity.
    destruct (scanFields r) as [x|] eqn:E; auto.
    apply scanFields_origin in E as [k [v [H1 [H2 H3]]]].
    right. exists k, v. repeat split; auto.
    subst x. unfold plausible in H3.
    destruct (parseAmount v) as [q| | |]; try discriminate; auto.
    unfold nonZero, eqb, zero, ofZ, Math_abs, fin, gt, lt in *.
    apply andb_true_iff in H3 as [H3 _]. simpl in H3.
    apply Qltb_true in H3. rewrite Qred_correct in H3.
    apply negb_true_iff, Qeqb_false. intros Hq. rewrite Hq in H3.
    now apply Qlt_irrefl in H3.
  - rewrite H in *. replace (eqb zero zero) with true in * by reflexivity.
    destruct (scanFields r) as [x|] eqn:E; auto.
    apply scanFields_origin in E as [k [v [H1 [H2 H3]]]].
    right. exists k, v. repeat split; auto.
    subst x. unfold plausible in H3.
    destruct (parseAmount v) as [q| | |]; try discriminate; auto.
    unfold nonZero, eqb, zero, ofZ, Math_abs, fin, gt, lt in *.
    apply andb_true_iff in H3 as [H3 _]. simpl in H3.
    apply Qltb_true in H3. rewrite Qred_correct in H3.
    apply negb_true_iff, Qeqb_false. intros Hq. rewrite Hq in H3.
    now apply Qlt_irrefl in H3.
  - destruct H as [k [v [H1 [H2 H3]]]]. rewrite H2 in *.
    unfold nonZero in H3. apply negb_true_iff in H3. rewrite H3 in *.
    right. exists k, v. repeat split; auto.
    unfold nonZero. now rewrite H3.
Qed.

(* ================================================================== *)
(** * The savings rate *)

Lemma magnitude_Fin (q : Q) : magnitude (Fin q) -> (0 <= q)%Q.
Proof. intros [_ H]. unfold ge, le, zero, ofZ in H. now apply Qleb_true in H. Qed.

Lemma div_Fin (a b : Q) : ~ (b == 0)%Q -> div (Fin a) (Fin b) = fin (a / b).
Proof.
  intros H. unfold div. apply Qeqb_false in H. now rewrite H.
Qed.

Lemma gt_fin_zero (q : Q) : gt (fin q) zero = true <-> (0 < q)%Q.
Proof.
  unfold gt, lt, fin, zero, ofZ. rewrite Qltb_true, Qred_correct. tauto.
Qed.

Section SavingsRate.

Context {host : Host}.

Lemma magnitude_totalIncome (data : list row) :
  magnitude (totalIncome (analyzeTransactions data)).
Proof.
  rewrite analyze_totalIncome. apply magnitude_sum, magnitude_amounts.
Qed.

Lemma magnitude_totalExpenses (data : list row) :
  magnitude (totalExpenses (analyzeTransactions data)).
Proof.
  rewrite analyze_totalExpenses. apply magnitude_sum, magnitude_amounts.
Qed.

(** In the arithmetic of [number]: the monthly savings are the savings
    divided by the age of the account, and with a positive total income
    the savings rate is the savings as a percentage of the total income,
    at most 100. *)
Lemma savingsRate_value (data : list row) :
  let a := analyzeTransactions data in
  finite (totalIncome a) = true ->
  finite (totalExpenses a) = true ->
  savingsPerMonth a = div (savings a) (accountAgeMonths a) /\
  (gt (totalIncome a) zero = true ->
   savingsRate a = mul (div (savings a) (totalIncome a)) (ofZ 100) /\
   le (savingsRate a) (ofZ 100) = true) /\
  (gt (totalIncome a) zero = false -> savingsRate a = zero).
Proof.
  cbv zeta.
  pose proof (magnitude_totalIncome data) as Mi.
  pose proof (magnitude_totalExpenses data) as Me.
  revert Mi Me.
  unfold analyzeTransactions, summarize.
  cbn [totalIncome totalExpenses savings savingsPerMonth savingsRate
       accountAgeMonths].
  set (acc := processRows data).
  destruct (monthsDiff_at_least_one (acc_transactions acc)) as [m [Hm Hm1]].
  rewrite Hm.
  destruct (acc_income acc) as [i| | |]; try discriminate.
  destruct (acc_expenses acc) as [e| | |]; try discriminate.
  intros Mi Me _ _.
  apply magnitude_Fin in Mi, Me.
  assert (Hm0 : ~ (m == 0)%Q).
  { intros H. rewrite H in Hm1. apply (Qle_not_lt _ _ Hm1). reflexivity. }
  assert (Hmp : (0 < m)%Q).
  { apply Qlt_le_trans with (1 # 1)%Q; [reflexivity | exact Hm1]. }
  rewrite !div_Fin by exact Hm0.
  assert (Hspm : sub (fin (i / m)) (fin (e / m)) = fin ((i - e) / m)).
  { unfold sub. apply fin_ext. unfold fin. rewrite !Qred_correct. field.
    exact Hm0. }
  rewrite Hspm.
  assert (Hsav : sub (Fin i) (Fin e) = fin (i - e)) by reflexivity.
  rewrite Hsav.
  split.
  { unfold fin at 2. rewrite div_Fin by exact Hm0.
    apply fin_ext. now rewrite Qred_correct. }
  assert (Hgt : gt (fin (i / m)) zero = gt (Fin i) zero).
  { apply Bool.eq_true_iff_eq. rewrite gt_fin_zero.
    unfold gt, lt, zero, ofZ. rewrite Qltb_true. split; intros H.
    - apply Qmult_lt_r with (z := (/ m)%Q); [now apply Qinv_lt_0_compat|].
      now rewrite Qmult_0_l.
    - unfold Qdiv. rewrite <- (Qmult_0_l (/ m)).
      apply Qmult_lt_r; [now apply Qinv_lt_0_compat | exact H]. }
  rewrite Hgt. split.
  - intros Hi. rewrite Hi.
    assert (Hi0 : (0 < i)%Q).
    { unfold gt, lt, zero, ofZ in Hi. now apply Qltb_true in Hi. }
    assert (Hin : ~ (i == 0)%Q).
    { intros H. rewrite H in Hi0. now apply Qlt_irrefl in Hi0. }
    assert (Him : ~ (Qred (i / m) == 0)%Q).
    { rewrite Qred_correct. intros H. apply Hin.
      setoid_replace i with ((i / m) * m)%Q by (field; exact Hm0).
      rewrite H. ring. }
    assert (Hr : mul (div (fin ((i - e) / m)) (fin (i / m))) (ofZ 100)
                 = fin ((i - e) / i * 100)).
    { unfold fin at 1 2. rewrite div_Fin by exact Him.
      unfold mul, fin, ofZ. apply fin_ext. rewrite !Qred_correct.
      field. split; assumption. }
    rewrite Hr. split.
    + unfold fin at 2. rewrite div_Fin by exact Hin.
      unfold mul, fin, ofZ. apply fin_ext. now rewrite !Qred_correct.
    + unfold le, fin, ofZ. apply Qleb_true. rewrite Qred_correct.
      setoid_replace (100 # 1)%Q with (1 * 100)%Q by ring.
      apply Qmult_le_compat_r; [|discriminate].
      apply Qle_shift_div_r; [exact Hi0|].
      rewrite Qmult_1_l. rewrite <- (Qplus_0_r i) at 2.
      unfold Qminus. apply Qplus_le_r.
      setoid_replace 0%Q with (- 0)%Q by ring. now apply Qopp_le_compat.
  - intros Hi. now rewrite Hi.
Qed.

(** X13.  When the two totals are finite, the savings rate is a number
    that never exceeds 100, and it is 0 when the total income is 0. *)
Theorem X13_savings_rate_at_most_100 (data : list row) :
  let a := analyzeTransactions data in
  finite (totalIncome a) = true ->
  finite (totalExpenses a) = true ->
  isNaN (savingsRate a) = false /\
  le (savingsRate a) (ofZ 100) = true /\
  (totalIncome a = zero -> savingsRate a = zero).
Proof.
  cbv zeta. intros Hi He.
  destruct (savingsRate_value data Hi He)
    as (_ & Hpos & Hzero).
  assert (Hle : le (savingsRate (analyzeTransactions data)) (ofZ 100)
                = true).
  { destruct (gt (totalIncome (analyzeTransactions data)) zero) eqn:E.
    - now apply Hpos.
    - rewrite (Hzero eq_refl). reflexivity. }
  split; [|split].
  - destruct (savingsRate (analyzeTransactions data));
      [reflexivity | reflexivity | reflexivity | discriminate Hle].
  - exact Hle.
  - intros Hz. apply Hzero. now rewrite Hz.
Qed.

End SavingsRate.

Lemma X13_witness :
  finite (totalIncome (analyzeTransactions (host := Iso.host) statementC4))
    = true /\
  le (savingsRate (analyzeTransactions (host := Iso.host) statementC4))
     (ofZ 100) = true.
Proof.
  split; [reflexivity|].
  apply (X13_savings_rate_at_most_100 (host := Iso.host) statementC4);
    reflexivity.
Defined.

(* ================================================================== *)
(** * The transactions of a document *)

Lemma allChars_app (p : ascii -> bool) (a b : string) :
  allChars p (a ++ b) = allChars p a && allChars p b.
Proof.
  induction a as [|c a IH]; simpl; [reflexivity|].
  now rewrite IH, andb_assoc.
Qed.

Lemma allChars_revString (p : ascii -> bool) (acc : list ascii) :
  allChars p (Pdf.revString acc) = forallb p acc.
Proof.
  induction acc as [|c acc IH]; [reflexivity|].
  rewrite revString_cons, allChars_app, IH. simpl.
  rewrite andb_true_r. apply andb_comm.
Qed.

Lemma startAt_ok (c : ascii) :
  match Pdf.startAt c with
  | Pdf.Idle => True
  | Pdf.Sign c0 => amountChar c0 = true
  | Pdf.IntPart acc | Pdf.FracPart acc => forallb amountChar acc = true
  end.
Proof.
  unfold Pdf.startAt, amountChar.
  destruct (Pdf.isSign c) eqn:E1; [simpl; now rewrite E1|].
  destruct (Pdf.isDigitOrComma c) eqn:E2; simpl; auto.
  now rewrite E1, E2.
Qed.

Lemma scanAmounts_chars (s : string) : forall st,
  match st with
  | Pdf.Idle => True
  | Pdf.Sign c0 => amountChar c0 = true
  | Pdf.IntPart acc | Pdf.FracPart acc => forallb amountChar acc = true
  end ->
  Forall (fun m => allChars amountChar m = true) (fst (Pdf.scanAmounts st s)).
Proof.
  induction s as [|c s IH]; intros st Hst.
  - destruct st; simpl; constructor; auto.
    + now rewrite allChars_revString.
    + now rewrite allChars_revString.
  - assert (Hstart : Forall (fun m => allChars amountChar m = true)
                       (fst (Pdf.scanAmounts (Pdf.startAt c) s)))
      by apply IH, startAt_ok.
    destruct st as [|c0|acc|acc]; simpl.
    + destruct (Pdf.scanAmounts (Pdf.startAt c) s); exact Hstart.
    + destruct (Pdf.isDigitOrComma c) eqn:E.
      * apply IH. simpl. unfold amountChar at 1. rewrite E, orb_true_r.
        simpl. now rewrite Hst.
      * destruct (Pdf.scanAmounts (Pdf.startAt c) s); exact Hstart.
    + destruct (Pdf.isDigitOrComma c) eqn:E.
      * apply IH. simpl. unfold amountChar at 1. rewrite E, orb_true_r.
        simpl. exact Hst.
      * destruct (Ascii.eqb c ".") eqn:E2.
        -- apply IH. simpl. unfold amountChar at 1. rewrite E2, orb_true_r.
           exact Hst.
        -- destruct (Pdf.scanAmounts (Pdf.startAt c) s). simpl in *.
           constructor; auto. now rewrite allChars_revString.
    + destruct (Str.isDigit c) eqn:E.
      * apply IH. simpl. unfold amountChar at 1, Pdf.isDigitOrComma.
        rewrite E. rewrite orb_true_r. exact Hst.
      * destruct (Pdf.scanAmounts (Pdf.startAt c) s). simpl in *.
        constructor; auto. now rewrite allChars_revString.
Qed.

Lemma matchAmounts_chars (line : string) :
  Forall (fun m => allChars amountChar m = true) (matchAmounts line).
Proof. apply scanAmounts_chars. exact I. Qed.

Lemma allChars_stripCommas (p : ascii -> bool) (s : string) :
  allChars p s = true -> allChars p (Str.stripCommas s) = true.
Proof.
  induction s as [|c s IH]; simpl; auto.
  intros H. apply andb_true_iff in H as [H1 H2].
  destruct (Ascii.eqb c ","); simpl; auto. now rewrite H1, IH.
Qed.

Lemma allChars_trimStart (p : ascii -> bool) (s : string) :
  allChars p s = true -> allChars p (Str.trimStart s) = true.
Proof.
  induction s as [|c s IH]; simpl; auto.
  intros H. destruct (Str.isSpace c); [|exact H].
  apply andb_true_iff in H as [_ H]. auto.
Qed.

Lemma unsignedLiteral_no_infinity (s : string) :
  allChars amountChar s = true ->
  finite (unsignedLiteral s) = true \/ unsignedLiteral s = NaN.
Proof.
  intros H. unfold unsignedLiteral.
  assert (Hp : prefix "Infinity" s = false).
  { destruct s as [|c s]; [reflexivity|]. simpl in H.
    apply andb_true_iff in H as [H _].
    change (prefix "Infinity" (String c s))
      with (if ascii_dec "I" c then prefix "nfinity" s else false).
    destruct (ascii_dec "I" c) as [<-|]; [discriminate | reflexivity]. }
  rewrite Hp. destruct (spanDigits s) as [d1 r1].
  destruct (match r1 with String "." r => spanDigits r | _ => ([], r1) end)
    as [d2 r2].
  destruct d1, d2; auto; destruct (0 <=? _); auto.
Qed.

Lemma finite_neg (x : number) : finite (neg x) = finite x.
Proof. now destruct x. Qed.

Lemma parseFloat_token (s : string) :
  allChars amountChar s = true ->
  finite (parseFloat (Str.stripCommas s)) = true \/
  parseFloat (Str.stripCommas s) = NaN.
Proof.
  intros H. apply (allChars_stripCommas amountChar) in H.
  apply (allChars_trimStart amountChar) in H.
  unfold parseFloat. destruct (Str.trimStart (Str.stripCommas s)) as [|c r].
  - now apply unsignedLiteral_no_infinity.
  - assert (Hr : allChars amountChar r = true).
    { simpl in H. now apply andb_true_iff in H as [_ H]. }
    assert (Hcases :
      (c = "-"%char \/ c = "+"%char) \/
      (match String c r with
       | String "-" r0 => neg (unsignedLiteral r0)
       | String "+" r0 => unsignedLiteral r0
       | _ => unsignedLiteral (String c r)
       end = unsignedLiteral (String c r))).
    { destruct c as [[] [] [] [] [] [] [] []]; auto. }
    destruct Hcases as [[-> | ->] | ->].
    + destruct (unsignedLiteral_no_infinity r Hr) as [E|E].
      * left. now rewrite finite_neg.
      * right. now rewrite E.
    + now apply unsignedLiteral_no_infinity.
    + now apply unsignedLiteral_no_infinity.
Qed.

Lemma lastAmount_finite (line : string) :
  matchAmounts line <> [] ->
  finite (lastAmount line) = true \/ lastAmount line = NaN.
Proof.
  intros H. unfold lastAmount. apply parseFloat_token.
  pose proof (matchAmounts_chars line) as Hall.
  rewrite Forall_forall in Hall. apply Hall.
  destruct (matchAmounts line) as [|a l]; [congruence|].
  apply (@exists_last _ (a :: l)) in H as [l' [x ->]].
  rewrite last_last. apply in_or_app. right. now left.
Qed.

Lemma shortFieldThen_some (rest : string -> option nat) (s : string)
    (n : nat) :
  Pdf.shortFieldThen rest s = Some n -> (0 < n)%nat /\ s <> "".
Proof.
  unfold Pdf.shortFieldThen.
  assert (H : forall k,
    (if ((k <=? Pdf.countDigits s)%nat && Pdf.sepAt k s)%bool
     then option_map (fun m => (k + 1 + m)%nat) (rest (Str.drop (k + 1) s))
     else None) = Some n -> (0 < n)%nat /\ s <> "").
  { intros k. destruct (_ && _)%bool eqn:E; [|discriminate].
    apply andb_true_iff in E as [_ E].
    destruct (rest _); [|discriminate]. simpl. intros [= <-].
    split; [lia|]. intros ->. unfold Pdf.sepAt in E.
    now destruct k. }
  destruct (if ((2 <=? _)%nat && _)%bool then _ else _) eqn:E2.
  - intros [= <-]. now apply (H 2%nat).
  - apply (H 1%nat).
Qed.

Lemma findDate_nonempty (s d : string) :
  Pdf.findDate s = Some d -> d <> "".
Proof.
  induction s as [|c s IH]; simpl.
  - destruct (Pdf.matchDateAt "") as [n|] eqn:E; [|discriminate].
    apply shortFieldThen_some in E. now destruct E.
  - destruct (Pdf.matchDateAt (String c s)) as [n|] eqn:E; [|exact IH].
    apply shortFieldThen_some in E. destruct E as [Hn _].
    intros [= <-]. destruct n; [lia | discriminate].
Qed.

Lemma orElse_nonempty (a b : string) : b <> "" -> Str.orElse a b <> "".
Proof. destruct a; simpl; [auto | discriminate]. Qed.

Lemma amount_shape (v : number) :
  finite v = true \/ v = NaN ->
  negb (isNaN v) && gt (Math_abs v) zero = true ->
  exists q, v = Fin q /\ ~ (q == 0)%Q.
Proof.
  intros [Hf | ->] H; [|discriminate].
  destruct v as [q| | |]; try discriminate.
  exists q. split; [reflexivity|]. intros Hq.
  apply andb_true_iff in H as [_ H].
  unfold gt, lt, Math_abs, fin, zero, ofZ in H. apply Qltb_true in H.
  rewrite Qred_correct, Hq in H. now apply Qlt_irrefl in H.
Qed.

Lemma firstPassLine_shape (raw : string) (t : pdfTransaction) :
  firstPassLine raw = Some t ->
  (exists q, pdf_amount t = Fin q /\ ~ (q == 0)%Q) /\
  pdf_type t = (if gt (pdf_amount t) zero then "credit" else "debit") /\
  pdf_description t <> "" /\ pdf_date t <> "".
Proof.
  intros H. pose proof (firstPassLine_some raw t H) as (_ & Hm & Ha & Hp & _).
  apply lastAmount_finite in Hm. rewrite <- Ha in Hm, Hp.
  revert H. unfold firstPassLine.
  destruct (Pdf.isHeaderLine (Str.trim raw)); [discriminate|].
  destruct (matchAmounts (Str.trim raw)) as [|a0 rest]; [discriminate|].
  destruct (_ && _ && _); [|discriminate].
  destruct (0 <? String.length _)%nat eqn:Ed; [|discriminate].
  intros [= <-]. cbn [pdf_amount pdf_type pdf_description pdf_date] in *.
  split.
  { apply amount_shape; [exact Hm|]. unfold pdfPlausible in Hp.
    now apply andb_true_iff in Hp as [Hp _]. }
  split; [reflexivity|]. split.
  - destruct (Pdf.describe _ _ _); [discriminate | discriminate].
  - now apply orElse_nonempty.
Qed.

Lemma secondPassLine_shape (line : string) (t : pdfTransaction) :
  secondPassLine line = Some t ->
  (exists q, pdf_amount t = Fin q /\ ~ (q == 0)%Q) /\
  pdf_type t = (if gt (pdf_amount t) zero then "credit" else "debit") /\
  pdf_description t <> "" /\ pdf_date t <> "".
Proof.
  intros H. pose proof (secondPassLine_some line t H) as (Hm & Ha).
  apply lastAmount_finite in Hm. rewrite <- Ha in Hm.
  revert H. unfold secondPassLine.
  destruct (Pdf.findDate line) as [d|] eqn:Ed; [|discriminate].
  destruct (matchAmounts line) as [|a0 rest]; [discriminate|].
  destruct (_ && _) eqn:Ec; [|discriminate].
  intros [= <-]. cbn [pdf_amount pdf_type pdf_description pdf_date] in *.
  split; [now apply amount_shape|].
  split; [reflexivity|]. split.
  - now apply orElse_nonempty.
  - now apply findDate_nonempty in Ed.
Qed.

Lemma in_parsePDF (text : string) (t : pdfTransaction) :
  In t (parsePDF text) ->
  exists line, firstPassLine line = Some t \/ secondPassLine line = Some t.
Proof.
  unfold parsePDF. set (lines := filter _ _).
  destruct (collect firstPassLine lines) as [|t0 ts] eqn:E.
  - intros H. apply in_collect in H as [l [_ H]]. eauto.
  - rewrite <- E. intros H. apply in_collect in H as [l [_ H]]. eauto.
Qed.

Lemma nonzero_guard (x : number) :
  (exists q, x = Fin q /\ ~ (q == 0)%Q) ->
  isNaN x = false /\ gt (Math_abs x) zero = true.
Proof.
  intros [q [-> Hq]]. split; [reflexivity|].
  unfold gt, lt, Math_abs, fin, zero, ofZ. apply Qltb_true.
  rewrite Qred_correct.
  destruct (Qlt_le_dec 0 (Qabs q)) as [H|H]; [exact H|].
  exfalso. apply Hq. apply Qabs_Qle_condition in H as [H1 H2].
  apply Qle_antisym; [exact H2|].
  setoid_replace 0%Q with (- 0)%Q by ring. exact H1.
Qed.

(** X14.  Every transaction that [parsePDF] extracts has an amount that
    is a number other than 0 (never [NaN]), the type [credit] when the
    amount is positive and [debit] when it is negative, a description
    that is not empty and a date that is not empty. *)
Theorem X14_document_transactions_are_well_formed (text : string)
    (t : pdfTransaction) :
  In t (parsePDF text) ->
  isNaN (pdf_amount t) = false /\
  gt (Math_abs (pdf_amount t)) zero = true /\
  pdf_type t = (if gt (pdf_amount t) zero then "credit" else "debit") /\
  pdf_description t <> "" /\ pdf_date t <> "".
Proof.
  intros H.
  assert (Hs : (exists q, pdf_amount t = Fin q /\ ~ (q == 0)%Q) /\
               pdf_type t = (if gt (pdf_amount t) zero
                             then "credit" else "debit") /\
               pdf_description t <> "" /\ pdf_date t <> "").
  { apply in_parsePDF in H as [line [H|H]].
    - now apply firstPassLine_shape in H.
    - now apply secondPassLine_shape in H. }
  destruct Hs as (Hq & Hs). apply nonzero_guard in Hq. tauto.
Qed.

Lemma X14_witness :
  parsePDF statementText =
    [mkPdfTransaction "03/02/2024" "Grocery store" (Fin (-1250 # 1))
       "debit"] /\
  "Grocery store" <> "".
Proof.
  assert (E : parsePDF statementText =
    [mkPdfTransaction "03/02/2024" "Grocery store" (Fin (-1250 # 1))
       "debit"]) by (vm_compute; reflexivity).
  split; [exact E|].
  apply (X14_document_transactions_are_well_formed statementText
           (mkPdfTransaction "03/02/2024" "Grocery store" (Fin (-1250 # 1))
              "debit")).
  rewrite E. left. reflexivity.
Defined.

Lemma columnValue_amount (d desc v ty : string) :
  v <> "" ->
  columnValue "amount"
    [("date", d); ("description", desc); ("amount", v); ("type", ty)]
  = Some v.
Proof. intros H. destruct v; [congruence | reflexivity]. Qed.

Lemma columnValue_type (d desc v ty : string) :
  ty <> "" ->
  columnValue "type"
    [("date", d); ("description", desc); ("amount", v); ("type", ty)]
  = Some ty.
Proof. intros H. destruct ty; [congruence | reflexivity]. Qed.

Lemma columnValue_date (d desc v ty : string) :
  d <> "" ->
  columnValue "date"
    [("date", d); ("description", desc); ("amount", v); ("type", ty)]
  = Some d.
Proof. intros H. destruct d; [congruence | reflexivity]. Qed.

(** A row with the four fields of a document transaction, whose type is
    [credit] or [debit]: the transaction takes its type from that field
    and the type word as its description. *)
Lemma classify_documentRow (d desc v ty : string) (q : Q) :
  d <> "" ->
  ty = "credit" \/ ty = "debit" ->
  parseAmount v = Fin q ->
  ~ (q == 0)%Q ->
  classify [("date", d); ("description", desc); ("amount", v); ("type", ty)]
  = mkTransaction (Math_abs (Fin q))
      (if String.eqb ty "credit" then income else expense) ty d.
Proof.
  intros Hd Hty Hr Hq.
  assert (Hv : v <> "").
  { intros E. rewrite E in Hr. discriminate. }
  assert (Hty0 : ty <> "") by (destruct Hty as [-> | ->]; discriminate).
  set (r := [("date", d); ("description", desc); ("amount", v);
             ("type", ty)]).
  assert (Hz : eqb (Fin q) zero = false) by now apply Qeqb_false.
  assert (Hc : amountFromColumns amountColumns r zero = Fin q).
  { unfold amountColumns. cbn [amountFromColumns].
    unfold r at 1. rewrite columnValue_amount by exact Hv. rewrite Hr.
    assert (Ht : truthy (Fin q) = true).
    { simpl. apply negb_true_iff. now apply Qeqb_false. }
    unfold Num.orElse. rewrite Ht.
    unfold nonZero. now rewrite Hz. }
  assert (Ha : resolveAmount r = Fin q).
  { unfold resolveAmount. now rewrite Hc, Hz. }
  assert (Ht : resolveType r = ty).
  { unfold resolveType, typeColumns. cbn [firstColumn].
    unfold r. rewrite columnValue_type by exact Hty0.
    now destruct Hty as [-> | ->]. }
  assert (Hdt : resolveDate r = d).
  { unfold resolveDate, dateColumns. cbn [firstColumn].
    unfold r. now rewrite columnValue_date by exact Hd. }
  assert (Hk : kindOf r = if String.eqb ty "credit" then income else expense).
  { unfold kindOf, declaredType.
    replace (lookup "type" r) with (Some ty) by reflexivity.
    now destruct Hty as [-> | ->]. }
  unfold classify, pushed. rewrite Ha, Ht, Hdt, Hk.
  f_equal.
  - destruct ty; [congruence | reflexivity].
  - destruct d; [congruence | reflexivity].
Qed.

Section DocumentRows.

Context {host : Host}.

Variable render : number -> string.

Lemma classify_pdfRow (t : pdfTransaction) :
  (exists q, pdf_amount t = Fin q /\ ~ (q == 0)%Q) ->
  pdf_type t = (if gt (pdf_amount t) zero then "credit" else "debit") ->
  pdf_date t <> "" ->
  parseAmount (render (pdf_amount t)) = pdf_amount t ->
  classify (pdfRow render t) =
    mkTransaction (Math_abs (pdf_amount t))
      (if gt (pdf_amount t) zero then income else expense)
      (pdf_type t) (pdf_date t).
Proof.
  destruct t as [d desc am ty]. unfold pdfRow.
  cbn [pdf_amount pdf_type pdf_date pdf_description].
  intros [q [-> Hq]] Hty Hd Hr.
  rewrite (classify_documentRow d desc _ ty q Hd); auto.
  - rewrite Hty. now destruct (gt (Fin q) zero).
  - rewrite Hty. destruct (gt (Fin q) zero); auto.
Qed.

Lemma classify_pdfRows (ts : list pdfTransaction) :
  (forall t, In t ts ->
     (exists q, pdf_amount t = Fin q /\ ~ (q == 0)%Q) /\
     pdf_type t = (if gt (pdf_amount t) zero then "credit" else "debit") /\
     pdf_description t <> "" /\ pdf_date t <> "") ->
  (forall t, In t ts -> parseAmount (render (pdf_amount t)) = pdf_amount t) ->
  forall tx, In tx (map classify (map (pdfRow render) ts)) ->
  isDebt tx = false /\
  exists t, In t ts /\
    amount tx = Math_abs (pdf_amount t) /\
    date tx = pdf_date t /\
    description tx = pdf_type t /\
    (gt (pdf_amount t) zero = true /\ type tx = income /\
     description tx = "credit" \/
     gt (pdf_amount t) zero = false /\ type tx = expense /\
     description tx = "debit").
Proof.
  intros Hs Hr tx Htx. rewrite map_map in Htx.
  apply in_map_iff in Htx as [t [<- Ht]].
  destruct (Hs t Ht) as (Hq & Hty & _ & Hd).
  rewrite (classify_pdfRow t Hq Hty Hd (Hr t Ht)).
  split.
  - unfold isDebt. cbn [description]. rewrite Hty.
    now destruct (gt (pdf_amount t) zero).
  - exists t. cbn [amount date description type]. repeat split; auto.
    rewrite Hty. destruct (gt (pdf_amount t) zero); auto.
Qed.

Lemma analyze_totalDebt (data : list row) :
  totalDebtObligations (analyzeTransactions data) =
  sum (amounts (filter isDebt (map classify data))).
Proof.
  unfold analyzeTransactions. rewrite processRows_spec.
  unfold summarize. cbn [totalDebtObligations acc_transactions].
  now rewrite fold_amounts.
Qed.

Lemma analyze_monthlyDebt (data : list row) :
  totalDebtObligations (analyzeTransactions data) = zero ->
  monthlyDebtObligations (analyzeTransactions data) = zero.
Proof.
  unfold analyzeTransactions, summarize.
  cbn [totalDebtObligations monthlyDebtObligations]. intros ->.
  apply div_zero, divisor_monthsDiff.
Qed.

Lemma filter_none {A : Type} (f : A -> bool) (l : list A) :
  (forall x, In x l -> f x = false) -> filter f l = [].
Proof.
  induction l as [|x l IH]; intros H; [reflexivity|].
  simpl. rewrite (H x) by now left. apply IH. intros y Hy. apply H. now right.
Qed.

(** X15.  The rows that [parsePDF] hands to [analyzeTransactions] are
    typed by the sign of their amount, and the text of the line is not
    used: when the rendering of each amount reads back as the amount, the
    analysis counts one transaction for each transaction of the document,
    every transaction has the absolute value of the extracted amount and
    the extracted date, is an income with the description [credit] when
    the amount is positive and an expense with the description [debit]
    otherwise, and so the debt obligations of a document are always 0. *)
Theorem X15_document_rows_typed_by_sign (text : string) :
  (forall t, In t (parsePDF text) ->
     parseAmount (render (pdf_amount t)) = pdf_amount t) ->
  let a := analyzeTransactions (map (pdfRow render) (parsePDF text)) in
  transactionCount a = List.length (parsePDF text) /\
  (forall tx, In tx (map classify (map (pdfRow render) (parsePDF text))) ->
     exists t, In t (parsePDF text) /\
       amount tx = Math_abs (pdf_amount t) /\
       date tx = pdf_date t /\
       description tx = pdf_type t /\
       (gt (pdf_amount t) zero = true /\ type tx = income /\
        description tx = "credit" \/
        gt (pdf_amount t) zero = false /\ type tx = expense /\
        description tx = "debit")) /\
  totalDebtObligations a = zero /\
  monthlyDebtObligations a = zero.
Proof.
  intros Hr. cbv zeta.
  pose proof (classify_pdfRows (parsePDF text)) as Hc.
  assert (Hs : forall t, In t (parsePDF text) ->
     (exists q, pdf_amount t = Fin q /\ ~ (q == 0)%Q) /\
     pdf_type t = (if gt (pdf_amount t) zero then "credit" else "debit") /\
     pdf_description t <> "" /\ pdf_date t <> "").
  { intros t Ht. apply in_parsePDF in Ht as [line [H|H]].
    - now apply firstPassLine_shape in H.
    - now apply secondPassLine_shape in H. }
  specialize (Hc Hs Hr).
  assert (Hdebt : totalDebtObligations
            (analyzeTransactions (map (pdfRow render) (parsePDF text)))
          = zero).
  { rewrite analyze_totalDebt, filter_none; [reflexivity|].
    intros tx Htx. now apply Hc. }
  split; [rewrite analyze_transactionCount; apply length_map|].
  split; [intros tx Htx; now apply Hc|].
  split; [exact Hdebt | now apply analyze_monthlyDebt].
Qed.

End DocumentRows.

Lemma X15_witness :
  parseAmount (toString (Fin (-1250 # 1))) = Fin (-1250 # 1) /\
  totalDebtObligations
    (analyzeTransactions (host := Iso.host)
       (map (pdfRow toString) (parsePDF statementText))) = zero.
Proof.
  split; [vm_compute; reflexivity|].
  apply (X15_document_rows_typed_by_sign (host := Iso.host) toString
           statementText).
  assert (E : parsePDF statementText =
    [mkPdfTransaction "03/02/2024" "Grocery store" (Fin (-1250 # 1))
       "debit"]) by (vm_compute; reflexivity).
  rewrite E. intros t [<-|[]]. vm_compute. reflexivity.
Defined.

(* ================================================================== *)
(** * The transactions of an image *)

Lemma startUnsigned_ok (c : ascii) :
  match Ocr.startUnsigned c with
  | Ocr.UIdle => True
  | Ocr.UInt acc | Ocr.UFrac acc => forallb amountChar acc = true
  end.
Proof.
  unfold Ocr.startUnsigned, amountChar.
  destruct (Pdf.isDigitOrComma c) eqn:E; simpl; auto.
  now rewrite E, orb_true_r.
Qed.

Lemma scanUnsigned_chars (s : string) : forall st,
  match st with
  | Ocr.UIdle => True
  | Ocr.UInt acc | Ocr.UFrac acc => forallb amountChar acc = true
  end ->
  Forall (fun m => allChars amountChar m = true)
         (fst (Ocr.scanUnsigned st s)).
Proof.
  induction s as [|c s IH]; intros st Hst.
  - destruct st; simpl; constructor; auto;
      now rewrite allChars_revString.
  - assert (Hstart : Forall (fun m => allChars amountChar m = true)
                       (fst (Ocr.scanUnsigned (Ocr.startUnsigned c) s)))
      by apply IH, startUnsigned_ok.
    destruct st as [|acc|acc]; simpl.
    + destruct (Ocr.scanUnsigned (Ocr.startUnsigned c) s); exact Hstart.
    + destruct (Pdf.isDigitOrComma c) eqn:E.
      * apply IH. simpl. unfold amountChar at 1. rewrite E, orb_true_r.
        simpl. exact Hst.
      * destruct (Ascii.eqb c ".") eqn:E2.
        -- apply IH. simpl. unfold amountChar at 1. rewrite E2, orb_true_r.
           exact Hst.
        -- destruct (Ocr.scanUnsigned (Ocr.startUnsigned c) s). simpl in *.
           constructor; auto. now rewrite allChars_revString.
    + destruct (Str.isDigit c) eqn:E.
      * apply IH. simpl. unfold amountChar at 1, Pdf.isDigitOrComma.
        rewrite E. rewrite orb_true_r. exact Hst.
      * destruct (Ocr.scanUnsigned (Ocr.startUnsigned c) s). simpl in *.
        constructor; auto. now rewrite allChars_revString.
Qed.

Lemma positive_token (s : string) :
  allChars amountChar s = true ->
  negb (isNaN (parseFloat (Str.stripCommas s))) = true ->
  gt (parseFloat (Str.stripCommas s)) zero = true ->
  exists q, parseFloat (Str.stripCommas s) = Fin q /\ (0 < q)%Q /\
            Qred q = q.
Proof.
  intros H Hn Hp. pose proof (canon_parseFloat (Str.stripCommas s)) as Hc.
  destruct (parseFloat_token s H) as [Hf|Hf].
  - destruct (parseFloat _) as [q| | |]; try discriminate.
    exists q. split; [reflexivity|]. split; [|exact Hc].
    unfold gt, lt, zero, ofZ in Hp. now apply Qltb_true in Hp.
  - rewrite Hf in Hn. discriminate.
Qed.

(** An amount that [parseImage] can push: a finite number above 0. *)
Lemma cleanAmounts_positive (line : string) :
  Forall (fun x => exists q, x = Fin q /\ (0 < q)%Q /\ Qred q = q)
         (Ocr.cleanAmountsOf (Ocr.matchAmounts line)).
Proof.
  unfold Ocr.cleanAmountsOf. apply Forall_forall. intros x Hx.
  apply filter_In in Hx as [Hx Hc]. apply in_map_iff in Hx as [s [<- Hs]].
  apply andb_true_iff in Hc as [Hn Hp].
  apply positive_token; auto.
  pose proof (scanUnsigned_chars line Ocr.UIdle I) as Hall.
  rewrite Forall_forall in Hall. now apply Hall.
Qed.

Lemma pushed_amount (l : list number) (x : number) :
  Forall (fun x => exists q, x = Fin q /\ (0 < q)%Q /\ Qred q = q) l ->
  (x = zero \/ In x l) ->
  gt x zero = true ->
  exists q, x = Fin q /\ (0 < q)%Q /\ Qred q = q.
Proof.
  intros Hl [-> | Hx] Hp; [discriminate|].
  rewrite Forall_forall in Hl. now apply Hl.
Qed.

Lemma nth_zero_or_in (l : list number) (i : nat) :
  nth i l zero = zero \/ In (nth i l zero) l.
Proof.
  destruct (Nat.lt_ge_cases i (List.length l)) as [H|H].
  - right. now apply nth_In.
  - left. now apply nth_overflow.
Qed.

Lemma at_zero_or_in (l : list number) (i : nat) :
  Ocr.at_ l i = zero \/ In (Ocr.at_ l i) l.
Proof.
  unfold Ocr.at_, Num.orElse. destruct (truthy (nth i l zero)); auto.
  apply nth_zero_or_in.
Qed.

Lemma debitAndCredit_from (h : Ocr.header) (description : string)
    (l : list number) :
  let p := Ocr.debitAndCredit h description l in
  (fst p = zero \/ In (fst p) l) /\ (snd p = zero \/ In (snd p) l).
Proof.
  cbv zeta. unfold Ocr.debitAndCredit.
  pose proof (nth_zero_or_in l 0) as H0.
  repeat match goal with
         | |- context [if ?b then _ else _] => destruct b
         end; cbn [fst snd]; auto using at_zero_or_in.
Qed.

Lemma ocr_findDate_nonempty (s d : string) :
  Ocr.findDate s = Some d -> d <> "".
Proof.
  induction s as [|c s IH]; simpl.
  - destruct (Ocr.matchDateAt "") as [n|] eqn:E; [|discriminate].
    apply shortFieldThen_some in E. now destruct E.
  - destruct (Ocr.matchDateAt (String c s)) as [n|] eqn:E; [|exact IH].
    apply shortFieldThen_some in E. destruct E as [Hn _].
    intros [= <-]. destruct n; [lia | discriminate].
Qed.

Lemma mainPassLine_shape (h : Ocr.header) (raw : string)
    (t : Ocr.imgTransaction) :
  In t (Ocr.mainPassLine h raw) ->
  (exists q, Ocr.img_amount t = Fin q /\ (0 < q)%Q /\ Qred q = q) /\
  (Ocr.img_type t = "debit" \/ Ocr.img_type t = "credit") /\
  Ocr.img_description t <> "" /\ Ocr.img_date t <> "".
Proof.
  unfold Ocr.mainPassLine.
  destruct (Ocr.isHeaderLike (Str.trim raw)); [intros []|].
  destruct (Ocr.findDate (Str.trim raw)) as [d|]; [|intros []].
  destruct (String.length (Str.trim raw) <? 10)%nat; [intros []|].
  pose proof (cleanAmounts_positive (Str.trim raw)) as Hall.
  destruct (Ocr.matchAmounts (Str.trim raw)) as [|a0 rest]; [intros []|].
  destruct (Ocr.cleanAmountsOf (a0 :: rest)) as [|c0 crest] eqn:Ec;
    [intros []|].
  pose proof (debitAndCredit_from h
                (Pdf.describe (Str.trim raw) (Some d) (a0 :: rest))
                (c0 :: crest)) as Hp.
  cbv zeta in Hp.
  destruct (Ocr.debitAndCredit h _ (c0 :: crest)) as [debit credit].
  cbn [fst snd] in Hp. destruct Hp as [Hdeb Hcre].
  intros Ht. apply in_app_or in Ht as [Ht|Ht].
  - destruct (gt debit zero) eqn:E; [|destruct Ht].
    destruct Ht as [<-|[]]. cbn.
    split; [now apply (pushed_amount (c0 :: crest))|].
    split; [now left|].
    split; apply orElse_nonempty; discriminate.
  - destruct (gt credit zero) eqn:E; [|destruct Ht].
    destruct Ht as [<-|[]]. cbn.
    split; [now apply (pushed_amount (c0 :: crest))|].
    split; [now right|].
    split; apply orElse_nonempty; discriminate.
Qed.

Lemma fallbackLine_shape (raw : string) (t : Ocr.imgTransaction) :
  Ocr.fallbackLine raw = Some t ->
  (exists q, Ocr.img_amount t = Fin q /\ (0 < q)%Q /\ Qred q = q) /\
  (Ocr.img_type t = "debit" \/ Ocr.img_type t = "credit") /\
  Ocr.img_description t <> "" /\ Ocr.img_date t <> "".
Proof.
  unfold Ocr.fallbackLine.
  destruct (Ocr.findDate (Str.trim raw)) as [d|] eqn:Ed; [|discriminate].
  pose proof (scanUnsigned_chars (Str.trim raw) Ocr.UIdle I) as Hall.
  fold (Ocr.matchAmounts (Str.trim raw)) in Hall.
  destruct (Ocr.matchAmounts (Str.trim raw)) as [|a0 rest]; [discriminate|].
  apply Forall_inv in Hall. apply parseFloat_token in Hall.
  pose proof (canon_parseFloat (Str.stripCommas a0)) as Hcan.
  destruct (isNaN _ || le _ zero) eqn:Ec; [discriminate|].
  apply orb_false_iff in Ec as [Hn Hle].
  intros [= <-]. cbn.
  split.
  { destruct Hall as [Hf|Hf]; [|rewrite Hf in Hn; discriminate].
    destruct (parseFloat (Str.stripCommas a0)) as [q| | |];
      try discriminate.
    exists q. split; [reflexivity|]. split; [|exact Hcan].
    unfold le, zero, ofZ in Hle. apply Qnot_le_lt. intros Hq.
    apply Qleb_true in Hq. congruence. }
  split.
  { match goal with
    | |- context [if ?b then _ else _] => destruct b
    end; auto. }
  split; [apply orElse_nonempty; discriminate|].
  now apply ocr_findDate_nonempty in Ed.
Qed.

Lemma in_parseImage (text : string) (ts : list Ocr.imgTransaction)
    (t : Ocr.imgTransaction) :
  Ocr.parseImage text = Parsed ts -> In t ts ->
  exists line, (exists h, In t (Ocr.mainPassLine h line)) \/
               Ocr.fallbackLine line = Some t.
Proof.
  unfold Ocr.parseImage.
  destruct (String.length (Str.trim text) =? 0)%nat; [discriminate|].
  set (lines := filter _ _). set (h := Ocr.headerOf lines).
  set (start := match Ocr.headerIndex h with Some i => S i | None => O end).
  destruct (flat_map (Ocr.mainPassLine h) (skipn start lines))
    as [|t0 ts0] eqn:E.
  - intros [= <-] Ht. apply in_collect in Ht as [l [_ H]]. eauto.
  - rewrite <- E. intros [= <-] Ht. apply in_flat_map in Ht as [l [_ H]].
    eauto.
Qed.

Lemma positive_guard (x : number) :
  (exists q, x = Fin q /\ (0 < q)%Q /\ Qred q = q) ->
  gt x zero = true.
Proof.
  intros [q (-> & Hq & _)]. unfold gt, lt, zero, ofZ. now apply Qltb_true.
Qed.

(** X16.  From the recognised text on, [parseImage] fails on a text that
    is empty or blank, with the message that no text could be extracted,
    and on no other text.  Every transaction that it extracts has an
    amount above 0 (so never [NaN]), the type [debit] or [credit], a
    description that is not empty and a date that is not empty. *)
Theorem X16_image_transactions_are_well_formed (text : string) :
  match Ocr.parseImage text with
  | Failed message =>
      Str.trim text = "" /\ message = Ocr.noTextMessage
  | Parsed ts =>
      Str.trim text <> "" /\
      forall t, In t ts ->
        gt (Ocr.img_amount t) zero = true /\
        (Ocr.img_type t = "debit" \/ Ocr.img_type t = "credit") /\
        Ocr.img_description t <> "" /\ Ocr.img_date t <> ""
  end.
Proof.
  destruct (Ocr.parseImage text) as [ts|m] eqn:E.
  - split.
    + intros Ht. unfold Ocr.parseImage in E. rewrite Ht in E. discriminate.
    + intros t Ht.
      assert (H : (exists q, Ocr.img_amount t = Fin q /\ (0 < q)%Q /\
                             Qred q = q) /\
                  (Ocr.img_type t = "debit" \/ Ocr.img_type t = "credit") /\
                  Ocr.img_description t <> "" /\ Ocr.img_date t <> "").
      { destruct (in_parseImage text ts t E Ht) as [l [[h H]|H]].
        - now apply mainPassLine_shape in H.
        - now apply fallbackLine_shape in H. }
      destruct H as (Hq & H). apply positive_guard in Hq. tauto.
  - unfold Ocr.parseImage in E.
    destruct (Str.trim text) as [|c r]; simpl in E.
    + split; congruence.
    + now destruct (flat_map _ _).
Qed.

Lemma sepAt_not_digit (c : ascii) :
  Pdf.isDateSep c = true ->
  Str.isDigit c = false /\ Pdf.isDigitOrComma c = false /\
  Ascii.eqb c "." = false.
Proof.
  unfold Pdf.isDateSep. intros H. apply orb_true_iff in H as [H|H];
    apply Ascii.eqb_eq in H; subst c; repeat split; reflexivity.
Qed.

Lemma sepAt_cons (k : nat) (c : ascii) (s : string) :
  Pdf.sepAt (S k) (String c s) = Pdf.sepAt k s.
Proof. reflexivity. Qed.

Lemma sepAt_countDigits (k : nat) (s : string) :
  (k <= Pdf.countDigits s)%nat -> Pdf.sepAt k s = true ->
  Pdf.countDigits s = k.
Proof.
  revert k. induction s as [|c s IH]; intros k Hk Hs.
  - now destruct k.
  - simpl in *. destruct (Str.isDigit c) eqn:E.
    + destruct k as [|k].
      * unfold Pdf.sepAt in Hs. simpl in Hs.
        apply sepAt_not_digit in Hs. destruct Hs. congruence.
      * f_equal. apply IH; [lia | exact Hs].
    + lia.
Qed.

Lemma matchDateAt_head (s : string) (n : nat) :
  Ocr.matchDateAt s = Some n ->
  (1 <= Pdf.countDigits s)%nat /\ Pdf.sepAt (Pdf.countDigits s) s = true.
Proof.
  unfold Ocr.matchDateAt, Pdf.shortFieldThen.
  assert (H : forall k, (1 <= k)%nat ->
    (if ((k <=? Pdf.countDigits s)%nat && Pdf.sepAt k s)%bool
     then option_map (fun m => (k + 1 + m)%nat)
            (Ocr.dayAt (Str.drop (k + 1) s))
     else None) <> None ->
    (1 <= Pdf.countDigits s)%nat /\
    Pdf.sepAt (Pdf.countDigits s) s = true).
  { intros k Hk. destruct (_ && _)%bool eqn:E; [|congruence].
    apply andb_true_iff in E as [E1 E2]. apply Nat.leb_le in E1.
    intros _. rewrite (sepAt_countDigits k s E1 E2). split; [lia | exact E2]. }
  destruct (if ((2 <=? _)%nat && _)%bool then _ else _) eqn:E2.
  - intros _. apply (H 2%nat); [lia | congruence].
  - intros E1. apply (H 1%nat); [lia | congruence].
Qed.

Lemma scan_digit_run (s : string) : forall acc,
  Pdf.sepAt (Pdf.countDigits s) s = true ->
  hd "" (fst (Ocr.scanUnsigned (Ocr.UInt acc) s)) =
  Pdf.revString acc ++ substring 0 (Pdf.countDigits s) s.
Proof.
  induction s as [|c s IH]; intros acc Hs; [discriminate|].
  cbn [Pdf.countDigits] in *. destruct (Str.isDigit c) eqn:E.
  - rewrite sepAt_cons in Hs. cbn [Ocr.scanUnsigned].
    unfold Pdf.isDigitOrComma. rewrite E. cbn [orb].
    rewrite (IH (c :: acc) Hs), revString_cons, append_assoc.
    reflexivity.
  - unfold Pdf.sepAt in Hs. cbn [String.get] in Hs.
    apply sepAt_not_digit in Hs as (_ & H1 & H2).
    cbn [Ocr.scanUnsigned]. rewrite H1, H2.
    destruct (Ocr.scanUnsigned (Ocr.startUnsigned c) s).
    cbn [fst hd substring]. now rewrite append_empty_r.
Qed.

Lemma first_token_of_dated_line (s : string) (n : nat) :
  Ocr.matchDateAt s = Some n ->
  exists rest,
    Ocr.matchAmounts s = substring 0 (Pdf.countDigits s) s :: rest.
Proof.
  intros H. apply matchDateAt_head in H as [H1 H2].
  assert (Hhd : hd "" (Ocr.matchAmounts s)
                = substring 0 (Pdf.countDigits s) s).
  { destruct s as [|c s]; [discriminate|].
    cbn [Pdf.countDigits] in *. destruct (Str.isDigit c) eqn:E; [|lia].
    rewrite sepAt_cons in H2. unfold Ocr.matchAmounts.
    cbn [Ocr.scanUnsigned]. unfold Ocr.startUnsigned, Pdf.isDigitOrComma.
    rewrite E. cbn [orb].
    pose proof (scan_digit_run s [c] H2) as Hr.
    destruct (Ocr.scanUnsigned (Ocr.UInt [c]) s) as [ms out].
    cbn [fst] in *. rewrite Hr. reflexivity. }
  destruct (Ocr.matchAmounts s) as [|a rest].
  - simpl in Hhd. destruct s as [|c s]; [discriminate|].
    cbn [Pdf.countDigits] in *. destruct (Str.isDigit c); [|lia].
    discriminate.
  - exists rest. simpl in Hhd. now rewrite Hhd.
Qed.

Lemma stripCommas_digits (s : string) :
  Str.stripCommas (substring 0 (Pdf.countDigits s) s)
  = substring 0 (Pdf.countDigits s) s.
Proof.
  induction s as [|c s IH]; [reflexivity|].
  cbn [Pdf.countDigits]. destruct (Str.isDigit c) eqn:E; [|reflexivity].
  cbn [substring Str.stripCommas].
  destruct (Ascii.eqb c ",") eqn:E2.
  - apply Ascii.eqb_eq in E2. subst c. discriminate.
  - now rewrite IH.
Qed.

Lemma findDate_head (s : string) (n : nat) :
  Ocr.matchDateAt s = Some n -> Ocr.findDate s = Some (substring 0 n s).
Proof. intros H. destruct s; cbn [Ocr.findDate]; now rewrite H. Qed.

(** X17.  The amount pattern of [parseImage] has no way to tell the
    digits of the date from an amount.  On a line that begins with its
    date, the first amount token is the first field of the date; when
    the header has not both a debit and a credit column and that field is
    a number above 0, the main loop pushes exactly one transaction for
    the line, and its amount is that field of the date, whatever amounts
    follow on the line. *)
Theorem X17_date_field_read_as_amount (h : Ocr.header) (raw : string)
    (n : nat) :
  let line := Str.trim raw in
  let field := substring 0 (Pdf.countDigits line) line in
  Ocr.matchDateAt line = Some n ->
  Ocr.hasDebitColumn h && Ocr.hasCreditColumn h = false ->
  Ocr.isHeaderLike line = false ->
  (10 <= String.length line)%nat ->
  gt (parseFloat field) zero = true ->
  hd "" (Ocr.matchAmounts line) = field /\
  exists t, Ocr.mainPassLine h raw = [t] /\
            Ocr.img_amount t = parseFloat field /\
            Ocr.img_date t = substring 0 n line.
Proof.
  cbv zeta. intros Hm Hh Hl Hlen Hp.
  destruct (first_token_of_dated_line _ n Hm) as [rest Hr].
  split; [now rewrite Hr|].
  unfold Ocr.mainPassLine. rewrite Hl, (findDate_head _ n Hm).
  apply Nat.ltb_ge in Hlen. rewrite Hlen, Hr.
  set (field := substring 0 _ _) in *.
  assert (Hc : exists crest,
             Ocr.cleanAmountsOf (field :: rest) = parseFloat field :: crest).
  { assert (Hs : Str.stripCommas field = field)
      by apply stripCommas_digits.
    unfold Ocr.cleanAmountsOf. cbn [map filter]. rewrite Hs, Hp.
    destruct (parseFloat field); try discriminate; cbn; eauto. }
  destruct Hc as [crest ->].
  set (description := Pdf.describe _ _ _).
  assert (Hd : Ocr.debitAndCredit h description (parseFloat field :: crest)
               = (parseFloat field, zero) \/
               Ocr.debitAndCredit h description (parseFloat field :: crest)
               = (zero, parseFloat field)).
  { unfold Ocr.debitAndCredit. rewrite Hh. cbn [andb nth].
    repeat match goal with
           | |- context [if ?b then _ else _] => destruct b
           end; auto. }
  assert (Hdate : Str.orElse (substring 0 n (Str.trim raw)) "N/A"
                  = substring 0 n (Str.trim raw)).
  { pose proof (ocr_findDate_nonempty _ _ (findDate_head _ n Hm)) as Hne.
    destruct (substring 0 n (Str.trim raw)); [congruence | reflexivity]. }
  replace (gt zero zero) with false in * by reflexivity.
  destruct Hd as [-> | ->]; rewrite ?Hp;
    replace (gt zero zero) with false by reflexivity;
    cbn [app]; eexists; (split; [reflexivity|]); cbn; auto.
Qed.

Lemma X17_witness :
  Ocr.matchDateAt (Str.trim "10/02 Grocery purchase 45.00") = Some 5%nat /\
  exists t,
    Ocr.mainPassLine (Ocr.mkHeader None false false)
      "10/02 Grocery purchase 45.00" = [t] /\
    Ocr.img_amount t = parseFloat "10" /\
    Ocr.img_date t = "10/02".
Proof.
  split; [reflexivity|].
  apply (X17_date_field_read_as_amount (Ocr.mkHeader None false false)
           "10/02 Grocery purchase 45.00" 5);
    try reflexivity.
  vm_compute. lia.
Defined.

Section ImageRows.

Context {host : Host}.

Variable render : number -> string.

Lemma classify_imgRow (t : Ocr.imgTransaction) :
  (exists q, Ocr.img_amount t = Fin q /\ (0 < q)%Q /\ Qred q = q) ->
  Ocr.img_type t = "debit" \/ Ocr.img_type t = "credit" ->
  Ocr.img_date t <> "" ->
  parseAmount (render (Ocr.img_amount t)) = Ocr.img_amount t ->
  classify (imgRow render t) =
    mkTransaction (Ocr.img_amount t)
      (if String.eqb (Ocr.img_type t) "credit" then income else expense)
      (Ocr.img_type t) (Ocr.img_date t).
Proof.
  destruct t as [d desc am ty]. unfold imgRow.
  cbn [Ocr.img_amount Ocr.img_type Ocr.img_date Ocr.img_description].
  intros [q (-> & Hq & Hc)] Hty Hd Hr.
  rewrite (classify_documentRow d desc _ ty q Hd); auto.
  - f_equal. unfold Math_abs. rewrite <- (fin_canon q Hc).
    apply fin_ext. apply Qabs_pos. now apply Qlt_le_weak.
  - tauto.
  - intros E. rewrite E in Hq. now apply Qlt_irrefl in Hq.
Qed.

(** X18.  The rows that [parseImage] hands to [analyzeTransactions] are
    typed by their field [type] alone: when the rendering of each amount
    reads back as the amount, the analysis counts one transaction for
    each transaction of the image, with the same amount and date, an
    income with the description [credit] or an expense with the
    description [debit]; the words of the line take no further part,
    and the debt obligations of an image are always 0. *)
Theorem X18_image_rows_typed_by_field (text : string)
    (ts : list Ocr.imgTransaction) :
  Ocr.parseImage text = Parsed ts ->
  (forall t, In t ts ->
     parseAmount (render (Ocr.img_amount t)) = Ocr.img_amount t) ->
  let a := analyzeTransactions (map (imgRow render) ts) in
  transactionCount a = List.length ts /\
  (forall tx, In tx (map classify (map (imgRow render) ts)) ->
     exists t, In t ts /\
       amount tx = Ocr.img_amount t /\
       date tx = Ocr.img_date t /\
       description tx = Ocr.img_type t /\
       (Ocr.img_type t = "credit" /\ type tx = income \/
        Ocr.img_type t = "debit" /\ type tx = expense)) /\
  totalDebtObligations a = zero /\
  monthlyDebtObligations a = zero.
Proof.
  intros E Hr. cbv zeta.
  assert (Hs : forall t, In t ts ->
     (exists q, Ocr.img_amount t = Fin q /\ (0 < q)%Q /\ Qred q = q) /\
     (Ocr.img_type t = "debit" \/ Ocr.img_type t = "credit") /\
     Ocr.img_description t <> "" /\ Ocr.img_date t <> "").
  { intros t Ht. destruct (in_parseImage text ts t E Ht) as [l [[h H]|H]].
    - now apply mainPassLine_shape in H.
    - now apply fallbackLine_shape in H. }
  assert (Hc : forall tx, In tx (map classify (map (imgRow render) ts)) ->
     isDebt tx = false /\
     exists t, In t ts /\
       amount tx = Ocr.img_amount t /\
       date tx = Ocr.img_date t /\
       description tx = Ocr.img_type t /\
       (Ocr.img_type t = "credit" /\ type tx = income \/
        Ocr.img_type t = "debit" /\ type tx = expense)).
  { intros tx Htx. rewrite map_map in Htx.
    apply in_map_iff in Htx as [t [<- Ht]].
    destruct (Hs t Ht) as (Hq & Hty & _ & Hd).
    rewrite (classify_imgRow t Hq Hty Hd (Hr t Ht)).
    split.
    - unfold isDebt. cbn [description]. now destruct Hty as [-> | ->].
    - exists t. cbn [amount date description type]. repeat split; auto.
      destruct Hty as [-> | ->]; auto. }
  assert (Hdebt : totalDebtObligations
            (analyzeTransactions (map (imgRow render) ts)) = zero).
  { rewrite analyze_totalDebt, filter_none; [reflexivity|].
    intros tx Htx. now apply Hc. }
  split; [rewrite analyze_transactionCount; apply length_map|].
  split; [intros tx Htx; now apply Hc|].
  split; [exact Hdebt | now apply analyze_monthlyDebt].
Qed.

End ImageRows.

Lemma X18_witness :
  Ocr.parseImage imageText =
    Parsed [Ocr.mkImgTransaction "10/02" "Grocery purchase" (Fin 10)
              "debit"] /\
  totalDebtObligations
    (analyzeTransactions (host := Iso.host)
       (map (imgRow toString)
          [Ocr.mkImgTransaction "10/02" "Grocery purchase" (Fin 10)
             "debit"])) = zero.
Proof.
  assert (E : Ocr.parseImage imageText =
    Parsed [Ocr.mkImgTransaction "10/02" "Grocery purchase" (Fin 10)
              "debit"]) by (vm_compute; reflexivity).
  split; [exact E|].
  apply (X18_image_rows_typed_by_field (host := Iso.host) toString
           imageText _ E).
  intros t [<-|[]]. vm_compute. reflexivity.
Defined.

(* ================================================================== *)
(** * The route [/api/upload] *)

Lemma filter_hasData (data : list row) :
  Forall (fun r => hasData r = true) (filter hasData data).
Proof. apply Forall_forall. intros r H. now apply filter_In in H. Qed.

Section UploadProperties.

Context {host : Host}.

Variable render : number -> string.

(** X19.  The file types that the filter of the upload lets through are
    exactly the extensions for which the route has a parser: a file that
    passes the filter is never answered with the unsupported format
    error. *)
Theorem X19_accepted_types_have_a_parser (f : statementFile) :
  fileFilter (f_ext f) = true <-> parseByExtension render f <> None.
Proof.
  unfold fileFilter, allowedTypes, parseByExtension. cbn [existsb].
  destruct (String.eqb (f_ext f) ".csv"); [split; [discriminate | reflexivity]|].
  destruct (String.eqb (f_ext f) ".xlsx"); [split; [discriminate | reflexivity]|].
  destruct (String.eqb (f_ext f) ".xls"); [split; [discriminate | reflexivity]|].
  destruct (String.eqb (f_ext f) ".pdf"); [split; [discriminate | reflexivity]|].
  cbn [orb].
  destruct (_ || _); split; try discriminate; try reflexivity; congruence.
Qed.

(** X20.  The route answers with an analysis only when the parser of the
    file has produced at least one row, and the analysis then counts one
    transaction for each row.  Of a CSV file or of the first sheet of a
    workbook the rows analysed are the rows with at least one value that
    is not blank, in their order: blank rows never reach the analysis,
    and a file with no other rows is refused. *)
Theorem X20_upload_analyses_the_rows_with_data (f : statementFile) :
  match uploadRoute render (Some f) with
  | Analysed a =>
      exists data,
        parseByExtension render f = Some (Parsed data) /\
        a = analyzeTransactions data /\
        transactionCount a = List.length data /\
        (1 <= List.length data)%nat /\
        (forall rows, f_ext f = ".csv" -> f_csv f = Parsed rows ->
           data = filter hasData rows) /\
        (forall sheet others,
           f_ext f = ".xlsx" \/ f_ext f = ".xls" ->
           f_sheets f = Parsed (sheet :: others) ->
           data = filter hasData sheet)
  | BadRequest _ =>
      forall data, parseByExtension render f = Some (Parsed data) ->
                   data = []
  end.
Proof.
  unfold uploadRoute.
  destruct (parseByExtension render f) as [[[|r data]|m]|] eqn:E;
    try (intros data' [= <-]; reflexivity); try discriminate.
  exists (r :: data). split; [reflexivity|]. split; [reflexivity|].
  split; [apply analyze_transactionCount|]. split; [simpl; lia|].
  unfold parseByExtension in E. split.
  - intros rows He Hr. rewrite He, Hr in E. cbn in E.
    unfold parseCSV in E. destruct (filter hasData rows); congruence.
  - intros sheet others He Hr.
    assert (E' : Some (andThen (f_sheets f) parseExcel)
                 = Some (Parsed (r :: data))).
    { destruct He as [He|He]; rewrite He in E; exact E. }
    rewrite Hr in E'. cbn in E'.
    destruct (filter hasData sheet); congruence.
Qed.

End UploadProperties.

(* ================================================================== *)
(** * Accounts *)

Lemma findUser_none (email : string) (users : list user) :
  findUser email users = None <-> ~ In email (map u_email users).
Proof.
  unfold findUser. induction users as [|u users IH]; simpl.
  - tauto.
  - destruct (String.eqb_spec (u_email u) email) as [E|E].
    + split; [discriminate | intros H; exfalso; apply H; now left].
    + rewrite IH. tauto.
Qed.

Lemma findUser_last (email : string) (users : list user) (u : user) :
  findUser email users = None -> u_email u = email ->
  findUser email (users ++ [u])%list = Some u.
Proof.
  unfold findUser. intros H E. induction users as [|v users IH]; simpl in *.
  - rewrite E, String.eqb_refl. reflexivity.
  - destruct (String.eqb (u_email v) email); [discriminate | auto].
Qed.

Lemma registerCheck_none (body : credentials) (users : list user) :
  registerCheck body users = None <->
  c_email body <> "" /\ c_password body <> "" /\
  ~ In (c_email body) (map u_email users).
Proof.
  unfold registerCheck. rewrite <- findUser_none.
  destruct (c_email body) as [|c e]; [cbn; split; [discriminate | tauto]|].
  destruct (c_password body) as [|c' p];
    [cbn; split; [discriminate | tauto]|].
  cbn [Str.nonEmpty negb orb].
  destruct (findUser (String c e) users).
  - split; [discriminate | intros (_ & _ & H); discriminate].
  - split; [intros _; repeat split; discriminate | reflexivity].
Qed.

Lemma findUser_first (email : string) (users more : list user) (u : user) :
  findUser email users = Some u -> findUser email (users ++ more) = Some u.
Proof.
  unfold findUser. induction users as [|v users IH]; simpl; [discriminate|].
  destruct (String.eqb (u_email v) email); auto.
Qed.

Lemma NoDup_emails_last (users : list user) (u : user) :
  NoDup (map u_email (users ++ [u])) <->
  NoDup (map u_email users) /\ ~ In (u_email u) (map u_email users).
Proof.
  rewrite map_app. cbn [map]. split.
  - intros H. apply NoDup_remove in H. rewrite app_nil_r in H. exact H.
  - intros [H1 H2]. apply NoDup_app; auto.
    + constructor; [intros [] | constructor].
    + intros x Hx [<-|[]]. contradiction.
Qed.

(** X21.  A request to register that has passed the check (address and
    password not empty, no user with the address) waits for the hash and
    then appends its user to [users] as it is by then, without a second
    check.  So the addresses stay pairwise different as long as no other
    request has appended a user with the same address in the meantime,
    and in particular when requests are served one after the other.  But
    when two requests for one address both pass the check before either
    appends, both are granted and [users] ends with two users of that
    address.  A request that is refused leaves [users] as it was. *)
Theorem X21_register_unique_unless_interleaved (now : Z)
    (hashedPassword token : string) (body : credentials)
    (users users' : list user) :
  registerCheck body users = None ->
  let r := registerCommit now hashedPassword token body users' in
  snd r = (users' ++ [mkUser (decimal now) (c_email body) hashedPassword
                        (Str.orElse (c_name body) (c_email body))])%list /\
  (NoDup (map u_email (snd r)) <->
   NoDup (map u_email users') /\
   ~ In (c_email body) (map u_email users')) /\
  (NoDup (map u_email users) ->
   NoDup (map u_email
            (snd (register now hashedPassword token body users)))) /\
  (forall now2 hashed2 token2 body2,
     registerCheck body2 users = None ->
     c_email body2 = c_email body ->
     ~ NoDup (map u_email
                (snd (registerCommit now2 hashed2 token2 body2
                        (snd (registerCommit now hashedPassword token body
                                users)))))) /\
  (forall body0 refusal,
     registerCheck body0 users = Some refusal ->
     register now hashedPassword token body0 users = (refusal, users)).
Proof.
  intros Hc. cbv zeta. apply registerCheck_none in Hc as (He & Hp & Hin).
  split; [reflexivity|]. split; [|split; [|split]].
  - unfold registerCommit. cbn [snd]. apply NoDup_emails_last.
  - intros Hnd. unfold register.
    assert (Hc : registerCheck body users = None)
      by (apply registerCheck_none; auto).
    rewrite Hc. unfold registerCommit. cbn [snd].
    apply NoDup_emails_last. auto.
  - intros now2 hashed2 token2 body2 _ E H.
    unfold registerCommit in H. cbn [snd] in H.
    apply NoDup_emails_last in H as [_ H]. apply H. cbn [u_email].
    rewrite E, map_app. apply in_or_app. right. now left.
  - intros body0 refusal H. unfold register. now rewrite H.
Qed.

Lemma X21_witness :
  registerCheck (mkCredentials "b@x.org" "secret" "")
    [mkUser "1" "a@x.org" "h1" "Ann"] = None /\
  snd (registerCommit 2 "h2" "t" (mkCredentials "b@x.org" "secret" "")
         [mkUser "1" "a@x.org" "h1" "Ann"]) =
    [mkUser "1" "a@x.org" "h1" "Ann"; mkUser "2" "b@x.org" "h2" "b@x.org"].
Proof.
  split; [reflexivity|].
  apply (X21_register_unique_unless_interleaved 2 "h2" "t"
           (mkCredentials "b@x.org" "secret" "")
           [mkUser "1" "a@x.org" "h1" "Ann"]
           [mkUser "1" "a@x.org" "h1" "Ann"] eq_refl).
Defined.

Section Login.

Variable compare : string -> string -> bool.

(** X22.  After a registration, a login with the same address and
    password is checked against the first user of [users] that has the
    address.  When no user had the address at the time the new user was
    appended, that is the new user: the login is granted for the
    identifier, the address and the name of the registration if
    [bcrypt.compare] accepts the password for the stored hash, and is
    answered 401 otherwise.  When another request had appended a user
    with the address in the meantime, the login is checked against the
    hash of that earlier user instead.  A password that is not accepted
    gets the same answer as an address that no user has. *)
Theorem X22_login_after_registration (now : Z)
    (hashedPassword token token' : string) (body : credentials)
    (users users' : list user) :
  registerCheck body users = None ->
  let r := registerCommit now hashedPassword token body users' in
  (findUser (c_email body) users' = None ->
   login compare token' body (snd r) =
     if compare (c_password body) hashedPassword
     then Granted 200 "Login successful" token' (decimal now)
            (c_email body) (Str.orElse (c_name body) (c_email body))
     else Refused 401 "Invalid credentials") /\
  (forall u, findUser (c_email body) users' = Some u ->
   login compare token' body (snd r) =
     if compare (c_password body) (u_password u)
     then Granted 200 "Login successful" token'
            (u_id u) (u_email u) (u_name u)
     else Refused 401 "Invalid credentials") /\
  (forall body' us, c_password body' <> "" -> c_email body' <> "" ->
     ~ In (c_email body') (map u_email us) ->
     login compare token' body' us = Refused 401 "Invalid credentials").
Proof.
  intros Hc. cbv zeta. apply registerCheck_none in Hc as (He & Hp & _).
  unfold registerCommit. cbn [snd]. unfold login.
  assert (H0 : negb (Str.nonEmpty (c_email body))
               || negb (Str.nonEmpty (c_password body)) = false).
  { destruct (c_email body); [congruence|].
    destruct (c_password body); [congruence | reflexivity]. }
  rewrite H0. split; [|split].
  - intros Hf.
    rewrite (findUser_last (c_email body) users'
               (mkUser (decimal now) (c_email body) hashedPassword
                  (Str.orElse (c_name body) (c_email body))) Hf eq_refl).
    reflexivity.
  - intros u Hf. now rewrite (findUser_first _ _ _ _ Hf).
  - intros body' us Hp' He' Hin.
    destruct (c_email body') eqn:E1; [congruence|].
    destruct (c_password body') eqn:E2; [congruence|].
    cbn [Str.nonEmpty negb orb]. apply findUser_none in Hin.
    now rewrite Hin.
Qed.

End Login.

Lemma X22_witness :
  registerCheck (mkCredentials "b@x.org" "secret" "")
    [mkUser "1" "a@x.org" "h1" "Ann"] = None /\
  findUser "b@x.org" [mkUser "1" "a@x.org" "h1" "Ann"] = None /\
  login (fun p h => String.eqb h "h2") "t2"
    (mkCredentials "b@x.org" "secret" "")
    [mkUser "1" "a@x.org" "h1" "Ann"; mkUser "2" "b@x.org" "h2" "b@x.org"]
  = Granted 200 "Login successful" "t2" "2" "b@x.org" "b@x.org".
Proof.
  split; [reflexivity|]. split; [reflexivity|].
  apply (proj1 (X22_login_after_registration
                  (fun p h => String.eqb h "h2")
                  2 "h2" "t" "t2" (mkCredentials "b@x.org" "secret" "")
                  [mkUser "1" "a@x.org" "h1" "Ann"]
                  [mkUser "1" "a@x.org" "h1" "Ann"] eq_refl) eq_refl).
Defined.

(* ================================================================== *)
(** * Tokens and applications *)

Lemma splitSpaces_noBlank (s : string) :
  noBlank s = true -> splitSpaces s = [s].
Proof.
  induction s as [|c s IH]; [reflexivity|].
  unfold noBlank. cbn [allChars splitSpaces]. intros H.
  apply andb_true_iff in H as [H1 H2]. apply negb_true_iff in H1.
  rewrite H1. fold (noBlank s) in H2. now rewrite (IH H2).
Qed.

Lemma splitSpaces_app (a b : string) :
  noBlank a = true ->
  splitSpaces (a ++ String " " b) = a :: splitSpaces b.
Proof.
  induction a as [|c a IH]; [reflexivity|].
  unfold noBlank. cbn [allChars]. intros H.
  apply andb_true_iff in H as [H1 H2]. apply negb_true_iff in H1.
  fold (noBlank a) in H2.
  change (String c a ++ String " " b) with (String c (a ++ String " " b)).
  cbn [splitSpaces]. rewrite H1, (IH H2). reflexivity.
Qed.

Lemma splitSpaces_cons (s : string) :
  exists x l, splitSpaces s = x :: l.
Proof.
  destruct s as [|c s]; [now exists "", []|]. cbn [splitSpaces].
  destruct (Ascii.eqb c " "); [eauto|].
  destruct (splitSpaces s); eauto.
Qed.

Section Tokens.

Variable verify : string -> option payload.

(** X23.  [authenticateToken] reads the token as the second piece of the
    header, cut at the blanks, and never looks at the first piece: with
    any word for the scheme, [Bearer] or another or none, the request is
    authenticated as the user of the token exactly when [jwt.verify]
    accepts the token, and is answered 403 otherwise.  A request without
    the header, or whose header has no blank, is answered 401. *)
Theorem X23_token_is_second_piece_of_header (scheme token : string) :
  noBlank scheme = true -> noBlank token = true -> token <> "" ->
  authenticateToken verify (Some (scheme ++ String " " token)) =
    match verify token with
    | Some user => Authenticated user
    | None => Unauthorized 403 "Invalid or expired token"
    end /\
  authenticateToken verify None =
    Unauthorized 401 "Access token required" /\
  authenticateToken verify (Some token) =
    Unauthorized 401 "Access token required".
Proof.
  intros Hs Ht Hne. unfold authenticateToken, tokenOf. split; [|split].
  - assert (Hh : Str.nonEmpty (scheme ++ String " " token) = true)
      by now destruct scheme.
    rewrite Hh, (splitSpaces_app _ _ Hs), (splitSpaces_noBlank _ Ht).
    cbn [nth_error]. destruct token; [congruence | reflexivity].
  - reflexivity.
  - rewrite (splitSpaces_noBlank _ Ht).
    destruct token; [congruence | reflexivity].
Qed.

End Tokens.

Lemma X23_witness :
  noBlank "Basic" = true /\
  authenticateToken
    (fun t => if String.eqb t "abc" then Some (mkPayload "7" "a@x.org")
              else None)
    (Some "Basic abc") = Authenticated (mkPayload "7" "a@x.org").
Proof.
  split; [reflexivity|].
  assert (Hne : "abc" <> "") by discriminate.
  apply (proj1 (X23_token_is_second_piece_of_header
                  (fun t => if String.eqb t "abc"
                            then Some (mkPayload "7" "a@x.org") else None)
                  "Basic" "abc" eq_refl eq_refl Hne)).
Defined.

Lemma insertByDate_perm (a : application) (l : list application) :
  Permutation (a :: l) (insertByDate a l).
Proof.
  induction l as [|b l IH]; simpl; [reflexivity|].
  destruct (app_createdAt b <=? app_createdAt a); [reflexivity|].
  rewrite perm_swap. now constructor.
Qed.

Lemma sortByDate_perm (l : list application) :
  Permutation l (sortByDate l).
Proof.
  induction l as [|a l IH]; simpl; [constructor|].
  rewrite <- insertByDate_perm. now constructor.
Qed.

Lemma insertByDate_sorted (a : application) (l : list application) :
  StronglySorted (fun x y => app_createdAt y <= app_createdAt x) l ->
  StronglySorted (fun x y => app_createdAt y <= app_createdAt x)
                 (insertByDate a l).
Proof.
  induction 1 as [|b l Hs IH Hb]; simpl.
  - constructor; constructor.
  - destruct (app_createdAt b <=? app_createdAt a) eqn:E.
    + apply Z.leb_le in E. constructor; [now constructor|].
      constructor; [exact E|].
      eapply Forall_impl; [|exact Hb]. simpl. intros c Hc. lia.
    + apply Z.leb_gt in E. constructor; [exact IH|].
      apply (Permutation_Forall (insertByDate_perm a l)).
      constructor; [lia | exact Hb].
Qed.

Lemma sortByDate_sorted (l : list application) :
  StronglySorted (fun x y => app_createdAt y <= app_createdAt x)
                 (sortByDate l).
Proof.
  induction l as [|a l IH]; simpl; [constructor|].
  now apply insertByDate_sorted.
Qed.

Lemma sorted_map_entryOf (l : list application) :
  StronglySorted (fun x y => app_createdAt y <= app_createdAt x) l ->
  StronglySorted (fun x y => h_createdAt y <= h_createdAt x)
                 (map entryOf l).
Proof.
  induction 1 as [|a l Hs IH Ha]; simpl; constructor; auto.
  apply Forall_map. exact Ha.
Qed.

Lemma filter_last {A : Type} (f : A -> bool) (l : list A) (a : A) :
  filter f (l ++ [a]) = (filter f l ++ (if f a then [a] else []))%list.
Proof. rewrite filter_app. reflexivity. Qed.

Lemma find_last_none {A : Type} (f : A -> bool) (l : list A) (a : A) :
  f a = false -> find f (l ++ [a]) = find f l.
Proof.
  intros H. induction l as [|b l IH]; simpl; [now rewrite H|].
  destruct (f b); auto.
Qed.

(** X24.  The history of a user lists the applications of that user and
    no others, each one once, the latest first: it is a rearrangement of
    the entries of the applications whose [userId] is the identifier of
    the user, in descending order of [createdAt].  The application that
    [/api/history/:id] returns has the identifier asked for and belongs
    to the user who asks. *)
Theorem X24_history_is_own_applications_latest_first (user : payload)
    (applications : list application) :
  Permutation (map entryOf (filter (ownedBy user) applications))
              (history user applications) /\
  StronglySorted (fun x y => h_createdAt y <= h_createdAt x)
                 (history user applications) /\
  (forall e, In e (history user applications) <->
     exists app, In app applications /\
                 app_userId app = tok_id user /\ e = entryOf app) /\
  (forall id app, historyById id user applications = Some app ->
     In app applications /\ app_id app = id /\
     app_userId app = tok_id user).
Proof.
  unfold history. split; [|split; [|split]].
  - apply Permutation_map, sortByDate_perm.
  - apply sorted_map_entryOf, sortByDate_sorted.
  - intros e. rewrite in_map_iff. split.
    + intros [app [<- H]].
      apply (Permutation_in _ (Permutation_sym (sortByDate_perm _))) in H.
      apply filter_In in H as [H1 H2]. apply String.eqb_eq in H2. eauto.
    + intros [app (H1 & H2 & ->)]. exists app. split; [reflexivity|].
      apply (Permutation_in _ (sortByDate_perm _)).
      apply filter_In. split; [exact H1|]. now apply String.eqb_eq.
  - intros id app H. unfold historyById in H.
    pose proof (find_some _ _ H) as [H1 H2].
    apply andb_true_iff in H2 as [H2 H3].
    apply String.eqb_eq in H2, H3. auto.
Qed.

(** X25.  A check of eligibility adds one application, at the end, for
    the user who asked, with the result of [checkEligibility] on the
    analysis sent and the status [approved] exactly when that result is
    eligible; the user finds it in the history.  The histories of the
    other users, and what they get from [/api/history/:id], are the same
    as before.  A request without an analysis changes nothing. *)
Theorem X25_application_recorded_for_its_user (now created : Z)
    (user : payload) (analysis : AnalysisResult)
    (personalInfo : option (list (string * string)))
    (applications : list application) :
  let r := checkEligibilityRoute now created user (Some analysis)
             personalInfo applications in
  fst r = Checked (checkEligibility analysis) (decimal now) /\
  (exists app,
     snd r = (applications ++ [app])%list /\
     app_userId app = tok_id user /\
     app_eligibility app = checkEligibility analysis /\
     (app_status app = "approved" <->
      eligible (checkEligibility analysis) = true) /\
     In (entryOf app) (history user (snd r))) /\
  (forall other, tok_id other <> tok_id user ->
     history other (snd r) = history other applications /\
     forall id, historyById id other (snd r)
                = historyById id other applications) /\
  checkEligibilityRoute now created user None personalInfo applications
    = (AnalysisRequired, applications).
Proof.
  cbv zeta. unfold checkEligibilityRoute. cbn [fst snd app_id].
  set (app := mkApplication _ _ _ _ _ _ _).
  split; [reflexivity|]. split; [|split; [|reflexivity]].
  - exists app. split; [reflexivity|]. split; [reflexivity|].
    split; [reflexivity|]. split.
    + unfold app. cbn [app_status].
      destruct (eligible (checkEligibility analysis)); split;
        congruence.
    + unfold history. apply in_map.
      apply (Permutation_in _ (sortByDate_perm _)).
      apply filter_In. split; [apply in_or_app; right; now left|].
      apply String.eqb_refl.
  - intros other Hne.
    assert (Ho : ownedBy other app = false).
    { unfold ownedBy, app. cbn [app_userId].
      apply String.eqb_neq. congruence. }
    split.
    + unfold history. rewrite filter_last, Ho. now rewrite app_nil_r.
    + intros id. unfold historyById. apply find_last_none.
      rewrite Ho. apply andb_false_r.
Qed.

(* ================================================================== *)
(** * Statements of a single month *)

Lemma mean_single (x : Q) : calculateMean [Fin x] = fin x.
Proof.
  unfold calculateMean, sum. cbn [fold_left List.length].
  change (add zero (Fin x)) with (fin (0 + x)).
  change (ofZ (Z.of_nat 1)) with (Fin 1).
  unfold fin at 1. rewrite div_Fin by discriminate.
  apply fin_ext. rewrite Qred_correct. field.
Qed.

Section SingleMonth.

Context {host : Host}.

Hypothesis sqrt_zero : (sqrtQ 0 == 0)%Q.

Lemma stddev_single (x : Q) :
  calculateStandardDeviation [Fin x] = zero.
Proof.
  unfold calculateStandardDeviation. cbn [map]. rewrite mean_single.
  assert (Hd : square (sub (Fin x) (fin x)) = zero).
  { unfold sub, fin, square, zero, ofZ.
    rewrite <- (fin_canon (0 # 1)) by reflexivity.
    apply fin_ext. rewrite !Qred_correct. ring. }
  rewrite Hd.
  assert (Hm : calculateMean [zero] = zero) by reflexivity.
  rewrite Hm. unfold Math_sqrt, zero, ofZ.
  replace (Qltb (0 # 1) 0) with false by reflexivity.
  rewrite <- (fin_canon (0 # 1)) by reflexivity.
  apply fin_ext. exact sqrt_zero.
Qed.

Lemma variation_single (x : Q) :
  div (calculateStandardDeviation [Fin x])
      (Num.orElse (calculateMean [Fin x]) (ofZ 1)) = zero.
Proof.
  rewrite stddev_single, mean_single.
  apply div_zero, divisor_orElse. reflexivity.
Qed.

(** X26.  A statement whose income falls in a single month has no
    variation to measure: when the square root of 0 is 0 and one month
    only has an income, a finite one, the income consistency is 100; and
    in the same way the spending volatility score is 100 when one month
    only has expenses. *)
Theorem X26_single_month_scores_100 (data : list row) (x : Q) :
  (incomeMonths (map classify data) = [Fin x] ->
   incomeConsistency (analyzeTransactions data) = ofZ 100) /\
  (expenseMonths (map classify data) = [Fin x] ->
   spendingVolatility (analyzeTransactions data) = ofZ 100).
Proof.
  unfold analyzeTransactions. rewrite processRows_spec.
  unfold summarize. cbn [incomeConsistency spendingVolatility
                         acc_transactions].
  split; intros H.
  - unfold incomeConsistencyRaw. rewrite H, variation_single.
    reflexivity.
  - unfold spendingVolatilityRaw. rewrite H, variation_single.
    reflexivity.
Qed.

End SingleMonth.

Lemma X26_witness :
  (sqrtQ (Host := Iso.host) 0 == 0)%Q /\
  incomeMonths (host := Iso.host) (map classify statementC4)
    = [Fin 50000] /\
  incomeConsistency (analyzeTransactions (host := Iso.host) statementC4)
    = ofZ 100.
Proof.
  assert (H0 : (sqrtQ (Host := Iso.host) 0 == 0)%Q) by reflexivity.
  assert (H1 : incomeMonths (host := Iso.host) (map classify statementC4)
               = [Fin 50000]) by (vm_compute; reflexivity).
  split; [exact H0|]. split; [exact H1|].
  apply (proj1 (X26_single_month_scores_100 (host := Iso.host) H0
                  statementC4 50000) H1).
Defined.


